(** * The Kubernetes test orchestrator of scripts/orchestrator.py

    A shallow embedding of [KubernetesOrchestrator] and the properties its
    specification states about it.

    Conventions of the embedding.
    - Python [str] is [string]; the characters are the 8-bit ones of
      [Ascii], so [lower], [strip] and [len] are the ASCII ones.
    - Python [int] is [Z].  The wall clock [time.time()] is read in whole
      clock ticks, a [Z]; [READINESS_TIMEOUT], [READINESS_CHECK_INTERVAL]
      and [RETRY_DELAY] are expressed in the same unit.  [time.sleep]
      raises on a negative delay, so the properties of the retry loops are
      stated for settings whose delays are not negative.
    - The cluster, the helm subprocess, the file system and the clock are
      one abstract world [W], reached through the operations of the class
      [Env]; a method that talks to the world is a function in the monad
      [M] which threads the world, a raised exception and divergence.
    - A raised exception is an [Exception], which every [except Exception]
      catches, or a [KeyboardInterrupt], which none of them does.  The
      listing of the pods is the one call to the cluster that the
      orchestrator makes without a handler for [Exception]: whatever it
      raises besides [ApiException] leaves the method that made it.  It is
      also where the embedding lets an interrupt from outside arrive; the
      exec channel, the helm subprocess and the sleeps are followed as they
      run when nobody interrupts them.
    - [logger] calls do not influence control flow and are left out, with
      the exception of the two warnings of [_validateNodeCount], which are
      returned next to the value.  The attribute [_collectedTestCases] is
      only ever written and is left out as well. *)

From Stdlib Require Import ZArith List String Ascii Bool Lia DecimalString Permutation
  Wf_nat.
Import ListNotations.
Set Warnings "-register-all".
Local Open Scope string_scope.
Local Open Scope Z_scope.

(** ** Python strings *)

Module Py.

(** [str.isspace] on one ASCII character: tab, line feed, vertical tab,
    form feed, carriage return, the separators 28..31 and the blank. *)
Definition isspace (c : ascii) : bool :=
  let n := nat_of_ascii c in
  ((9 <=? n)%nat && (n <=? 13)%nat) || ((28 <=? n)%nat && (n <=? 32)%nat).

Fixpoint lstrip (s : string) : string :=
  match s with
  | String c t => if isspace c then lstrip t else s
  | EmptyString => EmptyString
  end.

Fixpoint rstrip (s : string) : string :=
  match s with
  | EmptyString => EmptyString
  | String c t =>
      match rstrip t with
      | EmptyString => if isspace c then EmptyString else String c EmptyString
      | t' => String c t'
      end
  end.

(** [s.strip()] *)
Definition strip (s : string) : string := rstrip (lstrip s).

(** [s.split(sep)] for a separator of one character. *)
Fixpoint split (sep : ascii) (s : string) : list string :=
  match s with
  | EmptyString => [EmptyString]
  | String c t =>
      if Ascii.eqb c sep then EmptyString :: split sep t
      else match split sep t with
           | h :: r => String c h :: r
           | [] => [String c EmptyString]
           end
  end.

Definition newline : ascii := ascii_of_nat 10.

Definition lower_char (c : ascii) : ascii :=
  let n := nat_of_ascii c in
  if ((65 <=? n)%nat && (n <=? 90)%nat) then ascii_of_nat (n + 32) else c.

(** [s.lower()] *)
Fixpoint lower (s : string) : string :=
  match s with
  | EmptyString => EmptyString
  | String c t => String (lower_char c) (lower t)
  end.

(** [s.startswith(p)] *)
Fixpoint startswith (p s : string) : bool :=
  match p, s with
  | EmptyString, _ => true
  | String a p', String b s' => Ascii.eqb a b && startswith p' s'
  | String _ _, EmptyString => false
  end.

(** [sub in s] *)
Fixpoint contains (sub s : string) : bool :=
  startswith sub s ||
  match s with
  | EmptyString => false
  | String _ t => contains sub t
  end.

(** [sep.join(l)] *)
Definition join (sep : string) (l : list string) : string := String.concat sep l.

(** [str(n)], also what an f-string prints for an [int]. *)
Definition str_of_int (n : Z) : string := NilZero.string_of_int (Z.to_int n).

(** Truth value of a [str]: the empty string is falsy. *)
Definition nonempty (s : string) : bool :=
  match s with EmptyString => false | _ => true end.

(** [range(lo, hi)] *)
Definition range (lo hi : Z) : list Z :=
  map (fun i => lo + Z.of_nat i) (seq 0 (Z.to_nat (hi - lo))).

End Py.

(** ** Data model *)

(** [V1ContainerStatus], of which only [ready] is read. *)
Record ContainerStatus := { ready : bool }.

(** [V1Pod]: [metadata.name], [status.phase], [status.container_statuses]
    (which the client leaves [None] while no container has been created)
    and [status.pod_ip]. *)
Record Pod := {
  metadata_name : string;
  status_phase : string;
  status_container_statuses : option (list ContainerStatus);
  status_pod_ip : option string
}.

(** The values [json.loads] produces: [None], [bool], numbers, [str],
    [list] and [dict].  A [dict] is the list of its items in order; keys are
    unique in a dict, and [assoc] reads the binding of a key. *)
Inductive json : Type :=
| JNull
| JBool (b : bool)
| JNum (z : Z)
| JStr (s : string)
| JArr (l : list json)
| JObj (items : list (string * json)).

Module Json.

Fixpoint assoc (k : string) (items : list (string * json)) : option json :=
  match items with
  | [] => None
  | (k', v) :: r => if String.eqb k k' then Some v else assoc k r
  end.

(** [d.get(k, default)]; [None] is the [AttributeError] of a value that is
    not a dict. *)
Definition get (d : json) (k : string) (default : json) : option json :=
  match d with
  | JObj items => Some (match assoc k items with Some v => v | None => default end)
  | _ => None
  end.

Fixpoint chars (s : string) : list json :=
  match s with
  | EmptyString => []
  | String c t => JStr (String c EmptyString) :: chars t
  end.

(** The elements [for x in v] runs over; [None] is the [TypeError] of a
    value that is not iterable. *)
Definition iter (v : json) : option (list json) :=
  match v with
  | JArr l => Some l
  | JObj items => Some (map (fun kv => JStr (fst kv)) items)
  | JStr s => Some (chars s)
  | _ => None
  end.

(** [len(v)] *)
Definition len (v : json) : option Z :=
  match v with
  | JArr l => Some (Z.of_nat (List.length l))
  | JObj items => Some (Z.of_nat (List.length items))
  | JStr s => Some (Z.of_nat (String.length s))
  | _ => None
  end.

(** Truth value of a Python object. *)
Definition truthy (v : json) : bool :=
  match v with
  | JNull => false
  | JBool b => b
  | JNum z => negb (z =? 0)
  | JStr s => Py.nonempty s
  | JArr l => match l with [] => false | _ => true end
  | JObj items => match items with [] => false | _ => true end
  end.

(** [v is not None] *)
Definition is_not_None (v : json) : bool :=
  match v with JNull => false | _ => true end.

(** [a and b] *)
Definition and_ (a b : json) : json := if truthy a then b else a.

End Json.

(** The dict [_checkChromeNodeStatus] returns. *)
Record NodeStatus := {
  available : json;
  status_ready : json;
  sessions : Z;
  maxSessions : Z
}.

(** Results of the external calls.  A listing answers with the pods, or
    raises: the [ApiException] of the API server, another exception of the
    client (a [MaxRetryError] of the connection pool when the server cannot
    be reached, say), or the [KeyboardInterrupt] of an interrupt that arrives
    during the call. *)
Inductive Listing :=
| Listed (items : list Pod)
| ListApiException
| ListRaised (msg : string)
| ListInterrupted.

Inductive ExecResult :=
| ExecCompleted (returncode : Z) (stdout stderr : string)
| ExecRaised (msg : string).

Inductive RunResult :=
| RunCompleted (returncode : Z) (stdout stderr : string)
| RunTimeoutExpired
| RunRaised (msg : string).

(** What a callable handed to [handleErrors] can return. *)
Inductive PyVal :=
| VNone
| VBool (b : bool)
| VInt (z : Z)
| VStr (s : string)
| VTuple (l : list PyVal)
| VList (l : list PyVal).

Definition py_truthy (v : PyVal) : bool :=
  match v with
  | VNone => false
  | VBool b => b
  | VInt z => negb (z =? 0)
  | VStr s => Py.nonempty s
  | VTuple l => match l with [] => false | _ => true end
  | VList l => match l with [] => false | _ => true end
  end.

(** The module-level settings, read from the process environment. *)
Record Config := {
  NAMESPACE : string;
  CONTROLLER_POD_LABEL : string;
  CHROME_NODE_POD_LABEL : string;
  CHROME_NODE_HEADLESS_SVC : string;
  HELM_RELEASE_NAME : string;
  HELM_VALUES_FILE : string;
  READINESS_TIMEOUT : Z;
  READINESS_CHECK_INTERVAL : Z;
  MAX_RETRIES : Z;
  RETRY_DELAY : Z
}.

Definition default_config : Config := {|
  NAMESPACE := "insider-testops";
  CONTROLLER_POD_LABEL := "app=test-case-controller";
  CHROME_NODE_POD_LABEL := "app=chrome-node";
  CHROME_NODE_HEADLESS_SVC := "chrome-node-headless";
  HELM_RELEASE_NAME := "insider-testops";
  HELM_VALUES_FILE := "";
  READINESS_TIMEOUT := 300;
  READINESS_CHECK_INTERVAL := 5;
  MAX_RETRIES := 3;
  RETRY_DELAY := 10
|}.

Definition DEFAULT_NODE_COUNT : Z := 1.
Definition MIN_NODE_COUNT : Z := 1.
Definition MAX_NODE_COUNT : Z := 5.

(** ** The world and the monad of the methods *)

(** Outcome of running a method: a value, a raised [Exception] (with its
    message), a raised [KeyboardInterrupt] or, for the polling loop run on
    bounded fuel, no outcome yet. *)
Inductive result (A : Type) : Type :=
| Val (a : A)
| Exc (msg : string)
| Interrupted
| Div.
Arguments Val {A} a.
Arguments Exc {A} msg.
Arguments Interrupted {A}.
Arguments Div {A}.

(** The operations the orchestrator performs on its surroundings.
    - [list_namespaced_pod ns selector]: the pod list, or what the client
      raises;
    - [pod_exec name ns command container]: the exec stream run to its end
      (return code, stdout, stderr), or the exception it raised;
    - [subprocess_run command]: the helm subprocess;
    - [os_path_exists], [time_time]: reads of the file system and the clock;
    - [time_sleep d]: the world after a sleep of [d] >= 0 ticks;
    - [json_loads]: the decoder, [None] for [JSONDecodeError]. *)
Class Env (W : Type) : Type := {
  list_namespaced_pod : string -> string -> W -> Listing * W;
  pod_exec : string -> string -> list string -> option string -> W -> ExecResult * W;
  subprocess_run : list string -> W -> RunResult * W;
  os_path_exists : string -> W -> bool;
  time_time : W -> Z;
  time_sleep : Z -> W -> W;
  json_loads : string -> option json
}.

Definition M (W A : Type) : Type := W -> result A * W.

Definition ret {W A} (a : A) : M W A := fun w => (Val a, w).

Definition bind {W A B} (m : M W A) (k : A -> M W B) : M W B :=
  fun w =>
    match m w with
    | (Val a, w') => k a w'
    | (Exc e, w') => (Exc e, w')
    | (Interrupted, w') => (Interrupted, w')
    | (Div, w') => (Div, w')
    end.

(** [raise Exception(msg)] *)
Definition raise {W A} (msg : string) : M W A := fun w => (Exc msg, w).

(** A [KeyboardInterrupt] that leaves the call it arrived in. *)
Definition interrupt {W A} : M W A := fun w => (Interrupted, w).

(** [try: m except Exception as e: h e]; a [KeyboardInterrupt] passes. *)
Definition try_except {W A} (m : M W A) (h : string -> M W A) : M W A :=
  fun w =>
    match m w with
    | (Exc e, w') => h e w'
    | r => r
    end.

Definition diverge {W A} : M W A := fun w => (Div, w).

(** Lifting of a world operation. *)
Definition call {W A} (f : W -> A * W) : M W A :=
  fun w => let (a, w') := f w in (Val a, w').

Definition read {W A} (f : W -> A) : M W A := fun w => (Val (f w), w).

(** [time.sleep(d)], which raises [ValueError] for a negative [d]. *)
Definition sleep {W} `{Env W} (d : Z) : M W unit :=
  fun w =>
    if d <? 0 then (Exc "ValueError: sleep length must be non-negative", w)
    else (Val tt, time_sleep d w).

Declare Scope monad_scope.
Delimit Scope monad_scope with monad.
Notation "x <- m ;; k" := (bind m (fun x => k))
  (at level 61, m at next level, right associativity) : monad_scope.
Notation "' pat <- m ;; k" := (bind m (fun x => match x with pat => k end))
  (at level 61, pat pattern, m at next level, right associativity) : monad_scope.
Notation "m ;; k" := (bind m (fun _ => k))
  (at level 61, right associativity) : monad_scope.
Local Open Scope monad_scope.

(** The option monad, for the body of a [try] whose handlers all return the
    same value: [None] is "some exception was raised". *)
Definition obind {A B} (o : option A) (k : A -> option B) : option B :=
  match o with Some a => k a | None => None end.
Notation "x <-? o ;; k" := (obind o (fun x => k))
  (at level 61, o at next level, right associativity) : monad_scope.
Notation "' pat <-? o ;; k" := (obind o (fun x => match x with pat => k end))
  (at level 61, pat pattern, o at next level, right associativity) : monad_scope.

(** ** The methods of [KubernetesOrchestrator] *)

Inductive LogLevel := DEBUG | INFO | WARNING | ERROR.

(** [_validateNodeCount], with the records it hands to [logger]. *)
Definition _validateNodeCount (nodeCount : Z) : Z * list (LogLevel * string) :=
  if nodeCount <? MIN_NODE_COUNT then
    (MIN_NODE_COUNT,
     [(WARNING, "node_count " ++ Py.str_of_int nodeCount ++ " below minimum, using "
                ++ Py.str_of_int MIN_NODE_COUNT)])
  else if nodeCount >? MAX_NODE_COUNT then
    (MAX_NODE_COUNT,
     [(WARNING, "node_count " ++ Py.str_of_int nodeCount ++ " above maximum, using "
                ++ Py.str_of_int MAX_NODE_COUNT)])
  else (nodeCount, []).

Definition _isPodReady (pod : Pod) : bool :=
  if negb (String.eqb (status_phase pod) "Running") then false
  else match status_container_statuses pod with
       | None => false
       | Some [] => false
       | Some statuses => forallb ready statuses
       end.

(** Truth value of an [Optional[str]]. *)
Definition name_truthy (o : option string) : bool :=
  match o with Some s => Py.nonempty s | None => false end.

(** The value every failure path of [_checkChromeNodeStatus] returns. *)
Definition status_unavailable : NodeStatus :=
  {| available := JBool false; status_ready := JBool false; sessions := 0; maxSessions := 0 |}.

(** The inner loop [for slot in slots] of [_checkChromeNodeStatus]. *)
Fixpoint count_slots (slots : list json) (activeSessions : Z) : option Z :=
  match slots with
  | [] => Some activeSessions
  | slot :: rest =>
      session <-? Json.get slot "session" JNull;;
      count_slots rest (if Json.is_not_None session then activeSessions + 1
                        else activeSessions)
  end.

(** The outer loop [for node in nodes]; it carries [activeSessions] and
    [maxSessions]. *)
Fixpoint scan_nodes (nodes : list json) (activeSessions maxSessions : Z)
  : option (Z * Z) :=
  match nodes with
  | [] => Some (activeSessions, maxSessions)
  | node :: rest =>
      slots <-? Json.get node "slots" (JArr []);;
      n <-? Json.len slots;;
      l <-? Json.iter slots;;
      a <-? count_slots l activeSessions;;
      scan_nodes rest a n
  end.

(** What [_checkChromeNodeStatus] makes of a decoded status body. *)
Definition status_of_body (data : json) : option NodeStatus :=
  value <-? Json.get data "value" (JObj []);;
  ready_ <-? Json.get value "ready" (JBool false);;
  nodes <-? Json.get value "nodes" (JArr []);;
  l <-? Json.iter nodes;;
  '(activeSessions, maxS) <-? scan_nodes l 0 1;;
  Some {| available := Json.and_ ready_ (JBool (activeSessions <? maxS));
          status_ready := ready_;
          sessions := activeSessions;
          maxSessions := maxS |}.

(** A stripped line of the collection output that counts as a test id. *)
Definition is_test_id (line : string) : bool :=
  Py.nonempty line && Py.contains "::" line
  && negb (existsb (fun p => Py.startswith p line) ["="; "-"; " "]).

(** The list [testCases] that [passTestCases] builds from the output. *)
Definition collect_lines (stdout : string) : list string :=
  filter is_test_id (map Py.strip (Py.split Py.newline stdout)).

(** The test of [executeTests] on the text of the output. *)
Definition output_says_passed (stdout : string) : bool :=
  Py.contains "passed" (Py.lower stdout) && negb (Py.contains "failed" (Py.lower stdout)).

(** [nodeCount or DEFAULT_NODE_COUNT] *)
Definition effectiveNodeCount (nodeCount : option Z) : Z :=
  match nodeCount with
  | Some n => if n =? 0 then DEFAULT_NODE_COUNT else n
  | None => DEFAULT_NODE_COUNT
  end.

(** The entries [getPodStatus] builds for a pod. *)
Record PodEntry := {
  entry_name : string;
  entry_phase : string;
  entry_ready : bool;
  entry_ip : option string
}.

Record PodStatus := {
  status_namespace : string;
  testCaseController : list PodEntry;
  chromeNodes : list PodEntry
}.

Section Orchestrator.

Context {W : Type} {E : Env W}.
Variable cfg : Config.

Definition _runCommand (command : list string) : M W (Z * string * string) :=
  r <- call (subprocess_run command);;
  match r with
  | RunCompleted returnCode stdout stderr => ret (returnCode, stdout, stderr)
  | RunTimeoutExpired => ret (1, "", "Command timed out")
  | RunRaised msg => ret (1, "", msg)
  end.

(** [_getPodsByLabel]: its handler names [ApiException] only, so that any
    other exception of the listing leaves the method. *)
Definition _getPodsByLabel (labelSelector : string) : M W (list Pod) :=
  r <- call (list_namespaced_pod (NAMESPACE cfg) labelSelector);;
  match r with
  | Listed items => ret items
  | ListApiException => ret []
  | ListRaised msg => raise msg
  | ListInterrupted => interrupt
  end.

Definition _getPodName (labelSelector : string) : M W (option string) :=
  pods <- _getPodsByLabel labelSelector;;
  match pods with
  | pod :: _ => ret (Some (metadata_name pod))
  | [] => ret None
  end.

Definition _getChromeNodeDns (podName : string) : string :=
  podName ++ "." ++ CHROME_NODE_HEADLESS_SVC cfg ++ "." ++ NAMESPACE cfg
          ++ ".svc.cluster.local".

Definition _execInPod (podName : string) (command : list string)
           (container : option string) (envVars : option (list (string * string)))
  : M W (Z * string * string) :=
  let execCommand :=
    match envVars with
    | Some ((_ :: _) as items) =>
        let envPrefix := Py.join " " (map (fun kv => fst kv ++ "=" ++ snd kv) items) in
        ["/bin/sh"; "-c"; envPrefix ++ " " ++ Py.join " " command]
    | _ => ["/bin/sh"; "-c"; Py.join " " command]
    end in
  r <- call (pod_exec podName (NAMESPACE cfg) execCommand
                      (if name_truthy container then container else None));;
  match r with
  | ExecCompleted returnCode stdout stderr => ret (returnCode, stdout, stderr)
  | ExecRaised msg => ret (1, "", msg)
  end.

Definition _checkChromeNodeStatus (dnsName controllerPodName : string) (port : Z)
  : M W NodeStatus :=
  let url := "http://" ++ dnsName ++ ":" ++ Py.str_of_int port ++ "/status" in
  let curlCommand := ["curl"; "-s"; "--connect-timeout"; "3"; url] in
  '(returnCode, stdout, stderr) <- _execInPod controllerPodName curlCommand None None;;
  if negb (returnCode =? 0) || negb (Py.nonempty (Py.strip stdout)) then
    ret status_unavailable
  else
    match obind (json_loads stdout) status_of_body with
    | Some status => ret status
    | None => ret status_unavailable
    end.

(** The loop [for pod in pods] of [_getAvailableChromeNode]. *)
Fixpoint select_loop (controllerPodName : string) (pods : list Pod)
  : M W (option string) :=
  match pods with
  | [] => ret None
  | pod :: rest =>
      if negb (_isPodReady pod) then select_loop controllerPodName rest
      else
        let dnsName := _getChromeNodeDns (metadata_name pod) in
        status <- _checkChromeNodeStatus dnsName controllerPodName 4444;;
        if Json.truthy (available status) then ret (Some dnsName)
        else select_loop controllerPodName rest
  end.

Definition _getAvailableChromeNode : M W (option string) :=
  controllerPodName <- _getPodName (CONTROLLER_POD_LABEL cfg);;
  match controllerPodName with
  | Some name =>
      if negb (Py.nonempty name) then ret None
      else
        pods <- _getPodsByLabel (CHROME_NODE_POD_LABEL cfg);;
        match pods with
        | [] => ret None
        | _ => select_loop name pods
        end
  | None => ret None
  end.

(** The [--set] arguments [deploy] appends for the validated count. *)
Definition helm_set_args (nodeCount : Z) : list string :=
  ["--set"; "chromeNode.replicaCount=" ++ Py.str_of_int nodeCount;
   "--set"; "chromeNode.autoscaling.minReplicas=" ++ Py.str_of_int nodeCount;
   "--set"; "chromeNode.autoscaling.maxReplicas=" ++ Py.str_of_int MAX_NODE_COUNT;
   "--wait";
   "--timeout"; "5m"].

(** The list [helmCommand] of [deploy], from the validated count and the
    answer of [os.path.exists] for the values file. *)
Definition helmCommand (helmChartPath effectiveValuesFile : string)
           (valuesExists : bool) (nodeCount : Z) : list string :=
  ["helm"; "upgrade"; "--install"; HELM_RELEASE_NAME cfg; helmChartPath;
   "--namespace"; NAMESPACE cfg; "--create-namespace"]
  ++ (if Py.nonempty effectiveValuesFile && valuesExists
      then ["-f"; effectiveValuesFile] else [])
  ++ helm_set_args nodeCount.

(** The loop [for attempt in range(1, MAX_RETRIES + 1)] of [deploy]. *)
Fixpoint deploy_loop (command : list string) (attempts : list Z) : M W bool :=
  match attempts with
  | [] => ret false
  | attempt :: rest =>
      '(returnCode, stdout, stderr) <- _runCommand command;;
      if returnCode =? 0 then ret true
      else
        (if attempt <? MAX_RETRIES cfg then sleep (RETRY_DELAY cfg) else ret tt);;
        deploy_loop command rest
  end.

Definition deploy (helmChartPath : string) (nodeCount : Z) (valuesFile : option string)
  : M W bool :=
  let nodeCount := fst (_validateNodeCount nodeCount) in
  let effectiveValuesFile :=
    if name_truthy valuesFile
    then match valuesFile with Some f => f | None => HELM_VALUES_FILE cfg end
    else HELM_VALUES_FILE cfg in
  chartExists <- read (os_path_exists helmChartPath);;
  if negb chartExists then ret false
  else
    valuesExists <- read (os_path_exists effectiveValuesFile);;
    deploy_loop (helmCommand helmChartPath effectiveValuesFile valuesExists nodeCount)
                (Py.range 1 (MAX_RETRIES cfg + 1)).

(** [sum(1 for pod in pods if self._isPodReady(pod))] *)
Definition readyCount (pods : list Pod) : Z :=
  Z.of_nat (List.length (filter _isPodReady pods)).

(** The [while] loop of [checkReadiness]; [fuel] bounds the number of
    times its condition is evaluated. *)
Fixpoint checkReadiness_loop (fuel : nat) (labelSelector : string) (minReady : Z)
         (startTime : Z) : M W bool :=
  match fuel with
  | O => diverge
  | S fuel' =>
      now <- read time_time;;
      if now - startTime <? READINESS_TIMEOUT cfg then
        pods <- _getPodsByLabel labelSelector;;
        if readyCount pods >=? minReady then ret true
        else
          sleep (READINESS_CHECK_INTERVAL cfg);;
          checkReadiness_loop fuel' labelSelector minReady startTime
      else ret false
  end.

Definition checkReadiness (fuel : nat) (labelSelector : string) (minReady : Z)
  : M W bool :=
  startTime <- read time_time;;
  checkReadiness_loop fuel labelSelector minReady startTime.

Definition collect_command : list string :=
  ["python"; "-m"; "pytest"; "tests/"; "--collect-only"; "-q"].

(** The loop of [passTestCases]. *)
Fixpoint passTestCases_loop (attempts : list Z) : M W (list string) :=
  match attempts with
  | [] => ret []
  | attempt :: rest =>
      controllerPodName <- _getPodName (CONTROLLER_POD_LABEL cfg);;
      match (if name_truthy controllerPodName then controllerPodName else None) with
      | None =>
          if attempt <? MAX_RETRIES cfg then
            sleep (RETRY_DELAY cfg);;
            passTestCases_loop rest
          else ret []
      | Some name =>
          '(returnCode, stdout, stderr) <- _execInPod name collect_command None None;;
          match collect_lines stdout with
          | [] =>
              (if attempt <? MAX_RETRIES cfg then sleep (RETRY_DELAY cfg) else ret tt);;
              passTestCases_loop rest
          | testCases => ret testCases
          end
      end
  end.

Definition passTestCases : M W (list string) :=
  passTestCases_loop (Py.range 1 (MAX_RETRIES cfg + 1)).

(** The list [command] of [executeTests]. *)
Definition test_command (testPath : string) (specificTests : option (list string))
  : list string :=
  match specificTests with
  | Some ((_ :: _) as tests) =>
      ["python"; "-m"; "pytest"] ++ tests ++ ["-v"; "--tb=short"; "-p"; "no:cacheprovider"]
  | _ => ["python"; "-m"; "pytest"; testPath; "-v"; "--tb=short"; "-p"; "no:cacheprovider"]
  end.

(** The loop of [executeTests]; [last] is the pair [(stdout, stderr)] the
    previous pass bound, which the statement after the loop reads. *)
Fixpoint executeTests_loop (controllerPodName : string) (command : list string)
         (envVars : list (string * string)) (attempts : list Z)
         (last : option (string * string)) : M W (bool * string) :=
  match attempts with
  | [] =>
      match last with
      | Some (stdout, stderr) => ret (false, if Py.nonempty stdout then stdout else stderr)
      | None => raise "UnboundLocalError: stdout"
      end
  | attempt :: rest =>
      '(returnCode, stdout, stderr) <-
        _execInPod controllerPodName command None (Some envVars);;
      if returnCode =? 0 then ret (true, stdout)
      else if output_says_passed stdout then ret (true, stdout)
      else
        (if attempt <? MAX_RETRIES cfg then sleep (RETRY_DELAY cfg) else ret tt);;
        executeTests_loop controllerPodName command envVars rest (Some (stdout, stderr))
  end.

Definition executeTests (testPath : string) (specificTests : option (list string))
  : M W (bool * string) :=
  controllerPodName <- _getPodName (CONTROLLER_POD_LABEL cfg);;
  match (if name_truthy controllerPodName then controllerPodName else None) with
  | None => ret (false, "Test Controller Pod not found")
  | Some name =>
      availableNode <- _getAvailableChromeNode;;
      match (if name_truthy availableNode then availableNode else None) with
      | None => ret (false, "No available Chrome Node")
      | Some node =>
          let remoteUrl := "http://" ++ node ++ ":4444" in
          let envVars := [("HEADLESS", "true"); ("REMOTE_URL", remoteUrl)] in
          executeTests_loop name (test_command testPath specificTests) envVars
                            (Py.range 1 (MAX_RETRIES cfg + 1)) None
      end
  end.

(** One pass of the [try] block of [handleErrors]: [Some] is the value
    returned from inside it, an exception is one of the two [raise]
    statements or one of the callable. *)
Definition handleErrors_try (operation : string) (operationFunc : M W PyVal)
  : M W (bool * PyVal) :=
  result_ <- operationFunc;;
  match result_ with
  | VBool b =>
      if b then ret (true, result_)
      else raise (operation ++ " returned False")
  | VTuple (first :: _) =>
      if py_truthy first then ret (true, result_)
      else raise (operation ++ " returned failure status")
  | _ => ret (true, result_)
  end.

Fixpoint handleErrors_loop (operation : string) (operationFunc : M W PyVal)
         (attempts : list Z) : M W (bool * PyVal) :=
  match attempts with
  | [] => ret (false, VNone)
  | attempt :: rest =>
      r <- try_except
             (x <- handleErrors_try operation operationFunc;; ret (Some x))
             (fun e =>
                (if attempt <? MAX_RETRIES cfg then sleep (RETRY_DELAY cfg) else ret tt);;
                ret None);;
      match r with
      | Some x => ret x
      | None => handleErrors_loop operation operationFunc rest
      end
  end.

Definition handleErrors (operation : string) (operationFunc : M W PyVal)
  : M W (bool * PyVal) :=
  handleErrors_loop operation operationFunc (Py.range 1 (MAX_RETRIES cfg + 1)).

Definition pod_entry (pod : Pod) : PodEntry :=
  {| entry_name := metadata_name pod;
     entry_phase := status_phase pod;
     entry_ready := _isPodReady pod;
     entry_ip := status_pod_ip pod |}.

Definition getPodStatus : M W PodStatus :=
  controllerPods <- _getPodsByLabel (CONTROLLER_POD_LABEL cfg);;
  chromePods <- _getPodsByLabel (CHROME_NODE_POD_LABEL cfg);;
  ret {| status_namespace := NAMESPACE cfg;
         testCaseController := map pod_entry controllerPods;
         chromeNodes := map pod_entry chromePods |}.

(** Step 1 of [run]: the deployment through [handleErrors], or nothing
    when it is skipped; the value is [success]. *)
Definition run_deploy (helmChartPath : option string) (count : Z) (skipDeploy : bool)
           (valuesFile : option string) : M W bool :=
  if negb skipDeploy && name_truthy helmChartPath then
    match helmChartPath with
    | Some path =>
        '(success, _) <- handleErrors "deploy"
                           (b <- deploy path count valuesFile;; ret (VBool b));;
        ret success
    | None => ret true
    end
  else ret true.

Definition run (fuel : nat) (helmChartPath : option string) (nodeCount : option Z)
           (skipDeploy : bool) (valuesFile : option string) : M W bool :=
  let count := effectiveNodeCount nodeCount in
  deployed <- run_deploy helmChartPath count skipDeploy valuesFile;;
  if negb deployed then ret false
  else
    workers <- checkReadiness fuel (CHROME_NODE_POD_LABEL cfg) count;;
    if negb workers then ret false
    else
      controller <- checkReadiness fuel (CONTROLLER_POD_LABEL cfg) 1;;
      if negb controller then ret false
      else
        status <- getPodStatus;;
        testCases <- passTestCases;;
        '(success, _) <- executeTests "tests/" None;;
        ret success.

End Orchestrator.

(** ** The command line: [__init__], [_loadKubeConfig] and [main] *)

(** The namespace [parseArgs] returns. *)
Record Args := {
  arg_kubeconfig : option string;
  arg_deploy : bool;
  arg_helm_chart_path : string;
  arg_values_file : string;
  arg_node_count : Z;
  arg_skip_deploy : bool;
  arg_status : bool;
  arg_check_readiness : bool;
  arg_pass_test_cases : bool;
  arg_execute_tests : bool;
  arg_verbose : bool
}.

(** What [parser.parse_args()] makes of a command line: the namespace, or
    the exit of the process that argparse performs itself, with status 2
    after the message for a command line it rejects and with status 0 after
    the help text. *)
Inductive Parsed :=
| ParsedArgs (args : Args)
| ParserExit (status : Z).

(** Outcome of a loader of the kubernetes client: loaded, the
    [ConfigException] it raises when there is nothing to load, or another
    exception. *)
Inductive ConfigResult :=
| ConfigLoaded
| ConfigException (msg : string)
| ConfigRaised (msg : string).

Section Entry.

Context {W : Type} {E : Env W}.
Variable cfg : Config.

(** The setting [KUBECONFIG], the two loaders, [config.load_kube_config]
    (with the file it is given, if any) and [config.load_incluster_config],
    and the parser that [parseArgs] declares, applied to a command line. *)
Variable KUBECONFIG : option string.
Variable load_kube_config : option string -> W -> ConfigResult * W.
Variable load_incluster_config : W -> ConfigResult * W.
Variable parse_args : list string -> Parsed.

Definition raise_unless_loaded (r : ConfigResult) : M W unit :=
  match r with
  | ConfigLoaded => ret tt
  | ConfigException msg => raise msg
  | ConfigRaised msg => raise msg
  end.

(** [_loadKubeConfig]: its handler logs and raises again, so that an
    exception of a loader leaves the method, except the [ConfigException] of
    the in-cluster loader, after which the default kubeconfig is tried. *)
Definition _loadKubeConfig (kubeConfig : option string) : M W unit :=
  if name_truthy kubeConfig then
    r <- call (load_kube_config kubeConfig);;
    raise_unless_loaded r
  else
    r <- call load_incluster_config;;
    match r with
    | ConfigLoaded => ret tt
    | ConfigException _ =>
        r' <- call (load_kube_config None);;
        raise_unless_loaded r'
    | ConfigRaised msg => raise msg
    end.

(** [KubernetesOrchestrator(kubeConfig)] *)
Definition __init__ (kubeConfig : option string) : M W unit :=
  _loadKubeConfig (if name_truthy kubeConfig then kubeConfig else KUBECONFIG).

(** [0 if success else 1] *)
Definition exit_code (success : bool) : Z := if success then 0 else 1.

(** [parseArgs()], for the command line [argv] of the process. *)
Definition parseArgs (argv : list string) : Parsed := parse_args argv.

(** The body of the [try] of [main]; its value is the argument of the
    [sys.exit] it ends with, which no handler of [main] catches. *)
Definition main_body (fuel : nat) (args : Args) : M W Z :=
  __init__ (arg_kubeconfig args);;
  if arg_status args then
    status <- getPodStatus cfg;;
    ret 0
  else if arg_deploy args then
    success <- deploy cfg (arg_helm_chart_path args) (arg_node_count args)
                      (Some (arg_values_file args));;
    ret (exit_code success)
  else if arg_check_readiness args then
    chromeReady <- checkReadiness cfg fuel (CHROME_NODE_POD_LABEL cfg) 1;;
    controllerReady <- checkReadiness cfg fuel (CONTROLLER_POD_LABEL cfg) 1;;
    ret (exit_code (chromeReady && controllerReady))
  else if arg_pass_test_cases args then
    testCases <- passTestCases cfg;;
    ret (exit_code (match testCases with [] => false | _ => true end))
  else if arg_execute_tests args then
    '(success, _) <- executeTests cfg "tests/" None;;
    ret (exit_code success)
  else
    success <- run cfg fuel (Some (arg_helm_chart_path args)) (Some (arg_node_count args))
                   (arg_skip_deploy args) (Some (arg_values_file args));;
    ret (exit_code success).

(** [main]: the exit status of the process.  An exit of the parser happens
    before the [try]; inside it, a [KeyboardInterrupt] ends the process with
    130 and an [Exception] with 1. *)
Definition main (fuel : nat) (argv : list string) : M W Z :=
  match parseArgs argv with
  | ParserExit status => ret status
  | ParsedArgs args =>
      fun w =>
        match main_body fuel args w with
        | (Val status, w') => (Val status, w')
        | (Interrupted, w') => (Val 130, w')
        | (Exc e, w') => (Val 1, w')
        | (Div, w') => (Div, w')
        end
  end.

End Entry.

(** A helm run that ended with code 0. *)
Definition run_ok (r : RunResult) : bool :=
  match r with
  | RunCompleted returnCode _ _ => returnCode =? 0
  | _ => false
  end.

(** [valuesFile or HELM_VALUES_FILE], as [deploy] computes it. *)
Definition effectiveValuesFile (cfg : Config) (valuesFile : option string) : string :=
  if name_truthy valuesFile
  then match valuesFile with Some f => f | None => HELM_VALUES_FILE cfg end
  else HELM_VALUES_FILE cfg.

(** ** Worlds to run the methods in *)

(** A scripted surrounding: the answer to a call is a function of its
    arguments and of how many calls of its kind came before; a listing takes
    [sc_list_cost] ticks of the clock and a sleep exactly the ticks asked. *)
Record Scenario := {
  sc_pods : string -> nat -> Listing;
  sc_exec : string -> list string -> nat -> ExecResult;
  sc_run : list string -> nat -> RunResult;
  sc_exists : string -> bool;
  sc_json : string -> option json;
  sc_list_cost : Z
}.

Record Counters := {
  clock : Z;
  n_list : nat;
  n_exec : nat;
  n_run : nat;
  n_sleep : nat
}.

Definition start_world : Counters :=
  {| clock := 0; n_list := 0; n_exec := 0; n_run := 0; n_sleep := 0 |}.

(** The world with the clock at [c] after [l] listings, [e] exec calls, [r]
    helm runs and [s] sleeps. *)
Definition world (c : Z) (l e r s : nat) : Counters :=
  {| clock := c; n_list := l; n_exec := e; n_run := r; n_sleep := s |}.

#[export] Instance scenario_env (s : Scenario) : Env Counters := {|
  list_namespaced_pod := fun _ selector w =>
    (sc_pods s selector (n_list w),
     {| clock := clock w + sc_list_cost s; n_list := S (n_list w); n_exec := n_exec w;
        n_run := n_run w; n_sleep := n_sleep w |});
  pod_exec := fun name _ command _ w =>
    (sc_exec s name command (n_exec w),
     {| clock := clock w; n_list := n_list w; n_exec := S (n_exec w);
        n_run := n_run w; n_sleep := n_sleep w |});
  subprocess_run := fun command w =>
    (sc_run s command (n_run w),
     {| clock := clock w; n_list := n_list w; n_exec := n_exec w;
        n_run := S (n_run w); n_sleep := n_sleep w |});
  os_path_exists := fun path _ => sc_exists s path;
  time_time := clock;
  time_sleep := fun d w =>
    {| clock := clock w + d; n_list := n_list w; n_exec := n_exec w;
       n_run := n_run w; n_sleep := S (n_sleep w) |};
  json_loads := sc_json s
|}.

(** A world that also counts the calls of one callable: [counted f] runs
    [f n] at its [n]-th call (counting from 0), and the operations of the
    surroundings leave the count alone. *)
Definition counting_env {W : Type} (E : Env W) : Env (W * nat) := {|
  list_namespaced_pod := fun ns selector wn =>
    let (r, w') := list_namespaced_pod ns selector (fst wn) in (r, (w', snd wn));
  pod_exec := fun name ns command container wn =>
    let (r, w') := pod_exec name ns command container (fst wn) in (r, (w', snd wn));
  subprocess_run := fun command wn =>
    let (r, w') := subprocess_run command (fst wn) in (r, (w', snd wn));
  os_path_exists := fun path wn => os_path_exists path (fst wn);
  time_time := fun wn => time_time (fst wn);
  time_sleep := fun d wn => (time_sleep d (fst wn), snd wn);
  json_loads := json_loads
|}.

Definition counted {W A : Type} (f : nat -> M W A) : M (W * nat) A :=
  fun wn => let (r, w') := f (snd wn) (fst wn) in (r, (w', S (snd wn))).

(** The cluster name of the worker pod chrome-node-[n] under the default
    settings, and the environment [executeTests] hands to the test command
    when it selected that worker. *)
Definition chrome_node_dns (n : string) : string :=
  "chrome-node-" ++ n ++ ".chrome-node-headless.insider-testops.svc.cluster.local".

Definition remote_env (n : string) : list (string * string) :=
  [("HEADLESS", "true"); ("REMOTE_URL", "http://" ++ chrome_node_dns n ++ ":4444")].

(** ** Notions the properties are stated with *)

(** The status body as the specification reads it: the worker sub-units
    under [value.nodes], the slots of each, a slot being occupied when its
    [session] is not null.  [occupied_slots] is the number of occupied slots
    summed over the body, [total_slots] the number of slots in the body. *)
Definition body_nodes (data : json) : list json :=
  match Json.get data "value" (JObj []) with
  | Some value =>
      match Json.get value "nodes" (JArr []) with
      | Some (JArr l) => l
      | _ => []
      end
  | None => []
  end.

Definition node_slots (node : json) : list json :=
  match Json.get node "slots" (JArr []) with
  | Some (JArr l) => l
  | _ => []
  end.

Definition slot_occupied (slot : json) : bool :=
  match Json.get slot "session" JNull with
  | Some session => Json.is_not_None session
  | None => false
  end.

Definition occupied_in (nodes : list json) : Z :=
  fold_right Z.add 0
    (map (fun node => Z.of_nat (List.length (filter slot_occupied (node_slots node)))) nodes).

Definition slots_in (nodes : list json) : Z :=
  fold_right Z.add 0 (map (fun node => Z.of_nat (List.length (node_slots node))) nodes).

Definition occupied_slots (data : json) : Z := occupied_in (body_nodes data).
Definition total_slots (data : json) : Z := slots_in (body_nodes data).

(** The command [_checkChromeNodeStatus] hands to the exec channel. *)
Definition probe_command (dnsName : string) (port : Z) : list string :=
  ["/bin/sh"; "-c";
   Py.join " " ["curl"; "-s"; "--connect-timeout"; "3";
                "http://" ++ dnsName ++ ":" ++ Py.str_of_int port ++ "/status"]].

(** A value with which the callable reports failure: [False], or a tuple
    whose first element is falsy. *)
Definition value_fails (v : PyVal) : bool :=
  match v with
  | VBool b => negb b
  | VTuple (first :: _) => negb (py_truthy first)
  | _ => false
  end.

(** A call of the callable fails when it returns such a value or raises,
    and succeeds when it returns any other value. *)
Definition call_fails (r : result PyVal) : Prop :=
  match r with
  | Val v => value_fails v = true
  | Exc _ => True
  | Interrupted => False
  | Div => False
  end.

Definition call_succeeds (r : result PyVal) : Prop :=
  match r with
  | Val v => value_fails v = false
  | _ => False
  end.

(** The first component of the pair [executeTests] returns, as
    [success, _ = self.executeTests()] reads it. *)
Definition success_of {W : Type} (r : result (bool * string) * W) : result bool * W :=
  match r with
  | (Val (success, _), w) => (Val success, w)
  | (Exc e, w) => (Exc e, w)
  | (Interrupted, w) => (Interrupted, w)
  | (Div, w) => (Div, w)
  end.

Section Notions.

Context {W : Type} {E : Env W}.
Variable cfg : Config.

(** The world after the pause that follows a failed attempt. *)
Definition after_failed_attempt (attempt : Z) (w : W) : W :=
  if attempt <? MAX_RETRIES cfg then time_sleep (RETRY_DELAY cfg) w else w.

(** A probe that did not yield a status: the exec channel raised, the
    command ended with a code other than 0 (a timeout of curl is one), it
    printed nothing, or its output did not decode to a body of the expected
    shape. *)
Definition probe_failed (r : ExecResult) : Prop :=
  match r with
  | ExecRaised _ => True
  | ExecCompleted returnCode stdout _ =>
      returnCode <> 0
      \/ Py.nonempty (Py.strip stdout) = false
      \/ json_loads stdout = None
      \/ (exists body, json_loads stdout = Some body /\ status_of_body body = None)
  end.

(** The candidates the loop passes over: a pod that is not cluster-ready,
    without a probe, or a ready pod whose probe says unavailable. *)
Inductive Skipped (controller : string) : list Pod -> W -> W -> Prop :=
| Skipped_nil w : Skipped controller [] w w
| Skipped_not_ready pod rest w w' :
    _isPodReady pod = false ->
    Skipped controller rest w w' ->
    Skipped controller (pod :: rest) w w'
| Skipped_unavailable pod rest w w1 w' st :
    _isPodReady pod = true ->
    _checkChromeNodeStatus cfg (_getChromeNodeDns cfg (metadata_name pod)) controller 4444 w
    = (Val st, w1) ->
    Json.truthy (available st) = false ->
    Skipped controller rest w1 w' ->
    Skipped controller (pod :: rest) w w'.

Section Polling.

Variable labelSelector : string.
Variable minReady : Z.

(** The listing made in world [w] answers: with the pods, or with the
    [ApiException] that [_getPodsByLabel] turns into an empty list. *)
Definition poll_answers (w : W) : bool :=
  match fst (list_namespaced_pod (NAMESPACE cfg) labelSelector w) with
  | Listed _ | ListApiException => true
  | ListRaised _ | ListInterrupted => false
  end.

(** The pods a poll made in world [w] finds ([ApiException] counts as no
    pod, and so does a poll that does not answer), the world the poll
    leaves, and the world in which the next poll is due: after the sleep of
    one interval. *)
Definition polled_pods (w : W) : list Pod :=
  match fst (list_namespaced_pod (NAMESPACE cfg) labelSelector w) with
  | Listed items => items
  | _ => []
  end.

Definition after_poll (w : W) : W :=
  snd (list_namespaced_pod (NAMESPACE cfg) labelSelector w).

(** The outcome [r] of a method is what the listing made in world [w]
    raised: an exception other than [ApiException], or an interrupt. *)
Definition raised_by_listing {A : Type} (w : W) (r : result A) : Prop :=
  match fst (list_namespaced_pod (NAMESPACE cfg) labelSelector w) with
  | ListRaised msg => r = Exc msg
  | ListInterrupted => r = Interrupted
  | _ => False
  end.

Definition next_poll (w : W) : W :=
  time_sleep (READINESS_CHECK_INTERVAL cfg) (after_poll w).

(** The world at the [n]-th polled instant, counting from 0, of a poller
    started in [w] that is never satisfied. *)
Fixpoint polled_instant (n : nat) (w : W) : W :=
  match n with
  | O => w
  | S k => polled_instant k (next_poll w)
  end.

(** The instant of [w] lies within the timeout window opened at
    [startTime]; the poll made in [w] finds enough ready pods. *)
Definition within_window (startTime : Z) (w : W) : bool :=
  time_time w - startTime <? READINESS_TIMEOUT cfg.

Definition enough_ready (w : W) : bool :=
  readyCount (polled_pods w) >=? minReady.

End Polling.

End Notions.

(** [keeps f m]: running [m] in any world leaves the counter [f] as it
    was. *)
Definition keeps {A : Type} (f : Counters -> nat) (m : M Counters A) : Prop :=
  forall w, f (snd (m w)) = f w.

(** ** Concrete clusters *)

(** The text of a JSON value, as a status endpoint prints it. *)
Definition double_quote : string := String (ascii_of_nat 34) EmptyString.

Definition quoted (s : string) : string := double_quote ++ s ++ double_quote.

Fixpoint render (j : json) : string :=
  match j with
  | JNull => "null"
  | JBool true => "true"
  | JBool false => "false"
  | JNum z => Py.str_of_int z
  | JStr s => quoted s
  | JArr l =>
      "[" ++ (fix elements (l : list json) : string :=
                match l with
                | [] => ""
                | x :: r =>
                    render x ++ match r with [] => "" | _ => ", " ++ elements r end
                end) l ++ "]"
  | JObj items =>
      "{" ++ (fix members (l : list (string * json)) : string :=
                match l with
                | [] => ""
                | (k, v) :: r =>
                    quoted k ++ ": " ++ render v
                    ++ match r with [] => "" | _ => ", " ++ members r end
                end) items ++ "}"
  end.

(** A decoder that knows the bodies of a scenario. *)
Definition decode_among (known : list json) (text : string) : option json :=
  find (fun j => String.eqb (render j) text) known.

(** A status body: readiness, and for each node its slots, [true] for a
    slot with a session. *)
Definition slot_json (busy : bool) : json :=
  JObj [("session", if busy then JObj [("sessionId", JStr "s1")] else JNull)].

Definition status_body (is_ready : bool) (nodes : list (list bool)) : json :=
  JObj [("value",
         JObj [("ready", JBool is_ready);
               ("nodes",
                JArr (map (fun slots => JObj [("slots", JArr (map slot_json slots))])
                          nodes))])].

Definition running_pod (name : string) : Pod :=
  {| metadata_name := name;
     status_phase := "Running";
     status_container_statuses := Some [{| ready := true |}];
     status_pod_ip := Some "10.1.0.7" |}.

Definition pending_pod (name : string) : Pod :=
  {| metadata_name := name;
     status_phase := "Pending";
     status_container_statuses := None;
     status_pod_ip := None |}.

Definition controller_pod : Pod := running_pod "test-case-controller-0".

(** A cluster with one controller pod and the given worker pods.  The
    status endpoint of the worker named [name] answers the body paired with
    [name] in [bodies], and a worker without a body refuses the connection;
    [collected n] and [tested n] are the results of the collection and of the
    test command when [n] exec calls came before; helm ends as [helm] says. *)
Definition cluster (workers : list Pod) (bodies : list (string * json))
           (collected tested : nat -> ExecResult) (helm : nat -> RunResult)
           (list_cost : Z) : Scenario :=
  {| sc_pods := fun selector _ =>
       if String.eqb selector "app=test-case-controller" then Listed [controller_pod]
       else if String.eqb selector "app=chrome-node" then Listed workers
       else Listed [];
     sc_exec := fun _ command n =>
       match command with
       | [_; _; line] =>
           if Py.contains "curl" line then
             match find (fun nb => Py.contains ("//" ++ fst nb ++ ".") line) bodies with
             | Some (_, body) => ExecCompleted 0 (render body) ""
             | None => ExecCompleted 7 "" "curl: (7) Failed to connect"
             end
           else if Py.contains "--collect-only" line then collected n
           else tested n
       | _ => ExecRaised "unexpected command"
       end;
     sc_run := fun _ n => helm n;
     sc_exists := fun _ => true;
     sc_json := decode_among (map snd bodies);
     sc_list_cost := list_cost |}.

Definition collects_two : nat -> ExecResult :=
  fun _ => ExecCompleted 0
             ("tests/test_insider.py::TestInsider::test_home" ++ String Py.newline
              "tests/test_insider.py::TestInsider::test_jobs" ++ String Py.newline
              "2 tests collected in 0.10s") "".

Definition collects_nothing : nat -> ExecResult :=
  fun _ => ExecCompleted 5 ("no tests ran in 0.01s" ++ String Py.newline "") "".

Definition tests_pass : nat -> ExecResult :=
  fun _ => ExecCompleted 0 "3 passed in 41.20s" "".

Definition helm_ok : nat -> RunResult :=
  fun _ => RunCompleted 0 "Release upgraded" "".

(** Three workers: one ready with its only slot taken, one ready with its
    only slot free, one not ready. *)
Definition three_workers : Scenario :=
  cluster [running_pod "chrome-node-0"; running_pod "chrome-node-1";
           pending_pod "chrome-node-2"]
          [("chrome-node-0", status_body true [[true]]);
           ("chrome-node-1", status_body true [[false]])]
          collects_two tests_pass helm_ok 0.

(** One ready worker whose status body lists no node. *)
Definition worker_without_nodes : Scenario :=
  cluster [running_pod "chrome-node-0"]
          [("chrome-node-0", status_body true [])]
          collects_two tests_pass helm_ok 0.

(** No worker at all, and a cluster API that takes 400 ticks to list. *)
Definition slow_api : Scenario :=
  cluster [] [] collects_two tests_pass helm_ok 400.

(** No worker at all, and listings that take no time. *)
Definition no_workers : Scenario :=
  cluster [] [] collects_two tests_pass helm_ok 0.

(** One free worker; the test command ends with code 1 and the given text. *)
Definition exit_one_with (text : string) : Scenario :=
  cluster [running_pod "chrome-node-0"]
          [("chrome-node-0", status_body true [[false]])]
          collects_two (fun _ => ExecCompleted 1 text "") helm_ok 0.

(** One free worker; the collection finds nothing, the tests pass. *)
Definition nothing_collected : Scenario :=
  cluster [running_pod "chrome-node-0"]
          [("chrome-node-0", status_body true [[false]])]
          collects_nothing tests_pass helm_ok 0.




(** Three workers, and an interrupt that arrives during the second
    listing. *)
Definition interrupted_listing : Scenario :=
  {| sc_pods := fun selector n =>
       match n with
       | 1%nat => ListInterrupted
       | _ => sc_pods three_workers selector n
       end;
     sc_exec := sc_exec three_workers;
     sc_run := sc_run three_workers;
     sc_exists := sc_exists three_workers;
     sc_json := sc_json three_workers;
     sc_list_cost := 0 |}.

(** A callable that returns [False], then raises, then returns a pair with
    a true first element. *)
Definition flaky_operation : nat -> M Counters PyVal :=
  fun n =>
    match n with
    | O => ret (VBool false)
    | S O => raise "connection reset"
    | _ => ret (VTuple [VBool true; VStr "deployed"])
    end.

(** A cluster without workers whose helm always ends with code 1. *)
Definition helm_fails : nat -> RunResult :=
  fun _ => RunCompleted 1 "" "Error: timed out waiting for the condition".

Definition helm_down : Scenario :=
  cluster [] [] collects_two tests_pass helm_fails 0.

(** The default settings with no attempt allowed. *)
Definition no_retry_config : Config := {|
  NAMESPACE := "insider-testops";
  CONTROLLER_POD_LABEL := "app=test-case-controller";
  CHROME_NODE_POD_LABEL := "app=chrome-node";
  CHROME_NODE_HEADLESS_SVC := "chrome-node-headless";
  HELM_RELEASE_NAME := "insider-testops";
  HELM_VALUES_FILE := "";
  READINESS_TIMEOUT := 300;
  READINESS_CHECK_INTERVAL := 5;
  MAX_RETRIES := 0;
  RETRY_DELAY := 10
|}.

(** A machine outside the cluster with a default kubeconfig. *)
Definition default_kubeconfig_only : option string -> Counters -> ConfigResult * Counters :=
  fun file w =>
    match file with
    | None => (ConfigLoaded, w)
    | Some _ => (ConfigRaised "No such file", w)
    end.

Definition not_in_cluster : Counters -> ConfigResult * Counters :=
  fun w => (ConfigException "Service host/port is not set.", w).

(** The command line [--status --deploy]. *)
Definition status_and_deploy_args : Args := {|
  arg_kubeconfig := None;
  arg_deploy := true;
  arg_helm_chart_path := "./helm/insider-testops";
  arg_values_file := "";
  arg_node_count := 1;
  arg_skip_deploy := false;
  arg_status := true;
  arg_check_readiness := false;
  arg_pass_test_cases := false;
  arg_execute_tests := false;
  arg_verbose := false
|}.

(** The command line [--status]. *)
Definition status_args : Args := {|
  arg_kubeconfig := None;
  arg_deploy := false;
  arg_helm_chart_path := "./helm/insider-testops";
  arg_values_file := "";
  arg_node_count := 1;
  arg_skip_deploy := false;
  arg_status := true;
  arg_check_readiness := false;
  arg_pass_test_cases := false;
  arg_execute_tests := false;
  arg_verbose := false
|}.

(** The parser on the command lines of the runs below: it knows
    [--status --deploy] and [--status]; any other stands for a command line
    that argparse rejects, which it does with status 2. *)
Definition parse_known (argv : list string) : Parsed :=
  if list_eq_dec string_dec argv ["--status"; "--deploy"]
  then ParsedArgs status_and_deploy_args
  else if list_eq_dec string_dec argv ["--status"]
       then ParsedArgs status_args
       else ParserExit 2.

(** ** Properties *)

Ltac munfold :=
  unfold bind, ret, call, read, sleep, raise, interrupt, try_except, diverge in *.

Lemma nonneg_ltb (d : Z) : 0 <= d -> (d <? 0) = false.
Proof. intros H. apply Z.ltb_ge. exact H. Qed.

(** *** Substrings *)

Lemma startswith_lower (p s : string) :
  Py.startswith p s = true -> Py.startswith (Py.lower p) (Py.lower s) = true.
Proof.
  revert s. induction p as [|a p IH]; intros s H; [reflexivity|].
  destruct s as [|b s]; [discriminate|]. simpl in *.
  apply andb_true_iff in H. destruct H as [Hab Hps].
  apply Ascii.eqb_eq in Hab. subst b.
  rewrite Ascii.eqb_refl. simpl. auto.
Qed.

Lemma startswith_trans (a b s : string) :
  Py.startswith a b = true -> Py.startswith b s = true -> Py.startswith a s = true.
Proof.
  revert b s. induction a as [|x a IH]; intros b s Hab Hbs; [reflexivity|].
  destruct b as [|y b]; [discriminate|].
  destruct s as [|z s]; [discriminate|]. simpl in *.
  apply andb_true_iff in Hab. destruct Hab as [Hxy Hab].
  apply andb_true_iff in Hbs. destruct Hbs as [Hyz Hbs].
  apply Ascii.eqb_eq in Hxy. subst y. rewrite Hyz. simpl. eauto.
Qed.

Lemma contains_tail (sub : string) (c : ascii) (t : string) :
  Py.contains sub t = true -> Py.contains sub (String c t) = true.
Proof.
  intros H. simpl. rewrite H. apply orb_true_r.
Qed.

Lemma contains_lower (sub s : string) :
  Py.contains sub s = true -> Py.contains (Py.lower sub) (Py.lower s) = true.
Proof.
  induction s as [|c t IH]; simpl; intros H.
  - rewrite orb_false_r in H. apply startswith_lower in H. simpl in H.
    rewrite H. reflexivity.
  - apply orb_true_iff in H. destruct H as [H|H].
    + apply startswith_lower in H. simpl in H. rewrite H. reflexivity.
    + rewrite (IH H). apply orb_true_r.
Qed.

Lemma contains_of_prefix (a b s : string) :
  Py.contains a b = true -> Py.startswith b s = true -> Py.contains a s = true.
Proof.
  revert s. induction b as [|y b IH]; intros s Hab Hbs.
  - simpl in Hab. rewrite orb_false_r in Hab.
    destruct a; [|discriminate]. destruct s; reflexivity.
  - destruct s as [|z s]; [discriminate|].
    simpl in Hbs. apply andb_true_iff in Hbs. destruct Hbs as [Hyz Hbs].
    cbn [Py.contains] in Hab. apply orb_true_iff in Hab. destruct Hab as [Hab|Hab].
    + cbn [Py.contains]. apply orb_true_iff. left.
      apply (startswith_trans a (String y b)); [exact Hab|].
      simpl. rewrite Hyz, Hbs. reflexivity.
    + apply contains_tail. eauto.
Qed.

Lemma contains_trans (a b s : string) :
  Py.contains a b = true -> Py.contains b s = true -> Py.contains a s = true.
Proof.
  intros Hab. induction s as [|c t IH]; intros Hbs.
  - simpl in Hbs. rewrite orb_false_r in Hbs. eapply contains_of_prefix; eauto.
  - cbn [Py.contains] in Hbs. apply orb_true_iff in Hbs. destruct Hbs as [Hbs|Hbs].
    + eapply contains_of_prefix; eauto.
    + apply contains_tail. auto.
Qed.

(** An output that has the text "Tests passed, 0 failed" fails the test of
    [executeTests] on the text. *)
Lemma zero_failed_is_not_passed (stdout : string) :
  Py.contains "Tests passed, 0 failed" stdout = true ->
  output_says_passed stdout = false.
Proof.
  intros H. unfold output_says_passed.
  apply contains_lower in H.
  assert (Hf : Py.contains "failed" (Py.lower "Tests passed, 0 failed") = true)
    by reflexivity.
  rewrite (contains_trans _ _ _ Hf H). apply andb_false_r.
Qed.

(** *** [_validateNodeCount] *)

Lemma validateNodeCount_value (n : Z) :
  fst (_validateNodeCount n) = Z.max MIN_NODE_COUNT (Z.min MAX_NODE_COUNT n).
Proof.
  unfold _validateNodeCount, MIN_NODE_COUNT, MAX_NODE_COUNT.
  destruct (n <? 1) eqn:Hlo; [apply Z.ltb_lt in Hlo; simpl; lia|].
  apply Z.ltb_ge in Hlo.
  destruct (n >? 5) eqn:Hhi; simpl.
  - apply Z.gtb_lt in Hhi. lia.
  - rewrite Z.gtb_ltb in Hhi. apply Z.ltb_ge in Hhi. lia.
Qed.

Lemma validateNodeCount_idempotent (n : Z) :
  fst (_validateNodeCount (fst (_validateNodeCount n))) = fst (_validateNodeCount n).
Proof.
  rewrite !validateNodeCount_value. unfold MIN_NODE_COUNT, MAX_NODE_COUNT. lia.
Qed.

Section DeployProperties.

Context {W : Type} {E : Env W}.
Variable cfg : Config.

Lemma deploy_uses_validated (helmChartPath : string) (n : Z) (valuesFile : option string) :
  deploy cfg helmChartPath n valuesFile
  = deploy cfg helmChartPath (fst (_validateNodeCount n)) valuesFile.
Proof.
  unfold deploy. rewrite validateNodeCount_idempotent. reflexivity.
Qed.

(** C9: the count [_validateNodeCount] returns lies in [1, 5]; it is the
    nearest bound for a request outside the range, where the one warning
    record is the only sign of the change, and the request itself, without a
    record, inside the range; [deploy] runs as it does for the validated
    count, which is the one its helm command carries. *)
Theorem validateNodeCount_clamps (n : Z) :
  let v := fst (_validateNodeCount n) in
  let records := snd (_validateNodeCount n) in
  (MIN_NODE_COUNT <= v <= MAX_NODE_COUNT)
  /\ (n < MIN_NODE_COUNT ->
      v = MIN_NODE_COUNT /\ exists msg, records = [(WARNING, msg)])
  /\ (n > MAX_NODE_COUNT ->
      v = MAX_NODE_COUNT /\ exists msg, records = [(WARNING, msg)])
  /\ (MIN_NODE_COUNT <= n <= MAX_NODE_COUNT -> v = n /\ records = [])
  /\ (forall path valuesFile,
         deploy cfg path n valuesFile = deploy cfg path v valuesFile)
  /\ (forall path valuesFile valuesExists,
         In ("chromeNode.replicaCount=" ++ Py.str_of_int v)
            (helmCommand cfg path valuesFile valuesExists v)).
Proof.
  cbv zeta. split; [|split; [|split; [|split; [|split]]]].
  - rewrite validateNodeCount_value. unfold MIN_NODE_COUNT, MAX_NODE_COUNT. lia.
  - intros Hlo. unfold _validateNodeCount.
    apply Z.ltb_lt in Hlo. rewrite Hlo. simpl. split; eauto.
  - intros Hhi. unfold _validateNodeCount, MIN_NODE_COUNT, MAX_NODE_COUNT in *.
    destruct (n <? 1) eqn:Hlo; [apply Z.ltb_lt in Hlo; lia|].
    destruct (n >? 5) eqn:Hgt; [simpl; split; eauto|].
    rewrite Z.gtb_ltb in Hgt. apply Z.ltb_ge in Hgt. lia.
  - intros [Hlo Hhi]. unfold _validateNodeCount, MIN_NODE_COUNT, MAX_NODE_COUNT in *.
    destruct (n <? 1) eqn:H1; [apply Z.ltb_lt in H1; lia|].
    destruct (n >? 5) eqn:H5; [apply Z.gtb_lt in H5; lia|].
    simpl. split; reflexivity.
  - intros. apply deploy_uses_validated.
  - intros. unfold helmCommand. apply in_or_app. right. apply in_or_app. right.
    unfold helm_set_args. simpl. right. left. reflexivity.
Qed.

End DeployProperties.

(** *** The numbering of the attempts *)

Lemma range_cons (lo hi : Z) :
  lo < hi -> Py.range lo hi = lo :: Py.range (lo + 1) hi.
Proof.
  intros H. unfold Py.range.
  replace (Z.to_nat (hi - lo)) with (S (Z.to_nat (hi - (lo + 1)))) by lia.
  cbn [seq map]. f_equal; [lia|].
  rewrite <- seq_shift, map_map. apply map_ext. intros i. lia.
Qed.

Lemma range_nil (lo hi : Z) : hi <= lo -> Py.range lo hi = [].
Proof.
  intros H. unfold Py.range. replace (Z.to_nat (hi - lo)) with 0%nat by lia. reflexivity.
Qed.

(** *** The retry loop of [deploy] *)

Section DeployLoop.

Context {W : Type} {E : Env W}.
Variable cfg : Config.
Hypothesis delay_nonneg : 0 <= RETRY_DELAY cfg.

Lemma deploy_loop_step command attempt rest (w w1 : W) r :
  subprocess_run command w = (r, w1) ->
  deploy_loop cfg command (attempt :: rest) w
  = if run_ok r then (Val true, w1)
    else deploy_loop cfg command rest (after_failed_attempt cfg attempt w1).
Proof.
  intros Hrun. cbn [deploy_loop]. unfold _runCommand, after_failed_attempt. munfold.
  rewrite Hrun, (nonneg_ltb _ delay_nonneg).
  destruct r as [rc out err| |msg]; cbn [run_ok]; cbn;
    try (destruct (rc =? 0); [reflexivity|]);
    destruct (attempt <? MAX_RETRIES cfg); reflexivity.
Qed.




End DeployLoop.

(** *** [_execInPod] and the retry loop of [executeTests] *)

Section ExecuteProperties.

Context {W : Type} {E : Env W}.
Variable cfg : Config.
Hypothesis delay_nonneg : 0 <= RETRY_DELAY cfg.

(** [_execInPod] swallows every fault of the exec channel. *)
Lemma execInPod_returns name command container envVars (w : W) :
  exists returnCode stdout stderr w',
    _execInPod cfg name command container envVars w
    = (Val (returnCode, stdout, stderr), w').
Proof.
  unfold _execInPod. munfold.
  destruct (pod_exec _ _ _ _ w) as [[rc out err|msg] w']; eauto.
Qed.

Lemma executeTests_loop_step name command envVars attempt rest last (w w' : W)
      returnCode stdout stderr :
  _execInPod cfg name command None (Some envVars) w
  = (Val (returnCode, stdout, stderr), w') ->
  executeTests_loop cfg name command envVars (attempt :: rest) last w
  = if (returnCode =? 0) || output_says_passed stdout
    then (Val (true, stdout), w')
    else executeTests_loop cfg name command envVars rest (Some (stdout, stderr))
                           (after_failed_attempt cfg attempt w').
Proof.
  intros Hexec. simpl. unfold bind at 1. rewrite Hexec.
  destruct (returnCode =? 0); simpl; [reflexivity|].
  destruct (output_says_passed stdout); [reflexivity|].
  unfold after_failed_attempt. munfold. rewrite (nonneg_ltb _ delay_nonneg).
  destruct (attempt <? MAX_RETRIES cfg); reflexivity.
Qed.

(** C5: on an attempt whose remote command ended with [returnCode] and
    [stdout], [executeTests] returns success with that output when the code
    is zero or the lower-cased output has "passed" and has no "failed", and
    only then: otherwise the attempt has failed, nothing is returned and the
    loop goes on to the remaining attempts, after a pause of [RETRY_DELAY]
    when the attempt was not the last one; when none is left the result is
    failure. *)
Theorem executeTests_attempt_outcome name command envVars attempt rest last (w w' : W)
        returnCode stdout stderr :
  _execInPod cfg name command None (Some envVars) w
  = (Val (returnCode, stdout, stderr), w') ->
  let loop := executeTests_loop cfg name command envVars in
  let passes :=
    returnCode = 0
    \/ (Py.contains "passed" (Py.lower stdout) = true
        /\ Py.contains "failed" (Py.lower stdout) = false) in
  (passes -> loop (attempt :: rest) last w = (Val (true, stdout), w'))
  /\ (~ passes ->
      loop (attempt :: rest) last w
      = loop rest (Some (stdout, stderr))
             (if attempt <? MAX_RETRIES cfg then time_sleep (RETRY_DELAY cfg) w' else w'))
  /\ (forall w0, loop [] (Some (stdout, stderr)) w0
                 = (Val (false, if Py.nonempty stdout then stdout else stderr), w0)).
Proof.
  intros Hexec loop passes. subst loop.
  rewrite (executeTests_loop_step _ _ _ attempt rest last _ _ _ _ _ Hexec).
  assert (Hdec : (returnCode =? 0) || output_says_passed stdout = true <-> passes).
  { subst passes. unfold output_says_passed.
    rewrite orb_true_iff, andb_true_iff, negb_true_iff, Z.eqb_eq. tauto. }
  split; [|split].
  - intros Hp. apply Hdec in Hp. rewrite Hp. reflexivity.
  - intros Hnp.
    destruct ((returnCode =? 0) || output_says_passed stdout) eqn:Hb.
    + exfalso. apply Hnp, Hdec. reflexivity.
    + reflexivity.
  - intros w0. reflexivity.
Qed.

(** C6, as the code has it: when the command ends with a code other than
    zero and its lower-cased output has "passed" and no "failed", the attempt
    returns success with the output, through the test on the text and not
    through the test on the code; an output with the text
    "Tests passed, 0 failed" has "failed" in it, so that with a code other
    than zero the attempt fails and the loop goes on to the next one. *)
Theorem executeTests_text_fallback name command envVars attempt rest last (w w' : W)
        returnCode stdout stderr :
  _execInPod cfg name command None (Some envVars) w
  = (Val (returnCode, stdout, stderr), w') ->
  returnCode <> 0 ->
  let loop := executeTests_loop cfg name command envVars in
  (returnCode =? 0) = false
  /\ (Py.contains "passed" (Py.lower stdout) = true ->
      Py.contains "failed" (Py.lower stdout) = false ->
      output_says_passed stdout = true
      /\ loop (attempt :: rest) last w = (Val (true, stdout), w'))
  /\ (Py.contains "Tests passed, 0 failed" stdout = true ->
      output_says_passed stdout = false
      /\ loop (attempt :: rest) last w
         = loop rest (Some (stdout, stderr)) (after_failed_attempt cfg attempt w')).
Proof.
  intros Hexec Hrc loop. subst loop.
  rewrite (executeTests_loop_step _ _ _ attempt rest last _ _ _ _ _ Hexec).
  apply Z.eqb_neq in Hrc. rewrite Hrc. simpl.
  split; [reflexivity|]. split.
  - intros Hp Hf. unfold output_says_passed. rewrite Hp, Hf. split; reflexivity.
  - intros Hz. apply zero_failed_is_not_passed in Hz. rewrite Hz. split; reflexivity.
Qed.

End ExecuteProperties.

(** *** The status body and [_checkChromeNodeStatus] *)

Lemma occupied_in_bounds (nodes : list json) : 0 <= occupied_in nodes <= slots_in nodes.
Proof.
  unfold occupied_in, slots_in.
  induction nodes as [|node rest IH]; cbn [map fold_right]; [lia|].
  pose proof (filter_length_le slot_occupied (node_slots node)). lia.
Qed.

Lemma count_slots_spec (l : list json) (a a' : Z) :
  count_slots l a = Some a' ->
  a' = a + Z.of_nat (List.length (filter slot_occupied l)).
Proof.
  revert a. induction l as [|slot rest IH]; simpl; intros a H.
  - inversion H. lia.
  - unfold obind in H. unfold slot_occupied at 1.
    destruct (Json.get slot "session" JNull) as [session|]; [|discriminate].
    apply IH in H. subst a'. destruct (Json.is_not_None session); cbn [List.length]; lia.
Qed.

(** A loop over something that is not a list runs to its end only when
    there is nothing to run over. *)
Lemma count_slots_strings (l : list json) (a a' : Z) :
  (forall x, In x l -> exists s, x = JStr s) ->
  count_slots l a = Some a' -> l = [].
Proof.
  intros Hstr H. destruct l as [|x rest]; [reflexivity|].
  destruct (Hstr x (or_introl eq_refl)) as [s ->]. discriminate.
Qed.

Lemma chars_strings (s : string) x : In x (Json.chars s) -> exists c, x = JStr c.
Proof.
  induction s as [|c t IH]; simpl; [tauto|].
  intros [<-|H]; eauto.
Qed.

Lemma keys_strings (items : list (string * json)) x :
  In x (map (fun kv => JStr (fst kv)) items) -> exists c, x = JStr c.
Proof.
  intros H. apply in_map_iff in H. destruct H as [kv [<- _]]. eauto.
Qed.

Lemma node_step (node slots : json) (n : Z) (l : list json) (a a' : Z) :
  Json.get node "slots" (JArr []) = Some slots ->
  Json.len slots = Some n ->
  Json.iter slots = Some l ->
  count_slots l a = Some a' ->
  n = Z.of_nat (List.length (node_slots node))
  /\ a' = a + Z.of_nat (List.length (filter slot_occupied (node_slots node))).
Proof.
  intros Hget Hlen Hiter Hcount. unfold node_slots. rewrite Hget.
  destruct slots as [| | | s | l0 | items]; try discriminate;
    simpl in Hiter, Hlen; inversion Hiter; subst l; inversion Hlen; subst n.
  - pose proof Hcount as Hnil.
    apply count_slots_strings in Hnil; [|intros x; apply chars_strings].
    destruct s; [|discriminate]. simpl in Hcount. inversion Hcount.
    split; [reflexivity|simpl; lia].
  - split; [reflexivity|]. apply count_slots_spec. exact Hcount.
  - pose proof Hcount as Hnil.
    apply count_slots_strings in Hnil; [|intros x; apply keys_strings].
    destruct items; [|discriminate]. simpl in Hcount. inversion Hcount.
    split; [reflexivity|simpl; lia].
Qed.

Lemma slots_in_nonneg (nodes : list json) : 0 <= slots_in nodes.
Proof. pose proof (occupied_in_bounds nodes). lia. Qed.

(** What the loop over the nodes leaves in its two variables: the occupied
    slots are added up, and the capacity is the slot count of the node met
    last, or the one it had before the loop when there is no node. *)
Lemma scan_nodes_spec (nodes : list json) (a m a' m' : Z) :
  scan_nodes nodes a m = Some (a', m') ->
  a' = a + occupied_in nodes
  /\ (nodes = [] -> m' = m)
  /\ (nodes <> [] -> 0 <= m' <= slots_in nodes).
Proof.
  revert a m. induction nodes as [|node rest IH]; intros a m H.
  - simpl in H. inversion H. unfold occupied_in. simpl.
    split; [lia|]. split; [reflexivity|congruence].
  - simpl in H. unfold obind in H.
    destruct (Json.get node "slots" (JArr [])) as [slots|] eqn:Hget; [|discriminate].
    destruct (Json.len slots) as [n|] eqn:Hlen; [|discriminate].
    destruct (Json.iter slots) as [l|] eqn:Hiter; [|discriminate].
    destruct (count_slots l a) as [a1|] eqn:Hcount; [|discriminate].
    destruct (node_step _ _ _ _ _ _ Hget Hlen Hiter Hcount) as [Hn Ha1].
    apply IH in H. destruct H as [Ha' [Hnil Hcons]].
    unfold occupied_in, slots_in in *. cbn [map fold_right].
    split; [lia|]. split; [discriminate|]. intros _.
    destruct rest as [|node2 rest2].
    + rewrite (Hnil eq_refl). simpl. lia.
    + assert (Hne : node2 :: rest2 <> []) by discriminate.
      specialize (Hcons Hne). lia.
Qed.

(** A loop over the nodes that runs to its end ran over a list. *)
Lemma scan_nodes_strings (l : list json) (a m : Z) r :
  (forall x, In x l -> exists s, x = JStr s) ->
  scan_nodes l a m = Some r -> l = [].
Proof.
  intros Hstr H. destruct l as [|x rest]; [reflexivity|].
  destruct (Hstr x (or_introl eq_refl)) as [s ->]. discriminate.
Qed.

(** The status computed from a decoded body: the sessions are the occupied
    slots of the body; the capacity is at most the number of slots of the
    body when it has a node, and 1 when it has none; [available] is
    [ready and sessions < maxSessions]. *)
Lemma status_of_body_spec (data : json) (st : NodeStatus) :
  status_of_body data = Some st ->
  sessions st = occupied_slots data
  /\ (body_nodes data = [] -> maxSessions st = 1)
  /\ (body_nodes data <> [] -> 0 <= maxSessions st <= total_slots data)
  /\ Json.truthy (available st)
     = Json.truthy (status_ready st) && (sessions st <? maxSessions st).
Proof.
  unfold status_of_body, occupied_slots, total_slots, body_nodes, obind.
  intros H.
  destruct (Json.get data "value" (JObj [])) as [value|]; [|discriminate].
  destruct (Json.get value "ready" (JBool false)) as [ready_|]; [|discriminate].
  destruct (Json.get value "nodes" (JArr [])) as [nodes|]; [|discriminate].
  destruct (Json.iter nodes) as [l|] eqn:Hiter; [|discriminate].
  destruct (scan_nodes l 0 1) as [[a m]|] eqn:Hscan; [|discriminate].
  inversion H; subst st; clear H. cbn [sessions maxSessions available status_ready].
  assert (Hl : l = match nodes with JArr l0 => l0 | _ => [] end).
  { destruct nodes as [| | | s | l0 | items]; try discriminate;
      simpl in Hiter; inversion Hiter; subst l.
    - eapply scan_nodes_strings; [|exact Hscan]. intros x; apply chars_strings.
    - reflexivity.
    - eapply scan_nodes_strings; [|exact Hscan]. intros x; apply keys_strings. }
  rewrite <- Hl.
  destruct (scan_nodes_spec _ _ _ _ _ Hscan) as [Ha [Hnil Hcons]].
  split; [lia|]. split; [exact Hnil|]. split; [exact Hcons|].
  unfold Json.and_. destruct (Json.truthy ready_) eqn:Hr; simpl; [reflexivity|exact Hr].
Qed.

Lemma status_unavailable_falsy : Json.truthy (available status_unavailable) = false.
Proof. reflexivity. Qed.

(** *** The listing of the pods *)

Section ListingProperties.

Context {W : Type} {E : Env W}.
Variable cfg : Config.

(** What [_getPodsByLabel] makes of the answer of the listing. *)
Lemma getPodsByLabel_outcome labelSelector (w : W) :
  _getPodsByLabel cfg labelSelector w
  = (match fst (list_namespaced_pod (NAMESPACE cfg) labelSelector w) with
     | Listed items => Val items
     | ListApiException => Val []
     | ListRaised msg => Exc msg
     | ListInterrupted => Interrupted
     end, after_poll cfg labelSelector w).
Proof.
  unfold _getPodsByLabel, after_poll. munfold.
  destruct (list_namespaced_pod _ _ w) as [[items| |msg|] w']; reflexivity.
Qed.

Lemma getPodsByLabel_polled labelSelector (w : W) :
  poll_answers cfg labelSelector w = true ->
  _getPodsByLabel cfg labelSelector w
  = (Val (polled_pods cfg labelSelector w), after_poll cfg labelSelector w).
Proof.
  rewrite getPodsByLabel_outcome. unfold poll_answers, polled_pods.
  destruct (fst (list_namespaced_pod _ _ w)); intros H;
    [reflexivity|reflexivity|discriminate H|discriminate H].
Qed.

(** A listing that does not answer ends the method with what it raised. *)
Lemma getPodsByLabel_fault labelSelector (w : W) :
  poll_answers cfg labelSelector w = false ->
  exists r : result (list Pod),
    _getPodsByLabel cfg labelSelector w = (r, after_poll cfg labelSelector w)
    /\ raised_by_listing cfg labelSelector w r.
Proof.
  rewrite getPodsByLabel_outcome. unfold poll_answers, raised_by_listing.
  destruct (fst (list_namespaced_pod _ _ w)); intros H;
    [discriminate H|discriminate H|eauto|eauto].
Qed.

(** What a listing raised is neither a value nor a run out of fuel, and
    passes through whatever follows the call. *)
Lemma raised_by_listing_not_val {A : Type} labelSelector (w0 : W) (r : result A) a :
  raised_by_listing cfg labelSelector w0 r -> r <> Val a.
Proof.
  unfold raised_by_listing.
  destruct (fst (list_namespaced_pod _ _ w0)); intros H; try contradiction;
    subst r; discriminate.
Qed.

Lemma raised_by_listing_bind {A B : Type} labelSelector (w0 : W)
      (m : M W A) (k : A -> M W B) (w w' : W) (r : result A) :
  m w = (r, w') ->
  raised_by_listing cfg labelSelector w0 r ->
  exists r' : result B,
    bind m k w = (r', w') /\ raised_by_listing cfg labelSelector w0 r'.
Proof.
  unfold raised_by_listing, bind. intros Hm.
  rewrite Hm. destruct (fst (list_namespaced_pod _ _ w0)); intros H; try contradiction;
    subst r; eauto.
Qed.

(** [_getPodName]: the name of the first listed pod, none when the listing
    has no pod, and what the listing raised when it does not answer. *)
Lemma getPodName_answered labelSelector (w : W) :
  poll_answers cfg labelSelector w = true ->
  _getPodName cfg labelSelector w
  = (Val (match polled_pods cfg labelSelector w with
          | pod :: _ => Some (metadata_name pod)
          | [] => None
          end), after_poll cfg labelSelector w).
Proof.
  intros H. unfold _getPodName. unfold bind at 1.
  rewrite (getPodsByLabel_polled _ _ H).
  destruct (polled_pods cfg labelSelector w); reflexivity.
Qed.

Lemma getPodName_fault labelSelector (w : W) :
  poll_answers cfg labelSelector w = false ->
  exists r : result (option string),
    _getPodName cfg labelSelector w = (r, after_poll cfg labelSelector w)
    /\ raised_by_listing cfg labelSelector w r.
Proof.
  intros H. destruct (getPodsByLabel_fault _ _ H) as [r [Hr Hraised]].
  unfold _getPodName. eapply raised_by_listing_bind; eauto.
Qed.

End ListingProperties.

Section SelectorProperties.

Context {W : Type} {E : Env W}.
Variable cfg : Config.

(** The probe always returns a status, never a fault: the status computed
    from the body when the command ended with code 0, printed something and
    the output decoded to a body of the expected shape, and the unavailable
    status in every other case. *)
Lemma checkChromeNodeStatus_spec (dnsName controller : string) (port : Z) (w : W) :
  exists st w',
    _checkChromeNodeStatus cfg dnsName controller port w = (Val st, w')
    /\ ((exists returnCode stdout stderr,
            pod_exec controller (NAMESPACE cfg) (probe_command dnsName port) None w
            = (ExecCompleted returnCode stdout stderr, w')
            /\ returnCode = 0
            /\ Py.nonempty (Py.strip stdout) = true
            /\ exists body, json_loads stdout = Some body
                            /\ status_of_body body = Some st)
        \/ (st = status_unavailable
            /\ exists r, pod_exec controller (NAMESPACE cfg)
                                  (probe_command dnsName port) None w = (r, w')
                         /\ match r with
                            | ExecRaised _ => True
                            | ExecCompleted returnCode stdout _ =>
                                returnCode <> 0
                                \/ Py.nonempty (Py.strip stdout) = false
                                \/ json_loads stdout = None
                                \/ (exists body, json_loads stdout = Some body
                                                 /\ status_of_body body = None)
                            end)).
Proof.
  unfold _checkChromeNodeStatus, _execInPod, probe_command. munfold.
  cbn [name_truthy].
  destruct (pod_exec _ _ _ _ w) as [[rc out err|msg] w'] eqn:Hexec.
  - destruct (rc =? 0) eqn:Hrc; cbn [negb orb].
    + apply Z.eqb_eq in Hrc.
      destruct (Py.nonempty (Py.strip out)) eqn:Hout; cbn [negb].
      * destruct (json_loads out) as [body|] eqn:Hjson; cbn [obind].
        -- destruct (status_of_body body) as [st|] eqn:Hst.
           ++ exists st, w'. split; [reflexivity|]. left.
              exists rc, out, err. repeat split; eauto.
           ++ exists status_unavailable, w'. split; [reflexivity|]. right.
              split; [reflexivity|]. eexists. split; [reflexivity|].
              cbv beta iota. right. right. right. eauto.
        -- exists status_unavailable, w'. split; [reflexivity|]. right.
           split; [reflexivity|]. eexists. split; [reflexivity|].
           cbv beta iota. auto.
      * exists status_unavailable, w'. split; [reflexivity|]. right.
        split; [reflexivity|]. eexists. split; [reflexivity|].
        cbv beta iota. auto.
    + apply Z.eqb_neq in Hrc.
      exists status_unavailable, w'. split; [reflexivity|]. right.
      split; [reflexivity|]. eexists. split; [reflexivity|].
      cbv beta iota. auto.
  - cbn. exists status_unavailable, w'. split; [reflexivity|]. right.
    split; [reflexivity|]. eexists. split; [reflexivity|]. exact I.
Qed.

(** [_isPodReady] is the readiness of the glossary: phase Running and every
    container ready, of which there is at least one. *)
Lemma isPodReady_iff (pod : Pod) :
  _isPodReady pod = true <->
  status_phase pod = "Running"
  /\ exists statuses, status_container_statuses pod = Some statuses
                      /\ statuses <> []
                      /\ forall cs, In cs statuses -> ready cs = true.
Proof.
  unfold _isPodReady. split.
  - destruct (String.eqb (status_phase pod) "Running") eqn:Hphase; [|discriminate].
    apply String.eqb_eq in Hphase. cbn [negb].
    destruct (status_container_statuses pod) as [[|cs rest]|]; try discriminate.
    intros Hall. split; [exact Hphase|]. exists (cs :: rest).
    split; [reflexivity|]. split; [discriminate|].
    apply forallb_forall. exact Hall.
  - intros [Hphase [statuses [Hst [Hne Hall]]]].
    rewrite Hphase, Hst. rewrite String.eqb_refl. cbn [negb].
    destruct statuses as [|cs rest]; [congruence|].
    apply forallb_forall. exact Hall.
Qed.

(** A status that [_checkChromeNodeStatus] returns is available exactly
    when it is ready with fewer sessions than capacity. *)
Lemma checkChromeNodeStatus_available dnsName controller port (w w' : W) st :
  _checkChromeNodeStatus cfg dnsName controller port w = (Val st, w') ->
  Json.truthy (available st)
  = Json.truthy (status_ready st) && (sessions st <? maxSessions st).
Proof.
  intros H.
  destruct (checkChromeNodeStatus_spec dnsName controller port w)
    as [st0 [w0 [Hrun Hcases]]].
  rewrite Hrun in H. inversion H; subst st0 w0; clear H.
  destruct Hcases as [[rc [out [err [_ [_ [_ [body [_ Hst]]]]]]]] | [-> _]].
  - apply (status_of_body_spec _ _ Hst).
  - reflexivity.
Qed.

Lemma select_loop_skipped controller l rest (w w' : W) :
  Skipped cfg controller l w w' ->
  select_loop cfg controller (l ++ rest) w = select_loop cfg controller rest w'.
Proof.
  induction 1 as [w|pod l w w' Hnr _ IH|pod l w w1 w' st Hr Hprobe Hav _ IH].
  - reflexivity.
  - cbn [app select_loop]. rewrite Hnr. exact IH.
  - cbn [app select_loop]. rewrite Hr. cbn [negb]. unfold bind at 1.
    rewrite Hprobe, Hav. exact IH.
Qed.

Lemma select_loop_first_fit controller l1 pod l2 (w w1 w2 : W) st :
  Skipped cfg controller l1 w w1 ->
  _isPodReady pod = true ->
  _checkChromeNodeStatus cfg (_getChromeNodeDns cfg (metadata_name pod)) controller 4444 w1
  = (Val st, w2) ->
  Json.truthy (available st) = true ->
  select_loop cfg controller (l1 ++ pod :: l2) w
  = (Val (Some (_getChromeNodeDns cfg (metadata_name pod))), w2).
Proof.
  intros Hskip Hr Hprobe Hav.
  rewrite (select_loop_skipped _ _ _ _ _ Hskip).
  cbn [select_loop]. rewrite Hr. cbn [negb]. unfold bind at 1.
  rewrite Hprobe, Hav. reflexivity.
Qed.

Lemma select_loop_none controller pods (w w' : W) :
  Skipped cfg controller pods w w' ->
  select_loop cfg controller pods w = (Val None, w').
Proof.
  intros Hskip. rewrite <- (app_nil_r pods).
  rewrite (select_loop_skipped _ _ _ _ _ Hskip). reflexivity.
Qed.

(** The loop ends in one of two ways, and in no other: every candidate was
    passed over, or the first one that was not is returned. *)
Lemma select_loop_cases controller pods (w : W) :
  (exists w', Skipped cfg controller pods w w'
              /\ select_loop cfg controller pods w = (Val None, w'))
  \/ (exists l1 pod l2 w1 st w2,
         pods = (l1 ++ pod :: l2)%list
         /\ Skipped cfg controller l1 w w1
         /\ _isPodReady pod = true
         /\ _checkChromeNodeStatus cfg (_getChromeNodeDns cfg (metadata_name pod))
                                   controller 4444 w1 = (Val st, w2)
         /\ Json.truthy (available st) = true
         /\ select_loop cfg controller pods w
            = (Val (Some (_getChromeNodeDns cfg (metadata_name pod))), w2)).
Proof.
  revert w. induction pods as [|pod rest IH]; intros w.
  - left. exists w. split; [constructor|reflexivity].
  - destruct (_isPodReady pod) eqn:Hr.
    + destruct (checkChromeNodeStatus_spec
                  (_getChromeNodeDns cfg (metadata_name pod)) controller 4444 w)
        as [st [w1 [Hprobe _]]].
      destruct (Json.truthy (available st)) eqn:Hav.
      * right. exists [], pod, rest, w, st, w1.
        split; [reflexivity|]. split; [constructor|]. split; [exact Hr|].
        split; [exact Hprobe|]. split; [exact Hav|].
        apply (select_loop_first_fit controller [] pod rest w w w1 st);
          [constructor|assumption..].
      * destruct (IH w1) as [[w' [Hskip Hnone]]|
                             [l1 [p [l2 [w2 [st2 [w3 [Heq [Hskip [Hpr [Hp [Hpa Hsel]]]]]]]]]]]].
        -- left. exists w'. split; [econstructor 3; eauto|].
           apply select_loop_none. econstructor 3; eauto.
        -- right. exists (pod :: l1), p, l2, w2, st2, w3.
           split; [rewrite Heq; reflexivity|].
           split; [econstructor 3; eauto|].
           split; [exact Hpr|]. split; [exact Hp|]. split; [exact Hpa|].
           rewrite Heq.
           apply (select_loop_first_fit controller (pod :: l1) p l2 w w2 w3 st2);
             [econstructor 3; eauto|assumption..].
    + destruct (IH w) as [[w' [Hskip Hnone]]|
                          [l1 [p [l2 [w2 [st2 [w3 [Heq [Hskip [Hpr [Hp [Hpa Hsel]]]]]]]]]]]].
      * left. exists w'. split; [constructor 2; assumption|].
        apply select_loop_none. constructor 2; assumption.
      * right. exists (pod :: l1), p, l2, w2, st2, w3.
        split; [rewrite Heq; reflexivity|].
        split; [constructor 2; assumption|].
        split; [exact Hpr|]. split; [exact Hp|]. split; [exact Hpa|].
        rewrite Heq.
        apply (select_loop_first_fit controller (pod :: l1) p l2 w w2 w3 st2);
          [constructor 2; assumption|assumption..].
Qed.

(** [_getAvailableChromeNode] once the controller pod and the worker pods
    have been listed. *)
Lemma getAvailableChromeNode_listed (w w1 w2 : W) name pods :
  _getPodName cfg (CONTROLLER_POD_LABEL cfg) w = (Val (Some name), w1) ->
  Py.nonempty name = true ->
  _getPodsByLabel cfg (CHROME_NODE_POD_LABEL cfg) w1 = (Val pods, w2) ->
  _getAvailableChromeNode cfg w = select_loop cfg name pods w2.
Proof.
  intros Hname Hne Hpods. unfold _getAvailableChromeNode.
  unfold bind at 1. rewrite Hname, Hne. cbn [negb].
  unfold bind at 1. rewrite Hpods. destruct pods; reflexivity.
Qed.

Lemma checkChromeNodeStatus_failed dnsName controller port (w w' : W) r :
  pod_exec controller (NAMESPACE cfg) (probe_command dnsName port) None w = (r, w') ->
  probe_failed r ->
  _checkChromeNodeStatus cfg dnsName controller port w = (Val status_unavailable, w').
Proof.
  intros Hexec Hfail.
  destruct (checkChromeNodeStatus_spec dnsName controller port w)
    as [st [w0 [Hrun Hcases]]].
  rewrite Hrun.
  destruct Hcases as [[rc [out [err [Hex [Hrc [Hout [body [Hjson Hst]]]]]]]] | [-> [r0 [Hex _]]]].
  - rewrite Hexec in Hex. inversion Hex; subst r w0. exfalso.
    destruct Hfail as [Hf|[Hf|[Hf|[b [Hb Hf]]]]]; try congruence.
  - rewrite Hexec in Hex. inversion Hex. reflexivity.
Qed.

(** With one pod [free] whose probe is ready with room, among pods that
    are not ready or whose probe has no room, the loop returns [free]. *)
Lemma select_loop_only_free controller free pods :
  _isPodReady free = true ->
  (forall w : W, exists st w',
      _checkChromeNodeStatus cfg (_getChromeNodeDns cfg (metadata_name free))
                             controller 4444 w = (Val st, w')
      /\ Json.truthy (status_ready st) = true
      /\ sessions st < maxSessions st) ->
  (forall pod, In pod pods ->
      pod = free \/ _isPodReady pod = false
      \/ (forall w : W, exists st w',
             _checkChromeNodeStatus cfg (_getChromeNodeDns cfg (metadata_name pod))
                                    controller 4444 w = (Val st, w')
             /\ maxSessions st <= sessions st)) ->
  In free pods ->
  forall w : W, exists w',
    select_loop cfg controller pods w
    = (Val (Some (_getChromeNodeDns cfg (metadata_name free))), w').
Proof.
  intros Hready Hfree Hothers.
  assert (Hpick : forall rest (w : W), exists w',
             select_loop cfg controller (free :: rest) w
             = (Val (Some (_getChromeNodeDns cfg (metadata_name free))), w')).
  { intros rest w. destruct (Hfree w) as [st [w' [Hprobe [Hst Hroom]]]].
    exists w'. cbn [select_loop]. rewrite Hready. cbn [negb]. unfold bind at 1.
    rewrite Hprobe, (checkChromeNodeStatus_available _ _ _ _ _ _ Hprobe), Hst.
    apply Z.ltb_lt in Hroom. rewrite Hroom. reflexivity. }
  induction pods as [|pod rest IH]; intros Hin w; [destruct Hin|].
  destruct (Hothers pod (or_introl eq_refl)) as [->|[Hnr|Hfull]].
  - apply Hpick.
  - destruct Hin as [->|Hin]; [congruence|].
    cbn [select_loop]. rewrite Hnr. cbn [negb].
    apply IH; [intros p Hp; apply Hothers; right; exact Hp|exact Hin].
  - destruct Hin as [->|Hin]; [apply Hpick|].
    destruct (_isPodReady pod) eqn:Hr.
    + destruct (Hfull w) as [st [w' [Hprobe Hnoroom]]].
      cbn [select_loop]. rewrite Hr. cbn [negb]. unfold bind at 1.
      rewrite Hprobe, (checkChromeNodeStatus_available _ _ _ _ _ _ Hprobe).
      apply Z.ltb_ge in Hnoroom. rewrite Hnoroom, andb_false_r.
      apply IH; [intros p Hp; apply Hothers; right; exact Hp|exact Hin].
    + cbn [select_loop]. rewrite Hr. cbn [negb].
      apply IH; [intros p Hp; apply Hothers; right; exact Hp|exact Hin].
Qed.

(** C4: once the controller pod and the worker pods are listed, the
    selector returns the first pod, in listing order, that is cluster-ready
    and whose probe says available, all pods before it having been passed
    over; when every pod is passed over it returns none; it ends in one of
    these two ways, so never in a fault; a probe that raised, ended with a
    code other than 0, printed nothing or did not decode makes its pod
    unavailable.  With three pods in any order, one ready with sessions 1/1,
    one ready with sessions 0/1 and one not ready, the pod with 0/1 is
    returned. *)
Theorem selector_first_fit (w w1 w2 : W) name pods :
  _getPodName cfg (CONTROLLER_POD_LABEL cfg) w = (Val (Some name), w1) ->
  Py.nonempty name = true ->
  _getPodsByLabel cfg (CHROME_NODE_POD_LABEL cfg) w1 = (Val pods, w2) ->
  let dns := fun pod => _getChromeNodeDns cfg (metadata_name pod) in
  let probe := fun pod => _checkChromeNodeStatus cfg (dns pod) name 4444 in
  (forall l1 pod l2 w3 st w4,
      pods = (l1 ++ pod :: l2)%list ->
      Skipped cfg name l1 w2 w3 ->
      _isPodReady pod = true ->
      probe pod w3 = (Val st, w4) ->
      Json.truthy (available st) = true ->
      _getAvailableChromeNode cfg w = (Val (Some (dns pod)), w4))
  /\ (forall w3, Skipped cfg name pods w2 w3 ->
                 _getAvailableChromeNode cfg w = (Val None, w3))
  /\ ((exists w3, Skipped cfg name pods w2 w3
                  /\ _getAvailableChromeNode cfg w = (Val None, w3))
      \/ (exists l1 pod l2 w3 st w4,
             pods = (l1 ++ pod :: l2)%list
             /\ Skipped cfg name l1 w2 w3
             /\ _isPodReady pod = true
             /\ probe pod w3 = (Val st, w4)
             /\ Json.truthy (available st) = true
             /\ _getAvailableChromeNode cfg w = (Val (Some (dns pod)), w4)))
  /\ (forall pod w3 r w4,
         pod_exec name (NAMESPACE cfg) (probe_command (dns pod) 4444) None w3 = (r, w4) ->
         probe_failed r ->
         probe pod w3 = (Val status_unavailable, w4)
         /\ Json.truthy (available status_unavailable) = false)
  /\ (forall full free notReady,
         Permutation [full; free; notReady] pods ->
         _isPodReady full = true ->
         _isPodReady free = true ->
         _isPodReady notReady = false ->
         (forall w3, exists st w4,
             probe full w3 = (Val st, w4) /\ sessions st = 1 /\ maxSessions st = 1) ->
         (forall w3, exists st w4,
             probe free w3 = (Val st, w4) /\ Json.truthy (status_ready st) = true
             /\ sessions st = 0 /\ maxSessions st = 1) ->
         exists w', _getAvailableChromeNode cfg w = (Val (Some (dns free)), w')).
Proof.
  intros Hname Hne Hpods dns probe. subst dns probe.
  rewrite (getAvailableChromeNode_listed _ _ _ _ _ Hname Hne Hpods).
  split; [|split; [|split; [|split]]].
  - intros l1 pod l2 w3 st w4 -> Hskip Hr Hprobe Hav.
    eapply select_loop_first_fit; eauto.
  - intros w3 Hskip. apply select_loop_none. exact Hskip.
  - apply select_loop_cases.
  - intros pod w3 r w4 Hexec Hfail. split; [|reflexivity].
    eapply checkChromeNodeStatus_failed; eauto.
  - intros full free notReady Hperm Hfull Hfree Hnot Hpfull Hpfree.
    apply select_loop_only_free.
    + exact Hfree.
    + intros w3. destruct (Hpfree w3) as [st [w4 [Hp [Hr [Hs Hm]]]]].
      exists st, w4. split; [exact Hp|]. split; [exact Hr|]. lia.
    + intros pod Hin. apply (Permutation_in _ (Permutation_sym Hperm)) in Hin.
      destruct Hin as [<-|[<-|[<-|[]]]].
      * right. right. intros w3. destruct (Hpfull w3) as [st [w4 [Hp [Hs Hm]]]].
        exists st, w4. split; [exact Hp|]. lia.
      * left. reflexivity.
      * right. left. exact Hnot.
    + apply (Permutation_in _ Hperm). right. left. reflexivity.
Qed.

Lemma getAvailableChromeNode_some (w w' : W) dnsName :
  _getAvailableChromeNode cfg w = (Val (Some dnsName), w') ->
  exists name w1 pods w2,
    _getPodName cfg (CONTROLLER_POD_LABEL cfg) w = (Val (Some name), w1)
    /\ Py.nonempty name = true
    /\ list_namespaced_pod (NAMESPACE cfg) (CHROME_NODE_POD_LABEL cfg) w1 = (Listed pods, w2)
    /\ select_loop cfg name pods w2 = (Val (Some dnsName), w').
Proof.
  unfold _getAvailableChromeNode. unfold bind at 1.
  destruct (_getPodName cfg (CONTROLLER_POD_LABEL cfg) w) as [[[name|]|e| |] w1] eqn:Hname;
    try (munfold; intros H; discriminate H).
  destruct (Py.nonempty name) eqn:Hne; cbn [negb];
    [|munfold; intros H; discriminate H].
  unfold _getPodsByLabel. munfold.
  destruct (list_namespaced_pod _ _ w1) as [[pods| |msg|] w2] eqn:Hlist;
    try (intros H; discriminate H).
  intros H. exists name, w1, pods, w2.
  split; [reflexivity|]. split; [exact Hne|]. split; [exact Hlist|].
  destruct pods; [discriminate H|exact H].
Qed.

(** C1, as the code has it: a name the selector returns is the name of a
    listed worker pod that is cluster-ready (phase Running, every container
    ready) and whose probe ended with code 0 and a body that decodes; the
    body says ready, and its occupied slots are fewer than the capacity the
    probe computes.  For a body with at least one node that capacity is at
    most the number of slots of the body, so the occupied slots are fewer
    than the slots; for a body with no node the capacity is 1, and the pod is
    returned with no occupied slot out of no slot. *)
Theorem selector_returns_ready_free_pod (w w' : W) dnsName :
  _getAvailableChromeNode cfg w = (Val (Some dnsName), w') ->
  exists controller w1 pods w2 pod w3 stdout stderr body st,
    list_namespaced_pod (NAMESPACE cfg) (CHROME_NODE_POD_LABEL cfg) w1 = (Listed pods, w2)
    /\ In pod pods
    /\ dnsName = _getChromeNodeDns cfg (metadata_name pod)
    /\ _isPodReady pod = true
    /\ status_phase pod = "Running"
    /\ (exists statuses, status_container_statuses pod = Some statuses
                         /\ forall cs, In cs statuses -> ready cs = true)
    /\ pod_exec controller (NAMESPACE cfg) (probe_command dnsName 4444) None w3
       = (ExecCompleted 0 stdout stderr, w')
    /\ json_loads stdout = Some body
    /\ status_of_body body = Some st
    /\ Json.truthy (status_ready st) = true
    /\ sessions st = occupied_slots body
    /\ occupied_slots body < maxSessions st
    /\ (body_nodes body <> [] -> occupied_slots body < total_slots body)
    /\ (body_nodes body = [] ->
        maxSessions st = 1 /\ occupied_slots body = 0 /\ total_slots body = 0).
Proof.
  intros H.
  destruct (getAvailableChromeNode_some _ _ _ H) as [name [w1 [pods [w2 [_ [_ [Hlist Hsel]]]]]]].
  destruct (select_loop_cases name pods w2)
    as [[w3 [_ Hnone]]|[l1 [pod [l2 [w3 [st [w4 [Heq [_ [Hr [Hprobe [Hav Hsome]]]]]]]]]]]].
  { rewrite Hnone in Hsel. discriminate. }
  rewrite Hsome in Hsel. inversion Hsel; subst dnsName w4; clear Hsel.
  destruct (checkChromeNodeStatus_spec
              (_getChromeNodeDns cfg (metadata_name pod)) name 4444 w3)
    as [st0 [w0 [Hrun Hcases]]].
  rewrite Hprobe in Hrun. inversion Hrun; subst st0 w0; clear Hrun.
  destruct Hcases as [[rc [out [err [Hex [Hrc [Hout [body [Hjson Hst]]]]]]]] | [-> _]];
    [|discriminate].
  subst rc.
  destruct (status_of_body_spec _ _ Hst) as [Hs [Hnil [Hcons Havail]]].
  rewrite Hav in Havail. symmetry in Havail. apply andb_true_iff in Havail.
  destruct Havail as [Hready Hroom]. apply Z.ltb_lt in Hroom.
  destruct (proj1 (isPodReady_iff pod) Hr) as [Hphase [statuses [Hcs [_ Hall]]]].
  exists name, w1, pods, w2, pod, w3, out, err, body, st.
  split; [exact Hlist|]. split; [rewrite Heq; apply in_elt|].
  split; [reflexivity|]. split; [exact Hr|]. split; [exact Hphase|].
  split; [eauto|]. split; [exact Hex|]. split; [exact Hjson|]. split; [exact Hst|].
  split; [exact Hready|]. split; [exact Hs|]. split; [lia|]. split.
  - intros Hne. specialize (Hcons Hne). lia.
  - intros Hempty. split; [auto|].
    unfold occupied_slots, total_slots. rewrite Hempty. split; reflexivity.
Qed.

End SelectorProperties.

(** *** The retry wrapper [handleErrors] *)

Lemma range_length (lo hi : Z) : List.length (Py.range lo hi) = Z.to_nat (hi - lo).
Proof. unfold Py.range. rewrite length_map, length_seq. reflexivity. Qed.

Section HandleErrorsProperties.

Context {W : Type} {E : Env W}.
Variable cfg : Config.
Hypothesis delay_nonneg : 0 <= RETRY_DELAY cfg.
Variable operation : string.

Lemma handleErrors_loop_step (op : M W PyVal) attempt rest (w w1 : W) r :
  op w = (r, w1) ->
  handleErrors_loop cfg operation op (attempt :: rest) w
  = match r with
    | Val v =>
        if value_fails v
        then handleErrors_loop cfg operation op rest (after_failed_attempt cfg attempt w1)
        else (Val (true, v), w1)
    | Exc _ => handleErrors_loop cfg operation op rest (after_failed_attempt cfg attempt w1)
    | Interrupted => (Interrupted, w1)
    | Div => (Div, w1)
    end.
Proof.
  intros Hop. cbn [handleErrors_loop]. unfold handleErrors_try, after_failed_attempt.
  unfold bind at 1. unfold try_except. unfold bind at 1. unfold bind at 1.
  rewrite Hop. destruct r as [v|e| |]; [| |reflexivity|reflexivity].
  - destruct v as [|[|]|z|s|[|first l]|l]; cbn [value_fails negb]; munfold;
      rewrite ?(nonneg_ltb _ delay_nonneg); try reflexivity.
    + destruct (attempt <? MAX_RETRIES cfg); reflexivity.
    + destruct (py_truthy first); cbn [negb]; [reflexivity|].
      destruct (attempt <? MAX_RETRIES cfg); reflexivity.
  - munfold. rewrite (nonneg_ltb _ delay_nonneg).
    destruct (attempt <? MAX_RETRIES cfg); reflexivity.
Qed.


End HandleErrorsProperties.

Section HandleErrorsCounted.

Context {W : Type} {E : Env W}.
Variable cfg : Config.
Hypothesis delay_nonneg : 0 <= RETRY_DELAY cfg.
Variable operation : string.
Variable f : nat -> M W PyVal.

Let loop := handleErrors_loop (E := counting_env E) cfg operation (counted f).

Lemma after_failed_attempt_count attempt (wn : W * nat) :
  snd (after_failed_attempt (E := counting_env E) cfg attempt wn) = snd wn.
Proof.
  unfold after_failed_attempt. destruct (attempt <? MAX_RETRIES cfg); reflexivity.
Qed.

Lemma counted_loop_all_fail attempts :
  (forall n w0, call_fails (fst (f n w0))) ->
  forall (w : W) (n : nat), exists w',
    loop attempts (w, n) = (Val (false, VNone), (w', (n + List.length attempts)%nat)).
Proof.
  intros Hfail. induction attempts as [|a rest IH]; intros w n.
  - exists w. cbn. rewrite Nat.add_0_r. reflexivity.
  - subst loop. cbn beta in *.
    destruct (f n w) as [r w1] eqn:Hf.
    assert (Hop : counted f (w, n) = (r, (w1, S n))).
    { unfold counted. cbn. rewrite Hf. reflexivity. }
    rewrite (handleErrors_loop_step cfg delay_nonneg operation _ a rest _ _ _ Hop).
    specialize (Hfail n w). rewrite Hf in Hfail. cbn in Hfail.
    destruct (after_failed_attempt (E := counting_env E) cfg a (w1, S n)) as [w2 n2] eqn:Haf.
    assert (Hn2 : n2 = S n).
    { pose proof (after_failed_attempt_count a (w1, S n)) as Hc.
      rewrite Haf in Hc. exact Hc. }
    subst n2. destruct (IH w2 (S n)) as [w' Hrest].
    exists w'. cbn [List.length]. rewrite Nat.add_succ_r.
    destruct r as [v|e| |]; [rewrite Hfail| |destruct Hfail|destruct Hfail]; exact Hrest.
Qed.

Lemma counted_loop_succeeds (k : nat) :
  forall attempts (w : W) (n : nat),
    (k < List.length attempts)%nat ->
    (forall m w0, (n <= m < n + k)%nat -> call_fails (fst (f m w0))) ->
    (forall w0, call_succeeds (fst (f (n + k)%nat w0))) ->
    exists wk v w',
      f (n + k)%nat wk = (Val v, w')
      /\ value_fails v = false
      /\ loop attempts (w, n) = (Val (true, v), (w', (n + k + 1)%nat)).
Proof.
  induction k as [|k IH]; intros attempts w n Hlen Hfail Hok;
    (destruct attempts as [|a rest]; [cbn in Hlen; lia|]);
    subst loop; cbn beta in *;
    destruct (f n w) as [r w1] eqn:Hf;
    assert (Hop : counted f (w, n) = (r, (w1, S n)))
      by (unfold counted; cbn; rewrite Hf; reflexivity);
    rewrite (handleErrors_loop_step cfg delay_nonneg operation _ a rest _ _ _ Hop).
  - specialize (Hok w). rewrite Nat.add_0_r in *. rewrite Hf in Hok.
    destruct r as [v|e| |]; cbn in Hok; try contradiction.
    rewrite Hok. exists w, v, w1. split; [exact Hf|]. split; [exact Hok|].
    rewrite Nat.add_1_r. reflexivity.
  - assert (Hn : call_fails (fst (f n w))) by (apply Hfail; lia).
    rewrite Hf in Hn. cbn in Hn.
    destruct (after_failed_attempt (E := counting_env E) cfg a (w1, S n)) as [w2 n2] eqn:Haf.
    assert (Hn2 : n2 = S n).
    { pose proof (after_failed_attempt_count a (w1, S n)) as Hc.
      rewrite Haf in Hc. exact Hc. }
    subst n2.
    destruct (IH rest w2 (S n)) as [wk [v [w' [Hfk [Hv Hrest]]]]].
    + cbn in Hlen. lia.
    + intros m w0 Hm. apply Hfail. lia.
    + intros w0. replace (S n + k)%nat with (n + S k)%nat by lia. apply Hok.
    + exists wk, v, w'.
      replace (n + S k)%nat with (S n + k)%nat by lia.
      split; [exact Hfk|]. split; [exact Hv|].
      destruct r as [v0|e| |]; [rewrite Hn| |destruct Hn|destruct Hn]; exact Hrest.
Qed.

(** C3: [handleErrors] run on a callable whose calls are counted.  When the
    first K-1 calls fail (a falsy [bool], a tuple with a falsy first
    element, or an exception) and call K succeeds, for 1 <= K <= MAX_RETRIES,
    the wrapper returns success with the value of call K, after exactly K
    calls.  When every call fails, it returns failure with [None], after
    exactly MAX_RETRIES calls. *)
Theorem handleErrors_retries (w : W) :
  let wrapped := handleErrors (E := counting_env E) cfg operation (counted f) (w, 0%nat) in
  (forall K : nat,
      1 <= Z.of_nat K <= MAX_RETRIES cfg ->
      (forall n w0, (n < K - 1)%nat -> call_fails (fst (f n w0))) ->
      (forall w0, call_succeeds (fst (f (K - 1)%nat w0))) ->
      exists wK v w',
        f (K - 1)%nat wK = (Val v, w')
        /\ wrapped = (Val (true, v), (w', K)))
  /\ ((forall n w0, call_fails (fst (f n w0))) ->
      exists w' calls,
        wrapped = (Val (false, VNone), (w', calls))
        /\ calls = Z.to_nat (MAX_RETRIES cfg)
        /\ (0 <= MAX_RETRIES cfg -> Z.of_nat calls = MAX_RETRIES cfg)).
Proof.
  cbv zeta. unfold handleErrors. split.
  - intros K HK Hfail Hok.
    destruct (counted_loop_succeeds (K - 1) (Py.range 1 (MAX_RETRIES cfg + 1)) w 0)
      as [wK [v [w' [Hf [_ Hrun]]]]].
    + rewrite range_length. lia.
    + intros m w0 Hm. apply Hfail. lia.
    + intros w0. apply Hok.
    + exists wK, v, w'. split; [exact Hf|].
      subst loop. cbn beta in Hrun. rewrite Hrun.
      replace (0 + (K - 1) + 1)%nat with K by lia. reflexivity.
  - intros Hfail.
    destruct (counted_loop_all_fail (Py.range 1 (MAX_RETRIES cfg + 1)) Hfail w 0)
      as [w' Hrun].
    exists w', (Z.to_nat (MAX_RETRIES cfg)).
    subst loop. cbn beta in Hrun. rewrite Hrun, range_length.
    replace (MAX_RETRIES cfg + 1 - 1) with (MAX_RETRIES cfg) by lia.
    split; [reflexivity|]. split; [reflexivity|]. intros Hpos. lia.
Qed.

End HandleErrorsCounted.

(** *** The readiness poller [checkReadiness] *)

Section ReadinessProperties.

Context {W : Type} {E : Env W}.
Variable cfg : Config.
Hypothesis interval_nonneg : 0 <= READINESS_CHECK_INTERVAL cfg.
Variable labelSelector : string.
Variable minReady : Z.

(** One evaluation of the condition of the loop: outside the window the
    poller gives up; inside it polls, and ends with what the listing raised
    when the listing does not answer. *)
Lemma checkReadiness_loop_unfold fuel startTime (w : W) :
  checkReadiness_loop cfg (S fuel) labelSelector minReady startTime w
  = if within_window cfg startTime w then
      match fst (list_namespaced_pod (NAMESPACE cfg) labelSelector w) with
      | ListRaised msg => (Exc msg, after_poll cfg labelSelector w)
      | ListInterrupted => (Interrupted, after_poll cfg labelSelector w)
      | _ =>
          if enough_ready cfg labelSelector minReady w
          then (Val true, after_poll cfg labelSelector w)
          else checkReadiness_loop cfg fuel labelSelector minReady startTime
                                   (next_poll cfg labelSelector w)
      end
    else (Val false, w).
Proof.
  cbn [checkReadiness_loop]. unfold within_window, enough_ready, next_poll.
  unfold bind at 1. unfold read at 1.
  destruct (time_time w - startTime <? READINESS_TIMEOUT cfg); [|reflexivity].
  unfold bind at 1. rewrite getPodsByLabel_outcome. unfold polled_pods.
  destruct (fst (list_namespaced_pod (NAMESPACE cfg) labelSelector w)) as [items| |msg|];
    try reflexivity.
  - destruct (readyCount items >=? minReady); [reflexivity|].
    unfold bind, sleep. rewrite (nonneg_ltb _ interval_nonneg). reflexivity.
  - destruct (readyCount [] >=? minReady); [reflexivity|].
    unfold bind, sleep. rewrite (nonneg_ltb _ interval_nonneg). reflexivity.
Qed.

Lemma checkReadiness_loop_answered fuel startTime (w : W) :
  poll_answers cfg labelSelector w = true ->
  checkReadiness_loop cfg (S fuel) labelSelector minReady startTime w
  = if within_window cfg startTime w then
      if enough_ready cfg labelSelector minReady w then (Val true, after_poll cfg labelSelector w)
      else checkReadiness_loop cfg fuel labelSelector minReady startTime (next_poll cfg labelSelector w)
    else (Val false, w).
Proof.
  intros Hans. rewrite checkReadiness_loop_unfold. unfold poll_answers in Hans.
  destruct (fst (list_namespaced_pod (NAMESPACE cfg) labelSelector w));
    [reflexivity|reflexivity|discriminate Hans|discriminate Hans].
Qed.

Lemma checkReadiness_loop_outside fuel startTime (w : W) :
  within_window cfg startTime w = false ->
  checkReadiness_loop cfg (S fuel) labelSelector minReady startTime w = (Val false, w).
Proof.
  intros Hout. rewrite checkReadiness_loop_unfold, Hout. reflexivity.
Qed.

(** A poll that does not answer ends the loop with what the listing raised. *)
Lemma checkReadiness_loop_fault fuel startTime (w : W) :
  within_window cfg startTime w = true ->
  poll_answers cfg labelSelector w = false ->
  exists r : result bool,
    checkReadiness_loop cfg (S fuel) labelSelector minReady startTime w
    = (r, after_poll cfg labelSelector w)
    /\ raised_by_listing cfg labelSelector w r.
Proof.
  intros Hin Hans. rewrite checkReadiness_loop_unfold, Hin.
  unfold poll_answers in Hans. unfold raised_by_listing.
  destruct (fst (list_namespaced_pod (NAMESPACE cfg) labelSelector w));
    [discriminate Hans|discriminate Hans|eauto|eauto].
Qed.

Lemma checkReadiness_unfold fuel (w : W) :
  checkReadiness cfg fuel labelSelector minReady w
  = checkReadiness_loop cfg fuel labelSelector minReady (time_time w) w.
Proof. reflexivity. Qed.

(** What a run of the loop that ends in a value has seen: every poll before
    the last instant was answered and found too few ready pods. *)
Lemma checkReadiness_loop_ends fuel startTime :
  forall (w w' : W) b,
    checkReadiness_loop cfg fuel labelSelector minReady startTime w = (Val b, w') ->
    exists n,
      (n < fuel)%nat
      /\ (forall k, (k < n)%nat ->
                    within_window cfg startTime (polled_instant cfg labelSelector k w) = true
                    /\ poll_answers cfg labelSelector (polled_instant cfg labelSelector k w) = true
                    /\ enough_ready cfg labelSelector minReady (polled_instant cfg labelSelector k w) = false)
      /\ (if b
          then within_window cfg startTime (polled_instant cfg labelSelector n w) = true
               /\ poll_answers cfg labelSelector (polled_instant cfg labelSelector n w) = true
               /\ enough_ready cfg labelSelector minReady (polled_instant cfg labelSelector n w) = true
               /\ w' = after_poll cfg labelSelector (polled_instant cfg labelSelector n w)
          else within_window cfg startTime (polled_instant cfg labelSelector n w) = false
               /\ w' = polled_instant cfg labelSelector n w).
Proof.
  induction fuel as [|fuel IH]; intros w w' b H; [discriminate H|].
  destruct (within_window cfg startTime w) eqn:Hin.
  - destruct (poll_answers cfg labelSelector w) eqn:Hans.
    + rewrite (checkReadiness_loop_answered _ _ _ Hans), Hin in H.
      destruct (enough_ready cfg labelSelector minReady w) eqn:Hen.
      * inversion H; subst b w'. exists 0%nat.
        split; [lia|]. split; [intros k Hk; lia|]. cbn. auto.
      * apply IH in H. destruct H as [n [Hn [Hbefore Hend]]].
        exists (S n). split; [lia|]. split; [|exact Hend].
        intros [|k] Hk; cbn [polled_instant]; [auto|]. apply Hbefore. lia.
    + destruct (checkReadiness_loop_fault fuel startTime w Hin Hans) as [r [Hr Hraised]].
      rewrite Hr in H. inversion H; subst r.
      exfalso. exact (raised_by_listing_not_val cfg _ _ _ _ Hraised eq_refl).
  - rewrite (checkReadiness_loop_outside _ _ _ Hin) in H.
    inversion H; subst b w'. exists 0%nat.
    split; [lia|]. split; [intros k Hk; lia|]. cbn. auto.
Qed.

(** Conversely, the loop with enough fuel ends at the first instant that
    is satisfied or lies outside the window, when the polls up to it are
    answered. *)
Lemma checkReadiness_loop_reaches startTime (n : nat) :
  forall (w : W) fuel,
    (n < fuel)%nat ->
    (forall k, (k < n)%nat ->
               within_window cfg startTime (polled_instant cfg labelSelector k w) = true
               /\ poll_answers cfg labelSelector (polled_instant cfg labelSelector k w) = true
               /\ enough_ready cfg labelSelector minReady (polled_instant cfg labelSelector k w) = false) ->
    poll_answers cfg labelSelector (polled_instant cfg labelSelector n w) = true
    \/ within_window cfg startTime (polled_instant cfg labelSelector n w) = false ->
    checkReadiness_loop cfg fuel labelSelector minReady startTime w
    = if within_window cfg startTime (polled_instant cfg labelSelector n w) then
        if enough_ready cfg labelSelector minReady (polled_instant cfg labelSelector n w)
        then (Val true, after_poll cfg labelSelector (polled_instant cfg labelSelector n w))
        else checkReadiness_loop cfg (fuel - S n) labelSelector minReady startTime
                                 (polled_instant cfg labelSelector (S n) w)
      else (Val false, polled_instant cfg labelSelector n w).
Proof.
  induction n as [|n IH]; intros w fuel Hfuel Hbefore Hlast;
    (destruct fuel as [|fuel]; [lia|]).
  - cbn [polled_instant] in *. rewrite Nat.sub_succ, Nat.sub_0_r.
    destruct Hlast as [Hans|Hout].
    + apply checkReadiness_loop_answered. exact Hans.
    + rewrite (checkReadiness_loop_outside _ _ _ Hout), Hout. reflexivity.
  - destruct (Hbefore 0%nat) as [Hin [Hans Hen]]; [lia|].
    cbn [polled_instant] in Hin, Hans, Hen.
    rewrite (checkReadiness_loop_answered _ _ _ Hans), Hin, Hen.
    rewrite (IH (next_poll cfg labelSelector w) fuel); [reflexivity|lia| |exact Hlast].
    intros k Hk. apply (Hbefore (S k)). lia.
Qed.

(** The first satisfied instant among those within the window. *)
Lemma first_satisfied (w : W) (n : nat) :
  enough_ready cfg labelSelector minReady (polled_instant cfg labelSelector n w) = true ->
  exists m, (m <= n)%nat
            /\ enough_ready cfg labelSelector minReady (polled_instant cfg labelSelector m w) = true
            /\ forall k, (k < m)%nat -> enough_ready cfg labelSelector minReady (polled_instant cfg labelSelector k w) = false.
Proof.
  induction n as [n IH] using lt_wf_ind. intros Hen.
  destruct (existsb (fun k => enough_ready cfg labelSelector minReady (polled_instant cfg labelSelector k w)) (seq 0 n)) eqn:Hex.
  - apply existsb_exists in Hex. destruct Hex as [k [Hk Hke]].
    apply in_seq in Hk. destruct (IH k) as [m [Hm [Hme Hfirst]]]; [lia|exact Hke|].
    exists m. split; [lia|]. split; assumption.
  - exists n. split; [lia|]. split; [exact Hen|].
    intros k Hk. destruct (enough_ready cfg labelSelector minReady (polled_instant cfg labelSelector k w)) eqn:Hke; [|reflexivity].
    assert (Hc : existsb (fun k => enough_ready cfg labelSelector minReady (polled_instant cfg labelSelector k w)) (seq 0 n) = true).
    { apply existsb_exists. exists k. split; [apply in_seq; lia|exact Hke]. }
    congruence.
Qed.

(** With listings that answer and a clock that every round of poll and
    sleep advances by at least one interval of positive length, the loop ends
    on enough fuel. *)
Lemma checkReadiness_loop_terminates startTime :
  0 < READINESS_CHECK_INTERVAL cfg ->
  (forall w : W, time_time w + READINESS_CHECK_INTERVAL cfg <= time_time (next_poll cfg labelSelector w)) ->
  (forall w : W, poll_answers cfg labelSelector w = true) ->
  forall fuel (w : W),
    READINESS_TIMEOUT cfg - (time_time w - startTime)
    <= Z.of_nat fuel * READINESS_CHECK_INTERVAL cfg ->
    exists b w',
      checkReadiness_loop cfg (S fuel) labelSelector minReady startTime w = (Val b, w').
Proof.
  intros Hpos Hclock Hans. induction fuel as [|fuel IH]; intros w Hfuel;
    rewrite (checkReadiness_loop_answered _ _ _ (Hans w)); unfold within_window.
  - destruct (time_time w - startTime <? READINESS_TIMEOUT cfg) eqn:Hin; [|eauto].
    apply Z.ltb_lt in Hin. lia.
  - destruct (time_time w - startTime <? READINESS_TIMEOUT cfg) eqn:Hin; [|eauto].
    destruct (enough_ready cfg labelSelector minReady w); [eauto|].
    apply IH. specialize (Hclock w). nia.
Qed.

(** C2, as the code has it.  The poller returns true exactly when, at some
    polled instant within the timeout window, the poll finds at least
    [minReady] ready pods, and false exactly when an instant outside the
    window comes first, the polls made until then having been answered.
    When it returns false the time elapsed since the start is at least the
    timeout and less than the timeout plus the duration of the last round of
    poll and sleep; it is at most the timeout plus one interval when a poll
    takes no time and a sleep takes what was asked.  With listings that
    answer and a clock that every round advances by at least one interval of
    positive length, the poller returns.  A poll that finds no pod, or fails
    with [ApiException], counts zero ready pods and is no error. *)
Theorem checkReadiness_polls (w : W) :
  let startTime := time_time w in
  let instant := fun n => polled_instant cfg labelSelector n w in
  let answered := fun n => poll_answers cfg labelSelector (instant n) = true in
  ((exists fuel w', checkReadiness cfg fuel labelSelector minReady w = (Val true, w'))
   <-> (exists n, (forall k, (k <= n)%nat ->
                             within_window cfg startTime (instant k) = true /\ answered k)
                  /\ enough_ready cfg labelSelector minReady (instant n) = true))
  /\ ((exists fuel w', checkReadiness cfg fuel labelSelector minReady w = (Val false, w'))
      <-> (exists n, within_window cfg startTime (instant n) = false
                     /\ forall k, (k < n)%nat ->
                                  within_window cfg startTime (instant k) = true
                                  /\ answered k
                                  /\ enough_ready cfg labelSelector minReady (instant k) = false))
  /\ (forall fuel w',
         checkReadiness cfg fuel labelSelector minReady w = (Val false, w') ->
         READINESS_TIMEOUT cfg <= time_time w' - startTime
         /\ (exists n, w' = instant n
                       /\ forall k, n = S k ->
                                    time_time w' - startTime
                                    < READINESS_TIMEOUT cfg
                                      + (time_time (instant (S k)) - time_time (instant k)))
         /\ ((forall w0, time_time (after_poll cfg labelSelector w0) = time_time w0) ->
             (forall d w0, time_time (time_sleep d w0) = time_time w0 + d) ->
             0 <= READINESS_TIMEOUT cfg ->
             0 <= READINESS_CHECK_INTERVAL cfg ->
             time_time w' - startTime
             <= READINESS_TIMEOUT cfg + READINESS_CHECK_INTERVAL cfg))
  /\ (0 < READINESS_CHECK_INTERVAL cfg ->
      (forall w0, time_time w0 + READINESS_CHECK_INTERVAL cfg <= time_time (next_poll cfg labelSelector w0)) ->
      (forall w0, poll_answers cfg labelSelector w0 = true) ->
      exists fuel b w', checkReadiness cfg fuel labelSelector minReady w = (Val b, w'))
  /\ (readyCount [] = 0
      /\ forall w0,
           fst (list_namespaced_pod (NAMESPACE cfg) labelSelector w0) = Listed []
           \/ fst (list_namespaced_pod (NAMESPACE cfg) labelSelector w0) = ListApiException ->
           _getPodsByLabel cfg labelSelector w0 = (Val [], after_poll cfg labelSelector w0)
           /\ enough_ready cfg labelSelector minReady w0 = (0 >=? minReady)).
Proof.
  cbv zeta. split; [|split; [|split; [|split]]].
  - split.
    + intros [fuel [w' H]]. rewrite checkReadiness_unfold in H.
      apply checkReadiness_loop_ends in H.
      destruct H as [n [_ [Hbefore [Hin [Hans [Hen _]]]]]].
      exists n. split; [|exact Hen].
      intros k Hk. destruct (Nat.eq_dec k n) as [->|Hne]; [auto|].
      destruct (Hbefore k) as [Hkin [Hkans _]]; [lia|auto].
    + intros [n [Hin Hen]].
      destruct (first_satisfied w n Hen) as [m [Hm [Hme Hfirst]]].
      exists (S m), (after_poll cfg labelSelector (polled_instant cfg labelSelector m w)).
      rewrite checkReadiness_unfold, (checkReadiness_loop_reaches (time_time w) m).
      * rewrite (proj1 (Hin m Hm)), Hme. reflexivity.
      * lia.
      * intros k Hk. destruct (Hin k) as [Hkin Hkans]; [lia|].
        split; [exact Hkin|]. split; [exact Hkans|]. apply Hfirst. exact Hk.
      * left. apply (Hin m Hm).
  - split.
    + intros [fuel [w' H]]. rewrite checkReadiness_unfold in H.
      apply checkReadiness_loop_ends in H. destruct H as [n [_ [Hbefore [Hout _]]]].
      exists n. split; assumption.
    + intros [n [Hout Hbefore]].
      exists (S n), (polled_instant cfg labelSelector n w).
      rewrite checkReadiness_unfold, (checkReadiness_loop_reaches (time_time w) n);
        [rewrite Hout; reflexivity|lia|exact Hbefore|right; exact Hout].
  - intros fuel w' H. rewrite checkReadiness_unfold in H.
    apply checkReadiness_loop_ends in H. destruct H as [n [_ [Hbefore [Hout ->]]]].
    unfold within_window in Hout. apply Z.ltb_ge in Hout.
    split; [exact Hout|]. split.
    + exists n. split; [reflexivity|]. intros k ->.
      destruct (Hbefore k) as [Hin _]; [lia|].
      unfold within_window in Hin. apply Z.ltb_lt in Hin. lia.
    + intros Hpoll Hsleep HT HI. destruct n as [|k]; [cbn [polled_instant]; lia|].
      destruct (Hbefore k) as [Hin _]; [lia|].
      unfold within_window in Hin. apply Z.ltb_lt in Hin.
      assert (Hstep : forall j w0, polled_instant cfg labelSelector (S j) w0
                                   = next_poll cfg labelSelector (polled_instant cfg labelSelector j w0)).
      { induction j as [|j IHj]; intros w0; [reflexivity|].
        change (polled_instant cfg labelSelector (S (S j)) w0) with (polled_instant cfg labelSelector (S j) (next_poll cfg labelSelector w0)).
        rewrite IHj. reflexivity. }
      rewrite Hstep. unfold next_poll. rewrite Hsleep, Hpoll. lia.
  - intros Hpos Hclock Hans.
    destruct (checkReadiness_loop_terminates (time_time w) Hpos Hclock Hans
                (Z.to_nat (READINESS_TIMEOUT cfg)) w) as [b [w' H]]; [nia|].
    exists (S (Z.to_nat (READINESS_TIMEOUT cfg))), b, w'.
    rewrite checkReadiness_unfold. exact H.
  - split; [reflexivity|]. intros w0 Hnone.
    rewrite getPodsByLabel_outcome. unfold enough_ready, polled_pods.
    destruct Hnone as [-> | ->]; split; reflexivity.
Qed.

End ReadinessProperties.

(** *** Test collection and the driver [run] *)

Lemma is_test_id_iff (line : string) :
  is_test_id line = true <->
  Py.contains "::" line = true
  /\ Py.startswith "=" line = false
  /\ Py.startswith "-" line = false
  /\ Py.startswith " " line = false.
Proof.
  unfold is_test_id. cbn [existsb]. rewrite orb_false_r.
  rewrite !andb_true_iff, negb_true_iff, !orb_false_iff.
  split; [tauto|]. intros [Hc H]. split; [split; [|exact Hc]|exact H].
  destruct line; [discriminate Hc|reflexivity].
Qed.

Section RunProperties.

Context {W : Type} {E : Env W}.
Variable cfg : Config.
Hypothesis delay_nonneg : 0 <= RETRY_DELAY cfg.
Hypothesis interval_nonneg : 0 <= READINESS_CHECK_INTERVAL cfg.

Lemma getPodName_returns labelSelector (w : W) :
  poll_answers cfg labelSelector w = true ->
  exists o, _getPodName cfg labelSelector w = (Val o, after_poll cfg labelSelector w).
Proof.
  intros Hans. rewrite (getPodName_answered _ _ _ Hans). eauto.
Qed.

(** An attempt of the collection whose listing of the controller does not
    answer ends the collection with what the listing raised. *)
Lemma passTestCases_loop_fault attempt rest (w : W) :
  poll_answers cfg (CONTROLLER_POD_LABEL cfg) w = false ->
  exists r : result (list string),
    passTestCases_loop cfg (attempt :: rest) w
    = (r, after_poll cfg (CONTROLLER_POD_LABEL cfg) w)
    /\ raised_by_listing cfg (CONTROLLER_POD_LABEL cfg) w r.
Proof.
  intros Hans. destruct (getPodName_fault _ _ _ Hans) as [r [Hr Hraised]].
  cbn [passTestCases_loop]. eapply raised_by_listing_bind; eauto.
Qed.

Lemma passTestCases_loop_found attempt rest (w w1 w2 : W) name returnCode stdout stderr :
  _getPodName cfg (CONTROLLER_POD_LABEL cfg) w = (Val (Some name), w1) ->
  Py.nonempty name = true ->
  _execInPod cfg name collect_command None None w1 = (Val (returnCode, stdout, stderr), w2) ->
  passTestCases_loop cfg (attempt :: rest) w
  = match collect_lines stdout with
    | [] => passTestCases_loop cfg rest (after_failed_attempt cfg attempt w2)
    | testCases => (Val testCases, w2)
    end.
Proof.
  intros Hname Hne Hexec. cbn [passTestCases_loop]. unfold bind at 1.
  rewrite Hname. cbn [name_truthy]. rewrite Hne. unfold bind at 1. rewrite Hexec.
  destruct (collect_lines stdout); [|reflexivity].
  unfold after_failed_attempt. munfold. rewrite (nonneg_ltb _ delay_nonneg).
  destruct (attempt <? MAX_RETRIES cfg); reflexivity.
Qed.

Lemma passTestCases_loop_missing attempt rest (w w1 : W) o :
  _getPodName cfg (CONTROLLER_POD_LABEL cfg) w = (Val o, w1) ->
  name_truthy o = false ->
  passTestCases_loop cfg (attempt :: rest) w
  = if attempt <? MAX_RETRIES cfg
    then passTestCases_loop cfg rest (time_sleep (RETRY_DELAY cfg) w1)
    else (Val [], w1).
Proof.
  intros Hname Hfalsy. cbn [passTestCases_loop]. unfold bind at 1.
  rewrite Hname, Hfalsy. munfold. rewrite (nonneg_ltb _ delay_nonneg).
  destruct (attempt <? MAX_RETRIES cfg); reflexivity.
Qed.

(** With listings of the controller that answer, the collection raises
    nothing: it returns a list. *)
Lemma passTestCases_loop_returns attempts :
  (forall w0 : W, poll_answers cfg (CONTROLLER_POD_LABEL cfg) w0 = true) ->
  forall w : W, exists testCases w',
    passTestCases_loop cfg attempts w = (Val testCases, w').
Proof.
  intros Hans.
  induction attempts as [|attempt rest IH]; intros w; [cbn; munfold; eauto|].
  destruct (getPodName_returns (CONTROLLER_POD_LABEL cfg) w (Hans w)) as [o Hname].
  remember (after_poll cfg (CONTROLLER_POD_LABEL cfg) w) as w1 eqn:Hw1.
  destruct (name_truthy o) eqn:Ht.
  - destruct o as [name|]; [|discriminate Ht]. cbn in Ht.
    destruct (execInPod_returns cfg name collect_command None None w1)
      as [rc [out [err [w2 Hexec]]]].
    rewrite (passTestCases_loop_found _ _ _ _ _ _ _ _ _ Hname Ht Hexec).
    destruct (collect_lines out); [apply IH|eauto].
  - rewrite (passTestCases_loop_missing _ _ _ _ _ Hname Ht).
    destruct (attempt <? MAX_RETRIES cfg); [apply IH|eauto].
Qed.

(** When no collection output has a qualifying line, the list is empty. *)
Lemma passTestCases_loop_empty attempts :
  (forall w0 : W, poll_answers cfg (CONTROLLER_POD_LABEL cfg) w0 = true) ->
  (forall name (w0 w1 : W) returnCode stdout stderr,
      _execInPod cfg name collect_command None None w0
      = (Val (returnCode, stdout, stderr), w1) ->
      collect_lines stdout = []) ->
  forall w : W, exists w', passTestCases_loop cfg attempts w = (Val [], w').
Proof.
  intros Hans Hnone. induction attempts as [|attempt rest IH]; intros w;
    [cbn; munfold; eauto|].
  destruct (getPodName_returns (CONTROLLER_POD_LABEL cfg) w (Hans w)) as [o Hname].
  remember (after_poll cfg (CONTROLLER_POD_LABEL cfg) w) as w1 eqn:Hw1.
  destruct (name_truthy o) eqn:Ht.
  - destruct o as [name|]; [|discriminate Ht]. cbn in Ht.
    destruct (execInPod_returns cfg name collect_command None None w1)
      as [rc [out [err [w2 Hexec]]]].
    rewrite (passTestCases_loop_found _ _ _ _ _ _ _ _ _ Hname Ht Hexec).
    rewrite (Hnone _ _ _ _ _ _ Hexec). apply IH.
  - rewrite (passTestCases_loop_missing _ _ _ _ _ Hname Ht).
    destruct (attempt <? MAX_RETRIES cfg); [apply IH|eauto].
Qed.

(** A list that the collection returns is empty, or the identifiers of one
    collection output. *)
Lemma passTestCases_loop_value attempts :
  forall (w w' : W) testCases,
    passTestCases_loop cfg attempts w = (Val testCases, w') ->
    testCases = []
    \/ exists name w0 returnCode stdout stderr,
         _execInPod cfg name collect_command None None w0
         = (Val (returnCode, stdout, stderr), w')
         /\ testCases = collect_lines stdout.
Proof.
  induction attempts as [|attempt rest IH]; intros w w' testCases H.
  - cbn in H. munfold. inversion H. auto.
  - destruct (poll_answers cfg (CONTROLLER_POD_LABEL cfg) w) eqn:Hans.
    2: { destruct (passTestCases_loop_fault attempt rest w Hans) as [r [Hr Hraised]].
         rewrite Hr in H. inversion H; subst r. exfalso.
         exact (raised_by_listing_not_val cfg _ _ _ _ Hraised eq_refl). }
    destruct (getPodName_returns (CONTROLLER_POD_LABEL cfg) w Hans) as [o Hname].
    remember (after_poll cfg (CONTROLLER_POD_LABEL cfg) w) as w1 eqn:Hw1.
    destruct (name_truthy o) eqn:Ht.
    + destruct o as [name|]; [|discriminate Ht]. cbn in Ht.
      destruct (execInPod_returns cfg name collect_command None None w1)
        as [rc [out [err [w2 Hexec]]]].
      rewrite (passTestCases_loop_found _ _ _ _ _ _ _ _ _ Hname Ht Hexec) in H.
      destruct (collect_lines out) as [|line0 lines] eqn:Hlines; [apply (IH _ _ _ H)|].
      inversion H; subst testCases w2. right.
      exists name, w1, rc, out, err. split; [exact Hexec|]. symmetry. exact Hlines.
    + rewrite (passTestCases_loop_missing _ _ _ _ _ Hname Ht) in H.
      destruct (attempt <? MAX_RETRIES cfg); [apply (IH _ _ _ H)|].
      inversion H. auto.
Qed.

Lemma getPodStatus_returns (w : W) :
  (forall labelSelector (w0 : W), poll_answers cfg labelSelector w0 = true) ->
  exists status w', getPodStatus cfg w = (Val status, w').
Proof.
  intros Hans. unfold getPodStatus. unfold bind at 1.
  rewrite (getPodsByLabel_polled _ _ _ (Hans _ _)).
  unfold bind at 1. rewrite (getPodsByLabel_polled _ _ _ (Hans _ _)).
  unfold ret. eauto.
Qed.

Section Stages.

Variable fuel : nat.
Variable helmChartPath : option string.
Variable nodeCount : option Z.
Variable skipDeploy : bool.
Variable valuesFile : option string.

Let count := effectiveNodeCount nodeCount.
Let stage1 := run_deploy cfg helmChartPath count skipDeploy valuesFile.
Let stage2 := checkReadiness cfg fuel (CHROME_NODE_POD_LABEL cfg) count.
Let stage3 := checkReadiness cfg fuel (CONTROLLER_POD_LABEL cfg) 1.
Let driver := run cfg fuel helmChartPath nodeCount skipDeploy valuesFile.

Lemma run_deploy_failed (w w1 : W) :
  stage1 w = (Val false, w1) -> driver w = (Val false, w1).
Proof.
  subst stage1 driver count. intros H. unfold run. unfold bind at 1.
  rewrite H. reflexivity.
Qed.

Lemma run_workers_failed (w w1 w2 : W) :
  stage1 w = (Val true, w1) -> stage2 w1 = (Val false, w2) ->
  driver w = (Val false, w2).
Proof.
  subst stage1 stage2 driver count. intros H1 H2. unfold run. unfold bind at 1.
  rewrite H1. cbn [negb]. unfold bind at 1. rewrite H2. reflexivity.
Qed.

Lemma run_controller_failed (w w1 w2 w3 : W) :
  stage1 w = (Val true, w1) -> stage2 w1 = (Val true, w2) ->
  stage3 w2 = (Val false, w3) ->
  driver w = (Val false, w3).
Proof.
  subst stage1 stage2 stage3 driver count. intros H1 H2 H3.
  unfold run. unfold bind at 1.
  rewrite H1. cbn [negb]. unfold bind at 1. rewrite H2. cbn [negb].
  unfold bind at 1. rewrite H3. reflexivity.
Qed.

(** Past the three checks, [run] reads the status, collects and executes. *)
Lemma run_collected (w w1 w2 w3 w4 w5 : W) status testCases :
  stage1 w = (Val true, w1) -> stage2 w1 = (Val true, w2) ->
  stage3 w2 = (Val true, w3) ->
  getPodStatus cfg w3 = (Val status, w4) ->
  passTestCases cfg w4 = (Val testCases, w5) ->
  driver w = success_of (executeTests cfg "tests/" None w5).
Proof.
  subst stage1 stage2 stage3 driver count. intros H1 H2 H3 H4 H5.
  unfold run. unfold bind at 1.
  rewrite H1. cbn [negb]. unfold bind at 1. rewrite H2. cbn [negb].
  unfold bind at 1. rewrite H3. cbn [negb].
  unfold bind at 1. rewrite H4. unfold bind at 1. rewrite H5.
  unfold bind, ret, success_of.
  destruct (executeTests cfg "tests/" None w5) as [[[success out]|e| |] w6]; reflexivity.
Qed.

Lemma run_executes (w w1 w2 w3 : W) :
  (forall labelSelector (w0 : W), poll_answers cfg labelSelector w0 = true) ->
  stage1 w = (Val true, w1) -> stage2 w1 = (Val true, w2) ->
  stage3 w2 = (Val true, w3) ->
  exists status w4 testCases w5,
    getPodStatus cfg w3 = (Val status, w4)
    /\ passTestCases cfg w4 = (Val testCases, w5)
    /\ driver w = success_of (executeTests cfg "tests/" None w5).
Proof.
  intros Hans H1 H2 H3.
  destruct (getPodStatus_returns w3 Hans) as [status [w4 H4]].
  destruct (passTestCases_loop_returns (Py.range 1 (MAX_RETRIES cfg + 1)) (Hans _) w4)
    as [testCases [w5 H5]].
  exists status, w4, testCases, w5. split; [exact H4|]. split; [exact H5|].
  eapply run_collected; eauto.
Qed.


End Stages.

(** C7: a line of the collection output is a test identifier when, once
    stripped, it has "::" and does not start with "=", "-" or a blank.  An
    attempt whose output has such a line returns the identifiers; one whose
    output has none goes on to the next attempt, after the pause, until the
    attempts run out.  When no collection output has such a line the
    collection returns the empty list: it does return when its listings of
    the controller pod answer, and it never returns another list.  Once the
    three checks of [run] have passed, an empty collection does not stop it:
    its result is the success flag of [executeTests] on the whole tests/
    path. *)
Theorem collection_failure_falls_back :
  (forall stdout line,
      In line (collect_lines stdout) <->
      (exists raw, In raw (Py.split Py.newline stdout)
                   /\ line = Py.strip raw
                   /\ Py.contains "::" line = true
                   /\ Py.startswith "=" line = false
                   /\ Py.startswith "-" line = false
                   /\ Py.startswith " " line = false))
  /\ (forall attempt rest (w w1 w2 : W) name returnCode stdout stderr,
         _getPodName cfg (CONTROLLER_POD_LABEL cfg) w = (Val (Some name), w1) ->
         Py.nonempty name = true ->
         _execInPod cfg name collect_command None None w1
         = (Val (returnCode, stdout, stderr), w2) ->
         (collect_lines stdout <> [] ->
          passTestCases_loop cfg (attempt :: rest) w = (Val (collect_lines stdout), w2))
         /\ (collect_lines stdout = [] ->
             passTestCases_loop cfg (attempt :: rest) w
             = passTestCases_loop cfg rest
                 (if attempt <? MAX_RETRIES cfg then time_sleep (RETRY_DELAY cfg) w2 else w2)))
  /\ ((forall w0 : W, poll_answers cfg (CONTROLLER_POD_LABEL cfg) w0 = true) ->
      (forall name (w0 w1 : W) returnCode stdout stderr,
          _execInPod cfg name collect_command None None w0
          = (Val (returnCode, stdout, stderr), w1) ->
          collect_lines stdout = []) ->
      forall w : W, exists w', passTestCases cfg w = (Val [], w'))
  /\ ((forall name (w0 w1 : W) returnCode stdout stderr,
          _execInPod cfg name collect_command None None w0
          = (Val (returnCode, stdout, stderr), w1) ->
          collect_lines stdout = []) ->
      forall (w w' : W) testCases,
        passTestCases cfg w = (Val testCases, w') -> testCases = [])
  /\ (forall fuel helmChartPath nodeCount skipDeploy valuesFile (w w1 w2 w3 w4 w5 : W) status,
         run_deploy cfg helmChartPath (effectiveNodeCount nodeCount) skipDeploy valuesFile w
         = (Val true, w1) ->
         checkReadiness cfg fuel (CHROME_NODE_POD_LABEL cfg) (effectiveNodeCount nodeCount) w1
         = (Val true, w2) ->
         checkReadiness cfg fuel (CONTROLLER_POD_LABEL cfg) 1 w2 = (Val true, w3) ->
         getPodStatus cfg w3 = (Val status, w4) ->
         passTestCases cfg w4 = (Val [], w5) ->
         run cfg fuel helmChartPath nodeCount skipDeploy valuesFile w
         = success_of (executeTests cfg "tests/" None w5))
  /\ test_command "tests/" None
     = ["python"; "-m"; "pytest"; "tests/"; "-v"; "--tb=short"; "-p"; "no:cacheprovider"].
Proof.
  split; [|split; [|split; [|split; [|split]]]].
  - intros stdout line. unfold collect_lines.
    rewrite filter_In, in_map_iff, is_test_id_iff. split.
    + intros [[raw [Hraw Hin]] Hid]. exists raw. subst line. tauto.
    + intros [raw [Hin [Hline Hid]]]. split; [exists raw; auto|exact Hid].
  - intros attempt rest w w1 w2 name rc out err Hname Hne Hexec.
    rewrite (passTestCases_loop_found _ _ _ _ _ _ _ _ _ Hname Hne Hexec).
    split; intros Hl.
    + destruct (collect_lines out); [congruence|reflexivity].
    + rewrite Hl. reflexivity.
  - intros Hans Hnone w. apply passTestCases_loop_empty; assumption.
  - intros Hnone w w' testCases H.
    destruct (passTestCases_loop_value _ _ _ _ H)
      as [Hnil|[name [w0 [rc [out [err [Hexec Hlines]]]]]]]; [exact Hnil|].
    rewrite Hlines. eapply Hnone. exact Hexec.
  - intros fuel chart nodeCount skip vf w w1 w2 w3 w4 w5 status H1 H2 H3 H4 H5.
    exact (run_collected fuel chart nodeCount skip vf w w1 w2 w3 w4 w5 status []
             H1 H2 H3 H4 H5).
  - reflexivity.
Qed.

(** C8, as the code has it: a failure of the deployment, of the wait for
    the workers or of the wait for the controller ends [run] with failure in
    the world that stage left, so that nothing runs after it and nothing is
    undone.  A failed collection does not end it: when the three stages
    before it have passed and the listings answer, the pods' status is read
    and the collection runs; and whatever list the collection returns, [run]
    goes on to [executeTests], whose success flag is the result.  The
    deployment stage fails exactly when [handleErrors] reports failure for
    [deploy]. *)
Theorem stage_failure_halts_run fuel helmChartPath nodeCount skipDeploy valuesFile (w : W) :
  let count := effectiveNodeCount nodeCount in
  let stage1 := run_deploy cfg helmChartPath count skipDeploy valuesFile in
  let stage2 := checkReadiness cfg fuel (CHROME_NODE_POD_LABEL cfg) count in
  let stage3 := checkReadiness cfg fuel (CONTROLLER_POD_LABEL cfg) 1 in
  let driver := run cfg fuel helmChartPath nodeCount skipDeploy valuesFile in
  (forall w1, stage1 w = (Val false, w1) -> driver w = (Val false, w1))
  /\ (forall w1 w2, stage1 w = (Val true, w1) -> stage2 w1 = (Val false, w2) ->
                    driver w = (Val false, w2))
  /\ (forall w1 w2 w3, stage1 w = (Val true, w1) -> stage2 w1 = (Val true, w2) ->
                       stage3 w2 = (Val false, w3) -> driver w = (Val false, w3))
  /\ ((forall labelSelector (w0 : W), poll_answers cfg labelSelector w0 = true) ->
      forall w1 w2 w3, stage1 w = (Val true, w1) -> stage2 w1 = (Val true, w2) ->
                       stage3 w2 = (Val true, w3) ->
                       exists status w4 testCases w5,
                         getPodStatus cfg w3 = (Val status, w4)
                         /\ passTestCases cfg w4 = (Val testCases, w5)
                         /\ driver w = success_of (executeTests cfg "tests/" None w5))
  /\ (forall w1 w2 w3 w4 w5 status testCases,
         stage1 w = (Val true, w1) -> stage2 w1 = (Val true, w2) ->
         stage3 w2 = (Val true, w3) ->
         getPodStatus cfg w3 = (Val status, w4) ->
         passTestCases cfg w4 = (Val testCases, w5) ->
         driver w = success_of (executeTests cfg "tests/" None w5))
  /\ (forall w1, stage1 w = (Val false, w1) ->
                 skipDeploy = false
                 /\ exists path payload,
                      helmChartPath = Some path
                      /\ handleErrors cfg "deploy"
                           (bind (deploy cfg path count valuesFile) (fun b => ret (VBool b))) w
                         = (Val (false, payload), w1)).
Proof.
  cbv zeta. split; [|split; [|split; [|split; [|split]]]].
  - apply run_deploy_failed.
  - apply run_workers_failed.
  - apply run_controller_failed.
  - intros Hans w1 w2 w3. apply run_executes. exact Hans.
  - intros w1 w2 w3 w4 w5 status testCases. apply run_collected.
  - intros w1. unfold run_deploy.
    destruct skipDeploy; cbn [negb andb]; [munfold; intros H; discriminate H|].
    destruct helmChartPath as [path|]; cbn [name_truthy];
      [|munfold; intros H; discriminate H].
    destruct (Py.nonempty path); [|munfold; intros H; discriminate H].
    unfold bind at 1.
    destruct (handleErrors cfg "deploy" _ w) as [[[success payload]|e| |] w0] eqn:Hh;
      try (intros H; discriminate H).
    unfold ret. intros H. inversion H; subst success w0.
    split; [reflexivity|]. exists path, payload. split; [reflexivity|exact Hh].
Qed.




End RunProperties.

(** *** Runs on concrete clusters *)

Lemma default_delay_nonneg : 0 <= RETRY_DELAY default_config.
Proof. discriminate. Qed.

Lemma default_interval_nonneg : 0 <= READINESS_CHECK_INTERVAL default_config.
Proof. discriminate. Qed.

(** The listings of a [cluster] always answer. *)
Lemma cluster_listings_answer workers bodies collected tested helm list_cost
      (cfg : Config) labelSelector (w : Counters) :
  poll_answers (E := scenario_env (cluster workers bodies collected tested helm list_cost))
               cfg labelSelector w = true.
Proof.
  unfold poll_answers. cbn.
  destruct (String.eqb labelSelector "app=test-case-controller"); [reflexivity|].
  destruct (String.eqb labelSelector "app=chrome-node"); reflexivity.
Qed.

(** C1, the status body with no node: the only worker is ready and its
    status body lists no node, so the body has no slot at all; the selector
    returns the worker, whose occupied slots (0) are not fewer than its
    slots (0). *)
Lemma selector_returns_pod_of_no_slots :
  _getAvailableChromeNode (E := scenario_env worker_without_nodes) default_config start_world
  = (Val (Some (chrome_node_dns "0")), world 0 2 1 0 0)
  /\ sc_exec worker_without_nodes "test-case-controller-0"
             (probe_command (chrome_node_dns "0") 4444) 0
     = ExecCompleted 0 (render (status_body true [])) ""
  /\ sc_json worker_without_nodes (render (status_body true []))
     = Some (status_body true [])
  /\ occupied_slots (status_body true []) = 0
  /\ total_slots (status_body true []) = 0
  /\ total_slots (status_body true []) <= occupied_slots (status_body true []).
Proof.
  repeat split; try (vm_compute; reflexivity). vm_compute. discriminate.
Qed.

Lemma selector_returns_ready_free_pod_on_three_workers :
  exists pod stdout body st,
    _isPodReady pod = true
    /\ chrome_node_dns "1" = _getChromeNodeDns default_config (metadata_name pod)
    /\ sc_json three_workers stdout = Some body
    /\ status_of_body body = Some st
    /\ occupied_slots body < maxSessions st.
Proof.
  assert (H : _getAvailableChromeNode (E := scenario_env three_workers)
                default_config start_world
              = (Val (Some (chrome_node_dns "1")), world 0 2 2 0 0))
    by (vm_compute; reflexivity).
  destruct (selector_returns_ready_free_pod default_config _ _ _ H)
    as [controller [w1 [pods [w2 [pod [w3 [stdout [stderr [body [st
         [_ [_ [Hdns [Hready [_ [_ [_ [Hjson [Hst [_ [_ [Hroom _]]]]]]]]]]]]]]]]]]]]]].
  exists pod, stdout, body, st. repeat split; assumption.
Defined.

(** C2, a slow cluster API: with the timeout at 300 ticks and the interval
    at 5, a first poll that takes 400 ticks makes the poller return false
    after 405 ticks, more than the timeout plus one interval. *)
Lemma checkReadiness_outlasts_timeout_plus_interval :
  checkReadiness (E := scenario_env slow_api) default_config 10 "app=chrome-node" 1
                 start_world
  = (Val false, world 405 1 0 0 1)
  /\ READINESS_TIMEOUT default_config + READINESS_CHECK_INTERVAL default_config
     < clock (world 405 1 0 0 1) - clock start_world.
Proof.
  split; vm_compute; reflexivity.
Qed.

Lemma checkReadiness_polls_without_workers :
  checkReadiness (E := scenario_env no_workers) default_config 100 "app=chrome-node" 1
                 start_world
  = (Val false, world 300 60 0 0 60)
  /\ clock (world 300 60 0 0 60) - clock start_world
     <= READINESS_TIMEOUT default_config + READINESS_CHECK_INTERVAL default_config
  /\ exists fuel b w',
       checkReadiness (E := scenario_env no_workers) default_config fuel "app=chrome-node" 1
                      start_world
       = (Val b, w').
Proof.
  assert (H : checkReadiness (E := scenario_env no_workers) default_config 100
                "app=chrome-node" 1 start_world
              = (Val false, world 300 60 0 0 60))
    by (vm_compute; reflexivity).
  split; [exact H|].
  destruct (checkReadiness_polls (E := scenario_env no_workers) default_config
              default_interval_nonneg "app=chrome-node" 1 start_world)
    as [_ [_ [Hbound [Hreturns _]]]].
  split.
  - destruct (Hbound _ _ H) as [_ [_ Hideal]].
    apply Hideal.
    + intros w0. cbn. apply Z.add_0_r.
    + intros d w0. reflexivity.
    + vm_compute. discriminate.
    + vm_compute. discriminate.
  - apply Hreturns.
    + reflexivity.
    + intros w0. cbn. lia.
    + intros w0. apply cluster_listings_answer.
Defined.

Lemma handleErrors_retries_flaky_operation :
  exists v w',
    handleErrors (E := counting_env (scenario_env no_workers)) default_config "deploy"
                 (counted flaky_operation) (start_world, 0%nat)
    = (Val (true, v), (w', 3%nat)).
Proof.
  destruct (handleErrors_retries (E := scenario_env no_workers) default_config
              default_delay_nonneg "deploy" flaky_operation start_world)
    as [Hsucceeds _].
  destruct (Hsucceeds 3%nat) as [wK [v [w' [_ Hrun]]]].
  - cbn. lia.
  - intros n w0 Hn. destruct n as [|[|n]]; [exact eq_refl|exact I|lia].
  - intros w0. exact eq_refl.
  - exists v, w'. exact Hrun.
Defined.

Lemma selector_first_fit_on_three_workers :
  exists w',
    _getAvailableChromeNode (E := scenario_env three_workers) default_config start_world
    = (Val (Some (chrome_node_dns "1")), w').
Proof.
  destruct (selector_first_fit (E := scenario_env three_workers) default_config
              start_world (world 0 1 0 0 0) (world 0 2 0 0 0)
              "test-case-controller-0"
              [running_pod "chrome-node-0"; running_pod "chrome-node-1";
               pending_pod "chrome-node-2"]
              eq_refl eq_refl eq_refl) as [_ [_ [_ [_ Hscenario]]]].
  apply (Hscenario (running_pod "chrome-node-0") (running_pod "chrome-node-1")
                   (pending_pod "chrome-node-2")).
  - apply Permutation_refl.
  - reflexivity.
  - reflexivity.
  - reflexivity.
  - intros w3. eexists. eexists. split; [lazy; reflexivity|]. split; reflexivity.
  - intros w3. eexists. eexists. split; [lazy; reflexivity|]. repeat split.
Defined.

Lemma executeTests_attempt_outcome_on_passing_tests :
  executeTests_loop (E := scenario_env three_workers) default_config
                    "test-case-controller-0" (test_command "tests/" None)
                    (remote_env "1") [1; 2; 3] None (world 0 3 2 0 0)
  = (Val (true, "3 passed in 41.20s"), world 0 3 3 0 0).
Proof.
  apply (executeTests_attempt_outcome (E := scenario_env three_workers) default_config
           default_delay_nonneg "test-case-controller-0" (test_command "tests/" None) (remote_env "1")
           1 [2; 3] None (world 0 3 2 0 0) (world 0 3 3 0 0)
           0 "3 passed in 41.20s" "" eq_refl).
  left. reflexivity.
Defined.

(** C6, the text of the claim: the test command ends with code 1 and
    prints "Tests passed, 0 failed" on each of the three attempts;
    [executeTests] reports failure. *)
Lemma zero_failed_text_is_reported_as_failure :
  _execInPod (E := scenario_env (exit_one_with "Tests passed, 0 failed")) default_config
             "test-case-controller-0" (test_command "tests/" None) None
             (Some (remote_env "0")) (world 0 3 1 0 0)
  = (Val (1, "Tests passed, 0 failed", ""), world 0 3 2 0 0)
  /\ executeTests (E := scenario_env (exit_one_with "Tests passed, 0 failed"))
                  default_config "tests/" None start_world
     = (Val (false, "Tests passed, 0 failed"), world 20 3 4 0 2).
Proof.
  split; vm_compute; reflexivity.
Qed.

Lemma executeTests_text_fallback_on_passed_text :
  executeTests_loop (E := scenario_env (exit_one_with "3 passed in 1.2s")) default_config
                    "test-case-controller-0" (test_command "tests/" None)
                    (remote_env "0") [1; 2; 3] None (world 0 3 1 0 0)
  = (Val (true, "3 passed in 1.2s"), world 0 3 2 0 0).
Proof.
  destruct (executeTests_text_fallback
              (E := scenario_env (exit_one_with "3 passed in 1.2s")) default_config
              default_delay_nonneg
              "test-case-controller-0" (test_command "tests/" None) (remote_env "0")
              1 [2; 3] None (world 0 3 1 0 0) (world 0 3 2 0 0)
              1 "3 passed in 1.2s" "" eq_refl) as [_ [Htext _]].
  - discriminate.
  - destruct Htext as [_ Hrun]; [reflexivity|reflexivity|exact Hrun].
Defined.

Lemma collection_failure_falls_back_on_empty_collection :
  passTestCases (E := scenario_env nothing_collected) default_config (world 0 4 0 0 0)
  = (Val [], world 20 7 3 0 2)
  /\ (forall w, exists w',
         passTestCases (E := scenario_env nothing_collected) default_config w = (Val [], w'))
  /\ run (E := scenario_env nothing_collected) default_config 100 None None true None
         start_world
     = (Val true, world 20 10 5 0 2).
Proof.
  assert (Hcollect : passTestCases (E := scenario_env nothing_collected) default_config
                       (world 0 4 0 0 0) = (Val [], world 20 7 3 0 2))
    by (vm_compute; reflexivity).
  split; [exact Hcollect|].
  destruct (collection_failure_falls_back (E := scenario_env nothing_collected)
              default_config default_delay_nonneg) as [_ [_ [Hempty [_ [Hrun _]]]]].
  split.
  { apply Hempty.
    - intros w0. apply cluster_listings_answer.
    - intros name w0 w1 rc out err Hexec.
      unfold _execInPod in Hexec. munfold. cbn in Hexec.
      inversion Hexec. reflexivity. }
  rewrite (Hrun 100%nat None None true None start_world start_world (world 0 1 0 0 0)
             (world 0 2 0 0 0) (world 0 4 0 0 0) (world 20 7 3 0 2)
             {| status_namespace := "insider-testops";
                testCaseController := [pod_entry controller_pod];
                chromeNodes := [pod_entry (running_pod "chrome-node-0")] |}
             eq_refl eq_refl eq_refl eq_refl Hcollect).
  vm_compute. reflexivity.
Defined.

(** C8, a failed collection: the deployment and the two waits pass, the
    collection finds no test on any of its three attempts and returns the
    empty list, and [run] goes on to execute the tests and reports
    success. *)
Lemma failed_collection_does_not_halt_run :
  passTestCases (E := scenario_env nothing_collected) default_config (world 0 4 0 1 0)
  = (Val [], world 20 7 3 1 2)
  /\ executeTests (E := scenario_env nothing_collected) default_config "tests/" None
                  (world 20 7 3 1 2)
     = (Val (true, "3 passed in 41.20s"), world 20 10 5 1 2)
  /\ run (E := scenario_env nothing_collected) default_config 100
         (Some "./helm/insider-testops") (Some 1) false None start_world
     = (Val true, world 20 10 5 1 2).
Proof.
  repeat split; vm_compute; reflexivity.
Qed.

Lemma stage_failure_halts_run_without_workers :
  run (E := scenario_env no_workers) default_config 100 None (Some 1) true None start_world
  = (Val false, world 300 60 0 0 60)
  /\ exists status w4 testCases w5,
       getPodStatus (E := scenario_env nothing_collected) default_config (world 0 2 0 0 0)
       = (Val status, w4)
       /\ passTestCases (E := scenario_env nothing_collected) default_config w4
          = (Val testCases, w5)
       /\ run (E := scenario_env nothing_collected) default_config 100 None (Some 1) true
              None start_world
          = success_of (executeTests (E := scenario_env nothing_collected) default_config
                                     "tests/" None w5).
Proof.
  split.
  - destruct (stage_failure_halts_run (E := scenario_env no_workers) default_config
                default_delay_nonneg 100 None (Some 1) true None start_world)
      as [_ [Hworkers _]].
    apply (Hworkers start_world); vm_compute; reflexivity.
  - destruct (stage_failure_halts_run (E := scenario_env nothing_collected) default_config
                default_delay_nonneg 100 None (Some 1) true None start_world)
      as [_ [_ [_ [Hgoes_on _]]]].
    apply (Hgoes_on (fun labelSelector w0 => cluster_listings_answer _ _ _ _ _ _ _ _ _)
                    start_world (world 0 1 0 0 0) (world 0 2 0 0 0));
      vm_compute; reflexivity.
Defined.

Lemma validateNodeCount_clamps_nine :
  fst (_validateNodeCount 9) = MAX_NODE_COUNT
  /\ exists msg, snd (_validateNodeCount 9) = [(WARNING, msg)].
Proof.
  destruct (validateNodeCount_clamps (E := scenario_env no_workers) default_config 9)
    as [_ [_ [Habove _]]].
  apply Habove. reflexivity.
Defined.


(** ** Further properties of the orchestrator *)

(** *** [_runCommand] and [deploy] *)

Section DeployOutcome.

Context {W : Type} {E : Env W}.
Variable cfg : Config.
Hypothesis delay_nonneg : 0 <= RETRY_DELAY cfg.


End DeployOutcome.

(** X2: when the chart exists and no helm run ends with code 0, [deploy]
    gives up after exactly [MAX_RETRIES] runs of helm, having slept
    [RETRY_DELAY] between two runs and not after the last one. *)
Theorem deploy_exhausts_retries (s : Scenario) (cfg : Config) helmChartPath nodeCount
        valuesFile (w : Counters) :
  0 <= RETRY_DELAY cfg ->
  sc_exists s helmChartPath = true ->
  (forall command k, run_ok (sc_run s command k) = false) ->
  let runs := Z.to_nat (MAX_RETRIES cfg) in
  deploy (E := scenario_env s) cfg helmChartPath nodeCount valuesFile w
  = (Val false,
     {| clock := clock w + RETRY_DELAY cfg * Z.of_nat (runs - 1);
        n_list := n_list w;
        n_exec := n_exec w;
        n_run := (n_run w + runs)%nat;
        n_sleep := (n_sleep w + (runs - 1))%nat |}).
Proof.
  intros Hdelay Hchart Hfail. cbv zeta.
  unfold deploy. munfold. cbn [os_path_exists scenario_env]. rewrite Hchart. cbn [negb].
  match goal with |- deploy_loop cfg ?c _ w = _ => generalize c end. intros command.
  assert (Hloop : forall len lo (w0 : Counters),
             lo + Z.of_nat len = MAX_RETRIES cfg + 1 ->
             deploy_loop (E := scenario_env s) cfg command (Py.range lo (MAX_RETRIES cfg + 1)) w0
             = (Val false,
                {| clock := clock w0 + RETRY_DELAY cfg * Z.of_nat (len - 1);
                   n_list := n_list w0;
                   n_exec := n_exec w0;
                   n_run := (n_run w0 + len)%nat;
                   n_sleep := (n_sleep w0 + (len - 1))%nat |})).
  { induction len as [|len IH]; intros lo w0 Hlo.
    - rewrite range_nil by lia. cbn. destruct w0; cbn.
      rewrite Z.mul_0_r, Z.add_0_r, !Nat.add_0_r. reflexivity.
    - rewrite range_cons by lia.
      erewrite (deploy_loop_step (E := scenario_env s) cfg Hdelay); [|reflexivity].
      rewrite Hfail. unfold after_failed_attempt.
      destruct (lo <? MAX_RETRIES cfg) eqn:Hlast.
      + apply Z.ltb_lt in Hlast. rewrite IH by lia. cbn.
        destruct len as [|len]; [lia|].
        f_equal. f_equal; lia.
      + apply Z.ltb_ge in Hlast. rewrite IH by lia. cbn.
        assert (len = 0%nat) by lia. subst len. cbn.
        f_equal. f_equal; lia. }
  destruct (Z.le_gt_cases 0 (MAX_RETRIES cfg)) as [Hmax|Hmax].
  - apply Hloop. lia.
  - rewrite range_nil by lia. replace (Z.to_nat (MAX_RETRIES cfg)) with 0%nat by lia.
    cbn. destruct w; cbn. rewrite Z.mul_0_r, Z.add_0_r, !Nat.add_0_r. reflexivity.
Qed.

(** *** [handleErrors] on values that are neither a [bool] nor a tuple *)

Section RetryEdges.

Context {W : Type} {E : Env W}.
Variable cfg : Config.
Hypothesis delay_nonneg : 0 <= RETRY_DELAY cfg.

(** X3: only [False] and a tuple with a falsy first element count as a
    failed return.  When the first call of the callable returns anything
    else, be it [None], the integer 0, an empty string, an empty list or the
    empty tuple, [handleErrors] reports success with that value after this
    one call, and does not sleep. *)
Theorem handleErrors_accepts_other_values operation (op : M W PyVal) (w w1 : W) v :
  1 <= MAX_RETRIES cfg ->
  op w = (Val v, w1) ->
  (v <> VBool false /\ forall first rest, v = VTuple (first :: rest) -> py_truthy first = true) ->
  handleErrors cfg operation op w = (Val (true, v), w1)
  /\ value_fails VNone = false /\ value_fails (VInt 0) = false
  /\ value_fails (VStr "") = false /\ value_fails (VList []) = false
  /\ value_fails (VTuple []) = false.
Proof.
  intros Hmax Hop [Hbool Htuple]. split; [|repeat split].
  unfold handleErrors. rewrite range_cons by lia.
  rewrite (handleErrors_loop_step cfg delay_nonneg operation _ _ _ _ _ _ Hop).
  assert (Hv : value_fails v = false).
  { destruct v as [|[|]|z|s|[|first l]|l]; try reflexivity.
    - congruence.
    - cbn. rewrite (Htuple first l eq_refl). reflexivity. }
  rewrite Hv. reflexivity.
Qed.

(** X4: with [MAX_RETRIES] below 1 the retry loops have no attempt: the
    wrapper reports failure with [None] and never calls the callable, the
    collection returns the empty list, and [deploy] on an existing chart
    reports failure; none of them touches the world. *)
Theorem no_attempt_below_one_retry operation (op : M W PyVal) helmChartPath nodeCount
        valuesFile (w : W) :
  MAX_RETRIES cfg < 1 ->
  handleErrors cfg operation op w = (Val (false, VNone), w)
  /\ passTestCases cfg w = (Val [], w)
  /\ deploy cfg helmChartPath nodeCount valuesFile w = (Val false, w).
Proof.
  intros Hmax. unfold handleErrors, passTestCases, deploy.
  rewrite !range_nil by lia. split; [reflexivity|]. split; [reflexivity|].
  munfold. destruct (os_path_exists helmChartPath w); reflexivity.
Qed.




(** X6: with [MAX_RETRIES] below 1, [executeTests] that finds the
    controller pod and an available worker does not report failure: its loop
    has no pass, the statement after it reads [stdout], which no pass has
    bound, and the method raises. *)
Theorem executeTests_raises_without_attempt testPath specificTests (w w1 w2 : W)
        name dnsName :
  MAX_RETRIES cfg < 1 ->
  _getPodName cfg (CONTROLLER_POD_LABEL cfg) w = (Val (Some name), w1) ->
  Py.nonempty name = true ->
  _getAvailableChromeNode cfg w1 = (Val (Some dnsName), w2) ->
  Py.nonempty dnsName = true ->
  executeTests cfg testPath specificTests w = (Exc "UnboundLocalError: stdout", w2).
Proof.
  intros Hmax Hname Hne Hnode Hdns. unfold executeTests. unfold bind at 1.
  rewrite Hname. cbn [name_truthy]. rewrite Hne.
  unfold bind at 1. rewrite Hnode. cbn [name_truthy]. rewrite Hdns.
  rewrite range_nil by lia. reflexivity.
Qed.

(** X7: a failure that [executeTests_loop] reports after an attempt carries
    the output of an attempt that failed: its stdout, or its stderr when the
    stdout is empty; that attempt ended with a code other than 0 and an
    output that does not say passed. *)
Theorem executeTests_failure_payload name command envVars attempts :
  forall last (w w' : W) payload,
    attempts <> [] ->
    executeTests_loop cfg name command envVars attempts last w = (Val (false, payload), w') ->
    exists w0 w1 returnCode stdout stderr,
      _execInPod cfg name command None (Some envVars) w0
      = (Val (returnCode, stdout, stderr), w1)
      /\ returnCode <> 0
      /\ output_says_passed stdout = false
      /\ payload = if Py.nonempty stdout then stdout else stderr.
Proof.
  induction attempts as [|attempt rest IH]; intros last w w' payload Hne H; [congruence|].
  destruct (execInPod_returns cfg name command None (Some envVars) w)
    as [rc [out [err [w1 Hexec]]]].
  rewrite (executeTests_loop_step cfg delay_nonneg _ _ _ _ _ _ _ _ _ _ _ Hexec) in H.
  destruct (rc =? 0) eqn:Hrc; [discriminate H|].
  destruct (output_says_passed out) eqn:Hout; [discriminate H|]. cbn [orb] in H.
  destruct rest as [|attempt2 rest2].
  - cbn in H. munfold. inversion H; subst payload.
    exists w, w1, rc, out, err. apply Z.eqb_neq in Hrc. auto.
  - eapply IH; [discriminate|exact H].
Qed.

End RetryEdges.

(** *** What the collection returns, and the edges of the poller *)

Section CollectionAndPolling.

Context {W : Type} {E : Env W}.
Variable cfg : Config.
Hypothesis delay_nonneg : 0 <= RETRY_DELAY cfg.
Hypothesis interval_nonneg : 0 <= READINESS_CHECK_INTERVAL cfg.

(** X8: whatever the controller pod prints, every element of the list
    that [passTestCases] returns is a test identifier: it has "::" and does
    not start with "=", "-" or a blank; and the list is the whole list of
    identifiers of one collection output, in the order of its lines. *)
Theorem passTestCases_returns_identifiers (w w' : W) testCases :
  passTestCases cfg w = (Val testCases, w') ->
  (forall line, In line testCases ->
                Py.contains "::" line = true
                /\ Py.startswith "=" line = false
                /\ Py.startswith "-" line = false
                /\ Py.startswith " " line = false)
  /\ (testCases <> [] ->
      exists name w0 returnCode stdout stderr,
        _execInPod cfg name collect_command None None w0
        = (Val (returnCode, stdout, stderr), w')
        /\ testCases = collect_lines stdout).
Proof.
  unfold passTestCases. generalize (Py.range 1 (MAX_RETRIES cfg + 1)). intros attempts.
  revert w. induction attempts as [|attempt rest IH]; intros w H.
  - cbn in H. munfold. inversion H; subst testCases.
    split; [intros line []|congruence].
  - destruct (poll_answers cfg (CONTROLLER_POD_LABEL cfg) w) eqn:Hans.
    2: { destruct (passTestCases_loop_fault cfg attempt rest w Hans) as [r [Hr Hraised]].
         rewrite Hr in H. inversion H; subst r. exfalso.
         exact (raised_by_listing_not_val cfg _ _ _ _ Hraised eq_refl). }
    destruct (getPodName_returns cfg (CONTROLLER_POD_LABEL cfg) w Hans) as [o Hname].
    remember (after_poll cfg (CONTROLLER_POD_LABEL cfg) w) as w1 eqn:Hw1.
    destruct (name_truthy o) eqn:Ht.
    + destruct o as [name|]; [|discriminate Ht]. cbn in Ht.
      destruct (execInPod_returns cfg name collect_command None None w1)
        as [rc [out [err [w2 Hexec]]]].
      rewrite (passTestCases_loop_found cfg delay_nonneg _ _ _ _ _ _ _ _ _ Hname Ht Hexec)
        in H.
      destruct (collect_lines out) as [|line0 lines] eqn:Hlines; [apply (IH _ H)|].
      inversion H; subst testCases w2. split.
      * intros line Hin. apply is_test_id_iff. rewrite <- Hlines in Hin.
        unfold collect_lines in Hin. apply filter_In in Hin. apply Hin.
      * intros _. exists name, w1, rc, out, err. auto.
    + rewrite (passTestCases_loop_missing cfg delay_nonneg _ _ _ _ _ Hname Ht) in H.
      destruct (attempt <? MAX_RETRIES cfg); [apply (IH _ H)|].
      inversion H; subst testCases. split; [intros line []|congruence].
Qed.

(** X9: the two edges of the poller.  With a timeout that is not positive
    it returns false at once, without a single poll; with a positive timeout
    and a threshold that is not positive it returns true after its first
    poll, whatever pods that poll finds, when the listing answers. *)
Theorem checkReadiness_edges labelSelector minReady fuel (w : W) :
  (READINESS_TIMEOUT cfg <= 0 ->
   checkReadiness cfg (S fuel) labelSelector minReady w = (Val false, w))
  /\ (0 < READINESS_TIMEOUT cfg -> minReady <= 0 ->
      poll_answers cfg labelSelector w = true ->
      checkReadiness cfg (S fuel) labelSelector minReady w
      = (Val true, after_poll cfg labelSelector w)).
Proof.
  rewrite checkReadiness_unfold. split.
  - intros HT. apply (checkReadiness_loop_outside cfg interval_nonneg).
    unfold within_window. rewrite Z.sub_diag. apply Z.ltb_ge. exact HT.
  - intros HT Hmin Hans.
    rewrite (checkReadiness_loop_answered cfg interval_nonneg _ _ _ _ _ Hans).
    unfold within_window. rewrite Z.sub_diag.
    apply Z.ltb_lt in HT. rewrite HT.
    unfold enough_ready, readyCount.
    replace (_ >=? minReady) with true; [reflexivity|].
    symmetry. apply Z.geb_le. lia.
Qed.

(** The ready pods of a list are at most its pods. *)
Lemma readyCount_bounds (pods : list Pod) :
  0 <= readyCount pods <= Z.of_nat (List.length pods).
Proof.
  unfold readyCount. pose proof (filter_length_le _isPodReady pods). lia.
Qed.

(** X10: a poller asked for more ready pods than the listing ever has
    pods never returns true. *)
Theorem checkReadiness_needs_enough_pods labelSelector minReady fuel (w w' : W) :
  (forall w0, Z.of_nat (List.length (polled_pods cfg labelSelector w0)) < minReady) ->
  checkReadiness cfg fuel labelSelector minReady w <> (Val true, w').
Proof.
  intros Hfew H. rewrite checkReadiness_unfold in H.
  apply (checkReadiness_loop_ends cfg interval_nonneg) in H.
  destruct H as [n [_ [_ [_ [_ [Hen _]]]]]].
  unfold enough_ready in Hen. rewrite Z.geb_le in Hen.
  pose proof (readyCount_bounds (polled_pods cfg labelSelector
                                   (polled_instant cfg labelSelector n w))) as Hb.
  specialize (Hfew (polled_instant cfg labelSelector n w)). lia.
Qed.

(** X20: the poller has no handler for what the listing raises.  When the
    polls before the instant [n] were answered and found too few ready pods,
    and the poll of the instant [n], still within the window, is not
    answered, the poller returns neither true nor false: it ends with what
    that listing raised, a fault of the connection or an interrupt, in the
    world the listing left, without another sleep. *)
Theorem checkReadiness_ends_with_listing_fault labelSelector minReady (n : nat) :
  forall fuel (w : W),
    let instant := fun k => polled_instant cfg labelSelector k w in
    (n < fuel)%nat ->
    (forall k, (k < n)%nat ->
               within_window cfg (time_time w) (instant k) = true
               /\ poll_answers cfg labelSelector (instant k) = true
               /\ enough_ready cfg labelSelector minReady (instant k) = false) ->
    within_window cfg (time_time w) (instant n) = true ->
    poll_answers cfg labelSelector (instant n) = false ->
    exists r : result bool,
      checkReadiness cfg fuel labelSelector minReady w
      = (r, after_poll cfg labelSelector (instant n))
      /\ raised_by_listing cfg labelSelector (instant n) r
      /\ r <> Val true /\ r <> Val false.
Proof.
  intros fuel w. cbv zeta. rewrite checkReadiness_unfold.
  generalize (time_time w) as startTime. intros startTime.
  revert fuel w. induction n as [|n IH]; intros fuel w Hfuel Hbefore Hin Hans;
    (destruct fuel as [|fuel]; [lia|]).
  - cbn [polled_instant] in *.
    destruct (checkReadiness_loop_fault cfg interval_nonneg labelSelector minReady
                fuel startTime w Hin Hans) as [r [Hr Hraised]].
    exists r. split; [exact Hr|]. split; [exact Hraised|].
    split; apply (raised_by_listing_not_val cfg _ _ _ _ Hraised).
  - destruct (Hbefore 0%nat) as [Hin0 [Hans0 Hen0]]; [lia|].
    cbn [polled_instant] in Hin0, Hans0, Hen0.
    rewrite (checkReadiness_loop_answered cfg interval_nonneg _ _ _ _ _ Hans0), Hin0, Hen0.
    cbn [polled_instant]. apply IH; [lia| |exact Hin|exact Hans].
    intros k Hk. apply (Hbefore (S k)). lia.
Qed.

(** X11: the selector probes cluster-ready pods only: when no listed pod
    is cluster-ready its loop returns none and leaves the world as it found
    it, so that no status endpoint was asked. *)
Theorem select_loop_skips_unready controller pods (w : W) :
  (forall pod, In pod pods -> _isPodReady pod = false) ->
  select_loop cfg controller pods w = (Val None, w).
Proof.
  induction pods as [|pod rest IH]; intros Hnone; [reflexivity|].
  cbn [select_loop]. rewrite (Hnone pod (or_introl eq_refl)). cbn [negb].
  apply IH. intros p Hp. apply Hnone. right. exact Hp.
Qed.

End CollectionAndPolling.

(** *** The status body *)

Lemma occupied_in_app (l1 l2 : list json) :
  occupied_in (l1 ++ l2) = occupied_in l1 + occupied_in l2.
Proof.
  unfold occupied_in. induction l1 as [|x l1 IH]; cbn [app map fold_right]; lia.
Qed.

Lemma scan_nodes_last (nodes : list json) :
  forall (last : json) (a m a' m' : Z),
    scan_nodes (nodes ++ [last]) a m = Some (a', m') ->
    m' = Z.of_nat (List.length (node_slots last)).
Proof.
  induction nodes as [|node rest IH]; intros last a m a' m' H.
  - cbn [app scan_nodes] in H. unfold obind in H.
    destruct (Json.get last "slots" (JArr [])) as [slots|] eqn:Hget; [|discriminate].
    destruct (Json.len slots) as [n|] eqn:Hlen; [|discriminate].
    destruct (Json.iter slots) as [l|] eqn:Hiter; [|discriminate].
    destruct (count_slots l a) as [a1|] eqn:Hcount; [|discriminate].
    destruct (node_step _ _ _ _ _ _ Hget Hlen Hiter Hcount) as [Hn _].
    inversion H. congruence.
  - cbn [app scan_nodes] in H. unfold obind in H.
    destruct (Json.get node "slots" (JArr [])) as [slots|]; [|discriminate].
    destruct (Json.len slots) as [n|]; [|discriminate].
    destruct (Json.iter slots) as [l|]; [|discriminate].
    destruct (count_slots l a) as [a1|]; [|discriminate].
    eapply IH. exact H.
Qed.

(** X12: for a status body with several nodes, the capacity the probe
    computes is the slot count of the node listed last, not the sum over the
    nodes, while the sessions are the occupied slots of all nodes; the pod is
    available exactly when the body says ready and the occupied slots of all
    its nodes are fewer than the slots of its last node. *)
Theorem status_capacity_is_last_node (data : json) (st : NodeStatus) nodes last :
  status_of_body data = Some st ->
  body_nodes data = (nodes ++ [last])%list ->
  maxSessions st = Z.of_nat (List.length (node_slots last))
  /\ sessions st = occupied_in nodes + occupied_in [last]
  /\ Json.truthy (available st)
     = Json.truthy (status_ready st)
       && (occupied_in nodes + occupied_in [last]
           <? Z.of_nat (List.length (node_slots last))).
Proof.
  intros Hst Hnodes.
  destruct (status_of_body_spec _ _ Hst) as [Hs [_ [_ Hav]]].
  assert (Hmax : maxSessions st = Z.of_nat (List.length (node_slots last))).
  { revert Hst Hnodes. unfold status_of_body, body_nodes, obind.
    destruct (Json.get data "value" (JObj [])) as [value|]; [|discriminate].
    destruct (Json.get value "ready" (JBool false)) as [ready_|]; [|discriminate].
    destruct (Json.get value "nodes" (JArr [])) as [nodes0|]; [|discriminate].
    destruct nodes0 as [| | | s | l0 | items]; cbn [Json.iter]; try discriminate;
      try (intros _ Hn; destruct nodes; discriminate Hn).
    destruct (scan_nodes l0 0 1) as [[a m]|] eqn:Hscan; [|discriminate].
    intros H Hn. inversion H; subst st. cbn [maxSessions]. subst l0.
    eapply scan_nodes_last. exact Hscan. }
  split; [exact Hmax|].
  assert (Hsess : sessions st = occupied_in nodes + occupied_in [last]).
  { rewrite Hs. unfold occupied_slots. rewrite Hnodes. apply occupied_in_app. }
  split; [exact Hsess|]. rewrite Hav, Hsess, Hmax. reflexivity.
Qed.

(** X13: what the probe makes of a body with a part missing.  A body that
    is not an object gives no status (the probe then answers unavailable);
    an object without the key [value] gives a status that is not ready, so
    not available; a [value] that says ready and has no key [nodes] gives an
    available status with no session and capacity 1. *)
Theorem status_of_body_missing_parts :
  (forall data, (forall items, data <> JObj items) -> status_of_body data = None)
  /\ (forall items,
         Json.assoc "value" items = None ->
         exists st, status_of_body (JObj items) = Some st
                    /\ Json.truthy (available st) = false
                    /\ sessions st = 0 /\ maxSessions st = 1)
  /\ (forall items fields ready_,
         Json.assoc "value" items = Some (JObj fields) ->
         Json.assoc "ready" fields = Some ready_ ->
         Json.truthy ready_ = true ->
         Json.assoc "nodes" fields = None ->
         exists st, status_of_body (JObj items) = Some st
                    /\ Json.truthy (available st) = true
                    /\ sessions st = 0 /\ maxSessions st = 1).
Proof.
  split; [|split].
  - intros data Hno. destruct data as [| | | | |items]; try reflexivity.
    exfalso. apply (Hno items). reflexivity.
  - intros items Hvalue. unfold status_of_body. cbn [Json.get obind].
    rewrite Hvalue. cbn. eexists. split; [reflexivity|]. cbn. auto.
  - intros items fields ready_ Hvalue Hready Htruthy Hnodes.
    unfold status_of_body. cbn [Json.get obind].
    rewrite Hvalue. cbn [Json.get obind]. rewrite Hready, Hnodes. cbn.
    eexists. split; [reflexivity|]. cbn. unfold Json.and_. rewrite Htruthy. auto.
Qed.

(** *** The names of the workers *)

Lemma append_length (a b : string) :
  String.length (a ++ b) = (String.length a + String.length b)%nat.
Proof. induction a as [|c a IH]; cbn; [reflexivity|]. rewrite IH. reflexivity. Qed.

Lemma append_cancel_tail (a b t : string) : a ++ t = b ++ t -> a = b.
Proof.
  revert b. induction a as [|x a IH]; intros b H.
  - destruct b as [|y b]; [reflexivity|]. exfalso.
    apply (f_equal String.length) in H. cbn in H. rewrite append_length in H. lia.
  - destruct b as [|y b].
    + exfalso. apply (f_equal String.length) in H. cbn in H.
      rewrite append_length in H. lia.
    + cbn in H. inversion H. f_equal. apply IH. assumption.
Qed.

(** X14: two pods with different names get different cluster names, so
    that the name the selector returns identifies its pod. *)
Theorem getChromeNodeDns_injective (cfg : Config) (a b : string) :
  _getChromeNodeDns cfg a = _getChromeNodeDns cfg b -> a = b.
Proof.
  unfold _getChromeNodeDns. apply append_cancel_tail.
Qed.

(** *** The command line *)

Lemma bind_val_inv {W A B : Type} (m : M W A) (k : A -> M W B) (w w' : W) (b : B) :
  bind m k w = (Val b, w') ->
  exists a w1, m w = (Val a, w1) /\ k a w1 = (Val b, w').
Proof.
  unfold bind. destruct (m w) as [[a|e| |] w1]; intros H; try discriminate H. eauto.
Qed.

Lemma exit_code_0_or_1 (success : bool) : exit_code success = 0 \/ exit_code success = 1.
Proof. destruct success; auto. Qed.

Section MainProperties.

Context {W : Type} {E : Env W}.
Variable cfg : Config.
Variable KUBECONFIG : option string.
Variable load_kube_config : option string -> W -> ConfigResult * W.
Variable load_incluster_config : W -> ConfigResult * W.
Variable parse_args : list string -> Parsed.

Let construct := __init__ KUBECONFIG load_kube_config load_incluster_config.
Let body := main_body cfg KUBECONFIG load_kube_config load_incluster_config.
Let entry := main cfg KUBECONFIG load_kube_config load_incluster_config parse_args.

Lemma main_body_code fuel args (w w' : W) code :
  main_body cfg KUBECONFIG load_kube_config load_incluster_config fuel args w
  = (Val code, w') ->
  code = 0 \/ code = 1.
Proof.
  unfold main_body. intros H.
  apply bind_val_inv in H. destruct H as [[] [w0 [_ H]]].
  destruct (arg_status args).
  { apply bind_val_inv in H. destruct H as [st [w1 [_ H]]].
    inversion H. auto. }
  destruct (arg_deploy args).
  { apply bind_val_inv in H. destruct H as [b [w1 [_ H]]].
    inversion H. apply exit_code_0_or_1. }
  destruct (arg_check_readiness args).
  { apply bind_val_inv in H. destruct H as [b1 [w1 [_ H]]].
    apply bind_val_inv in H. destruct H as [b2 [w2 [_ H]]].
    inversion H. apply exit_code_0_or_1. }
  destruct (arg_pass_test_cases args).
  { apply bind_val_inv in H. destruct H as [tcs [w1 [_ H]]].
    inversion H. apply exit_code_0_or_1. }
  destruct (arg_execute_tests args).
  { apply bind_val_inv in H. destruct H as [[b out] [w1 [_ H]]].
    inversion H. apply exit_code_0_or_1. }
  apply bind_val_inv in H. destruct H as [b [w1 [_ H]]].
  inversion H. apply exit_code_0_or_1.
Qed.

(** X15: the exit status of [main], which lets no exception out.  A
    command line that the parser turns down ends the process with the status
    of the parser, before the configuration is loaded and before any call to
    the cluster.  Otherwise an interrupt that arrives while the step runs
    ends it with 130, an [Exception] that leaves the step with 1, as does a
    configuration that cannot be loaded, and a step that runs to its end with
    0 or 1.  So a status other than 0, 1 and 130 is the parser's, and 130 is
    the parser's or the mark of an interrupt. *)
Theorem main_exit_status fuel argv (w : W) :
  (forall status,
      parseArgs parse_args argv = ParserExit status ->
      entry fuel argv w = (Val status, w))
  /\ (forall args,
         parseArgs parse_args argv = ParsedArgs args ->
         (forall w', body fuel args w = (Interrupted, w') ->
                     entry fuel argv w = (Val 130, w'))
         /\ (forall msg w', body fuel args w = (Exc msg, w') ->
                            entry fuel argv w = (Val 1, w'))
         /\ (forall status w', body fuel args w = (Val status, w') ->
                               (status = 0 \/ status = 1)
                               /\ entry fuel argv w = (Val status, w'))
         /\ (forall msg w1, construct (arg_kubeconfig args) w = (Exc msg, w1) ->
                            entry fuel argv w = (Val 1, w1)))
  /\ ((exists status w',
          entry fuel argv w = (Val status, w')
          /\ (parseArgs parse_args argv = ParserExit status
              \/ status = 0 \/ status = 1 \/ status = 130))
      \/ (exists w', entry fuel argv w = (Div, w')))
  /\ (forall w',
         entry fuel argv w = (Val 130, w') ->
         parseArgs parse_args argv = ParserExit 130
         \/ exists args, parseArgs parse_args argv = ParsedArgs args
                         /\ body fuel args w = (Interrupted, w')).
Proof.
  subst construct body entry. cbv zeta. unfold main.
  destruct (parseArgs parse_args argv) as [args|status0] eqn:Hparse.
  - destruct (main_body cfg KUBECONFIG load_kube_config load_incluster_config fuel args w)
      as [[status|msg| |] w0] eqn:Hbody.
    + pose proof (main_body_code _ _ _ _ _ Hbody) as Hcode.
      split; [intros status1 H; discriminate H|]. split; [|split].
      * intros args0 Hargs. inversion Hargs; subst args0. rewrite Hbody.
        split; [intros w' H; discriminate H|]. split; [intros m w' H; discriminate H|].
        split; [intros st w' H; inversion H; subst st w'; auto|].
        intros m w1 Hinit. unfold main_body in Hbody. unfold bind at 1 in Hbody.
        rewrite Hinit in Hbody. discriminate Hbody.
      * left. exists status, w0. split; [reflexivity|]. tauto.
      * intros w' H. inversion H; subst status w'. destruct Hcode as [Hc|Hc]; discriminate Hc.
    + split; [intros status1 H; discriminate H|]. split; [|split].
      * intros args0 Hargs. inversion Hargs; subst args0. rewrite Hbody.
        split; [intros w' H; discriminate H|].
        split; [intros m w' H; inversion H; reflexivity|].
        split; [intros st w' H; discriminate H|].
        intros m w1 Hinit. unfold main_body in Hbody. unfold bind at 1 in Hbody.
        rewrite Hinit in Hbody. inversion Hbody. reflexivity.
      * left. exists 1, w0. split; [reflexivity|]. tauto.
      * intros w' H. discriminate H.
    + split; [intros status1 H; discriminate H|]. split; [|split].
      * intros args0 Hargs. inversion Hargs; subst args0. rewrite Hbody.
        split; [intros w' H; inversion H; reflexivity|].
        split; [intros m w' H; discriminate H|].
        split; [intros st w' H; discriminate H|].
        intros m w1 Hinit. unfold main_body in Hbody. unfold bind at 1 in Hbody.
        rewrite Hinit in Hbody. discriminate Hbody.
      * left. exists 130, w0. split; [reflexivity|]. tauto.
      * intros w' H. inversion H; subst w'. right. exists args. auto.
    + split; [intros status1 H; discriminate H|]. split; [|split].
      * intros args0 Hargs. inversion Hargs; subst args0. rewrite Hbody.
        split; [intros w' H; discriminate H|].
        split; [intros m w' H; discriminate H|].
        split; [intros st w' H; discriminate H|].
        intros m w1 Hinit. unfold main_body in Hbody. unfold bind at 1 in Hbody.
        rewrite Hinit in Hbody. discriminate Hbody.
      * right. eauto.
      * intros w' H. discriminate H.
  - split; [intros status1 H; inversion H; reflexivity|]. split; [|split].
    + intros args0 Hargs. discriminate Hargs.
    + left. exists status0, w. split; [reflexivity|]. auto.
    + intros w' H. unfold ret in H. inversion H. auto.
Qed.

(** X16: once the command line is parsed and the configuration is loaded,
    [main] runs one step only, the first that is asked for in the order status, deploy, check-readiness,
    pass-test-cases, execute-tests, and the full run when none is.  The
    status step exits with 0 whatever the pods are; the readiness step waits
    for one worker and then for the controller, also when the workers did not
    become ready, and exits with 0 only when both did; the collection step
    exits with 0 only for a list that is not empty. *)
Theorem main_runs_one_step fuel argv args (w w0 : W) :
  parseArgs parse_args argv = ParsedArgs args ->
  construct (arg_kubeconfig args) w = (Val tt, w0) ->
  (arg_status args = true ->
   forall status w1, getPodStatus cfg w0 = (Val status, w1) ->
                     entry fuel argv w = (Val 0, w1))
  /\ (arg_status args = false -> arg_deploy args = true ->
      forall success w1,
        deploy cfg (arg_helm_chart_path args) (arg_node_count args)
               (Some (arg_values_file args)) w0 = (Val success, w1) ->
        entry fuel argv w = (Val (exit_code success), w1))
  /\ (arg_status args = false -> arg_deploy args = false ->
      arg_check_readiness args = true ->
      forall chromeReady w1 controllerReady w2,
        checkReadiness cfg fuel (CHROME_NODE_POD_LABEL cfg) 1 w0 = (Val chromeReady, w1) ->
        checkReadiness cfg fuel (CONTROLLER_POD_LABEL cfg) 1 w1
        = (Val controllerReady, w2) ->
        entry fuel argv w = (Val (exit_code (chromeReady && controllerReady)), w2))
  /\ (arg_status args = false -> arg_deploy args = false ->
      arg_check_readiness args = false -> arg_pass_test_cases args = true ->
      forall testCases w1,
        passTestCases cfg w0 = (Val testCases, w1) ->
        entry fuel argv w
        = (Val (if Nat.eqb (List.length testCases) 0 then 1 else 0), w1))
  /\ (arg_status args = false -> arg_deploy args = false ->
      arg_check_readiness args = false -> arg_pass_test_cases args = false ->
      arg_execute_tests args = true ->
      forall success payload w1,
        executeTests cfg "tests/" None w0 = (Val (success, payload), w1) ->
        entry fuel argv w = (Val (exit_code success), w1))
  /\ (arg_status args = false -> arg_deploy args = false ->
      arg_check_readiness args = false -> arg_pass_test_cases args = false ->
      arg_execute_tests args = false ->
      forall success w1,
        run cfg fuel (Some (arg_helm_chart_path args)) (Some (arg_node_count args))
            (arg_skip_deploy args) (Some (arg_values_file args)) w0 = (Val success, w1) ->
        entry fuel argv w = (Val (exit_code success), w1)).
Proof.
  subst construct entry. cbv zeta. intros Hparse Hinit.
  unfold main. rewrite Hparse. unfold main_body.
  split; [|split; [|split; [|split; [|split]]]].
  - intros -> status w1 H. unfold bind at 1. rewrite Hinit.
    unfold bind at 1. rewrite H. reflexivity.
  - intros -> -> success w1 H. unfold bind at 1. rewrite Hinit.
    unfold bind at 1. rewrite H. reflexivity.
  - intros -> -> -> b1 w1 b2 w2 H1 H2. unfold bind at 1. rewrite Hinit.
    unfold bind at 1. rewrite H1. unfold bind at 1. rewrite H2. reflexivity.
  - intros -> -> -> -> tcs w1 H. unfold bind at 1. rewrite Hinit.
    unfold bind at 1. rewrite H. destruct tcs; reflexivity.
  - intros -> -> -> -> -> success payload w1 H. unfold bind at 1. rewrite Hinit.
    unfold bind at 1. rewrite H. reflexivity.
  - intros -> -> -> -> -> success w1 H. unfold bind at 1. rewrite Hinit.
    unfold bind at 1. rewrite H. reflexivity.
Qed.

(** X17: how the configuration is found.  A kubeconfig path, given on the
    command line or else by the setting, is loaded from that file and the
    in-cluster loader is not tried; without a path the in-cluster
    configuration is tried first, and the default kubeconfig only after the
    in-cluster loader raised [ConfigException]; any other fault of the
    in-cluster loader is raised again without trying the default. *)
Theorem init_config_order kubeConfig (w : W) :
  let path := if name_truthy kubeConfig then kubeConfig else KUBECONFIG in
  (name_truthy path = true ->
   forall r w1, load_kube_config path w = (r, w1) ->
                construct kubeConfig w
                = (match r with
                   | ConfigLoaded => Val tt
                   | ConfigException msg => Exc msg
                   | ConfigRaised msg => Exc msg
                   end, w1))
  /\ (name_truthy path = false ->
      forall r w1, load_incluster_config w = (r, w1) ->
        match r with
        | ConfigLoaded => construct kubeConfig w = (Val tt, w1)
        | ConfigRaised msg => construct kubeConfig w = (Exc msg, w1)
        | ConfigException _ =>
            forall r' w2, load_kube_config None w1 = (r', w2) ->
                          construct kubeConfig w
                          = (match r' with
                             | ConfigLoaded => Val tt
                             | ConfigException msg => Exc msg
                             | ConfigRaised msg => Exc msg
                             end, w2)
        end).
Proof.
  subst construct. cbv zeta. unfold __init__, _loadKubeConfig. split.
  - intros Hpath r w1 Hload. rewrite Hpath. unfold call, bind. rewrite Hload.
    destruct r; reflexivity.
  - intros Hpath r w1 Hload. rewrite Hpath. unfold call, bind. rewrite Hload.
    destruct r as [|msg|msg]; [reflexivity| |reflexivity].
    intros r' w2 Hload'. rewrite Hload'. destruct r'; reflexivity.
Qed.

End MainProperties.

(** *** What a method leaves alone *)

Lemma keeps_ret {A} f (a : A) : keeps f (ret a).
Proof. intros w. reflexivity. Qed.

Lemma keeps_raise {A} f msg : keeps f (@raise Counters A msg).
Proof. intros w. reflexivity. Qed.

Lemma keeps_interrupt {A} f : keeps f (@interrupt Counters A).
Proof. intros w. reflexivity. Qed.

Lemma keeps_diverge {A} f : keeps f (@diverge Counters A).
Proof. intros w. reflexivity. Qed.

Lemma keeps_read {A} f (g : Counters -> A) : keeps f (read g).
Proof. intros w. reflexivity. Qed.

Lemma keeps_bind {A B} f (m : M Counters A) (k : A -> M Counters B) :
  keeps f m -> (forall a, keeps f (k a)) -> keeps f (bind m k).
Proof.
  intros Hm Hk w. unfold bind. specialize (Hm w).
  destruct (m w) as [[a|e| |] w1]; cbn in *; [|exact Hm..].
  rewrite <- Hm. apply Hk.
Qed.

Lemma keeps_try_except {A} f (m : M Counters A) (h : string -> M Counters A) :
  keeps f m -> (forall e, keeps f (h e)) -> keeps f (try_except m h).
Proof.
  intros Hm Hh w. unfold try_except. specialize (Hm w).
  destruct (m w) as [[a|e| |] w1]; cbn in *; [exact Hm| |exact Hm|exact Hm].
  rewrite <- Hm. apply Hh.
Qed.

Section Frames.

Variable s : Scenario.
Variable cfg : Config.

Lemma keeps_sleep f d :
  (forall w, f (time_sleep (Env := scenario_env s) d w) = f w) ->
  keeps f (@sleep Counters (scenario_env s) d).
Proof.
  intros Hf w. unfold sleep. destruct (d <? 0); [reflexivity|]. apply Hf.
Qed.

Ltac frame_step :=
  first
    [ apply keeps_ret | apply keeps_raise | apply keeps_interrupt | apply keeps_diverge
    | apply keeps_read
    | apply keeps_sleep; intros ?; reflexivity
    | apply keeps_bind; [|intros ?]
    | apply keeps_try_except; [|intros ?]
    | match goal with
      | |- keeps _ (match ?x with _ => _ end) => destruct x
      | |- keeps _ (call _) => intros ?; reflexivity
      end ].

Lemma getPodsByLabel_keeps_runs labelSelector :
  keeps n_run (_getPodsByLabel (E := scenario_env s) cfg labelSelector).
Proof. unfold _getPodsByLabel. repeat frame_step. Qed.

Lemma getPodName_keeps_runs labelSelector :
  keeps n_run (_getPodName (E := scenario_env s) cfg labelSelector).
Proof.
  unfold _getPodName. apply keeps_bind; [apply getPodsByLabel_keeps_runs|].
  intros pods. repeat frame_step.
Qed.

Lemma execInPod_keeps_runs name command container envVars :
  keeps n_run (_execInPod (E := scenario_env s) cfg name command container envVars).
Proof. unfold _execInPod. repeat frame_step. Qed.

Lemma checkChromeNodeStatus_keeps_runs dnsName controller port :
  keeps n_run (_checkChromeNodeStatus (E := scenario_env s) cfg dnsName controller port).
Proof.
  unfold _checkChromeNodeStatus. apply keeps_bind; [apply execInPod_keeps_runs|].
  intros [[rc out] err]. repeat frame_step.
Qed.

Lemma select_loop_keeps_runs controller pods :
  keeps n_run (select_loop (E := scenario_env s) cfg controller pods).
Proof.
  induction pods as [|pod rest IH]; cbn [select_loop]; [apply keeps_ret|].
  destruct (negb (_isPodReady pod)); [exact IH|].
  apply keeps_bind; [apply checkChromeNodeStatus_keeps_runs|].
  intros st. destruct (Json.truthy (available st)); [apply keeps_ret|exact IH].
Qed.

Lemma getAvailableChromeNode_keeps_runs :
  keeps n_run (_getAvailableChromeNode (E := scenario_env s) cfg).
Proof.
  unfold _getAvailableChromeNode. apply keeps_bind; [apply getPodName_keeps_runs|].
  intros [name|]; [|apply keeps_ret].
  destruct (negb (Py.nonempty name)); [apply keeps_ret|].
  apply keeps_bind; [apply getPodsByLabel_keeps_runs|].
  intros [|pod rest]; [apply keeps_ret|apply select_loop_keeps_runs].
Qed.

Lemma checkReadiness_keeps_runs fuel labelSelector minReady :
  keeps n_run (checkReadiness (E := scenario_env s) cfg fuel labelSelector minReady).
Proof.
  unfold checkReadiness. apply keeps_bind; [apply keeps_read|]. intros startTime.
  induction fuel as [|fuel IH]; cbn [checkReadiness_loop]; [apply keeps_diverge|].
  apply keeps_bind; [apply keeps_read|]. intros now.
  destruct (now - startTime <? READINESS_TIMEOUT cfg); [|apply keeps_ret].
  apply keeps_bind; [apply getPodsByLabel_keeps_runs|]. intros pods.
  destruct (readyCount pods >=? minReady); [apply keeps_ret|].
  apply keeps_bind; [apply keeps_sleep; intros; reflexivity|]. intros _. exact IH.
Qed.

Lemma passTestCases_keeps_runs :
  keeps n_run (passTestCases (E := scenario_env s) cfg).
Proof.
  unfold passTestCases. generalize (Py.range 1 (MAX_RETRIES cfg + 1)).
  intros attempts. induction attempts as [|attempt rest IH]; cbn [passTestCases_loop];
    [apply keeps_ret|].
  apply keeps_bind; [apply getPodName_keeps_runs|]. intros o.
  destruct (if name_truthy o then o else None) as [name|].
  - apply keeps_bind; [apply execInPod_keeps_runs|]. intros [[rc out] err].
    destruct (collect_lines out); [|apply keeps_ret].
    apply keeps_bind; [|intros _; exact IH].
    destruct (attempt <? MAX_RETRIES cfg);
      [apply keeps_sleep; intros; reflexivity|apply keeps_ret].
  - destruct (attempt <? MAX_RETRIES cfg); [|apply keeps_ret].
    apply keeps_bind; [apply keeps_sleep; intros; reflexivity|intros _; exact IH].
Qed.

Lemma executeTests_keeps_runs testPath specificTests :
  keeps n_run (executeTests (E := scenario_env s) cfg testPath specificTests).
Proof.
  unfold executeTests. apply keeps_bind; [apply getPodName_keeps_runs|]. intros o.
  destruct (if name_truthy o then o else None) as [name|]; [|apply keeps_ret].
  apply keeps_bind; [apply getAvailableChromeNode_keeps_runs|]. intros node.
  destruct (if name_truthy node then node else None) as [dns|]; [|apply keeps_ret].
  generalize (Py.range 1 (MAX_RETRIES cfg + 1)). intros attempts.
  generalize (@None (string * string)).
  induction attempts as [|attempt rest IH]; intros last; cbn [executeTests_loop].
  - destruct last as [[out err]|]; [apply keeps_ret|apply keeps_raise].
  - apply keeps_bind; [apply execInPod_keeps_runs|]. intros [[rc out] err].
    destruct (rc =? 0); [apply keeps_ret|].
    destruct (output_says_passed out); [apply keeps_ret|].
    apply keeps_bind; [|intros _; apply IH].
    destruct (attempt <? MAX_RETRIES cfg);
      [apply keeps_sleep; intros; reflexivity|apply keeps_ret].
Qed.

Lemma getPodStatus_keeps_runs : keeps n_run (getPodStatus (E := scenario_env s) cfg).
Proof.
  unfold getPodStatus. apply keeps_bind; [apply getPodsByLabel_keeps_runs|]. intros l1.
  apply keeps_bind; [apply getPodsByLabel_keeps_runs|]. intros l2. apply keeps_ret.
Qed.

(** X18: a run that skips the deployment, because it is told to or
    because it has no chart path, starts no helm subprocess at all, whatever
    the cluster answers and however the run ends. *)
Theorem run_without_deploy_starts_no_helm fuel helmChartPath nodeCount skipDeploy
        valuesFile (w : Counters) :
  skipDeploy = true \/ name_truthy helmChartPath = false ->
  n_run (snd (run (E := scenario_env s) cfg fuel helmChartPath nodeCount skipDeploy
                  valuesFile w))
  = n_run w.
Proof.
  intros Hskip. revert w. change (keeps n_run (run (E := scenario_env s) cfg fuel
                                   helmChartPath nodeCount skipDeploy valuesFile)).
  unfold run. apply keeps_bind.
  - unfold run_deploy.
    replace (negb skipDeploy && name_truthy helmChartPath) with false;
      [apply keeps_ret|].
    destruct Hskip as [-> | ->]; [reflexivity|]. rewrite andb_false_r. reflexivity.
  - intros deployed. destruct (negb deployed); [apply keeps_ret|].
    apply keeps_bind; [apply checkReadiness_keeps_runs|]. intros workers.
    destruct (negb workers); [apply keeps_ret|].
    apply keeps_bind; [apply checkReadiness_keeps_runs|]. intros controller.
    destruct (negb controller); [apply keeps_ret|].
    apply keeps_bind; [apply getPodStatus_keeps_runs|]. intros status.
    apply keeps_bind; [apply passTestCases_keeps_runs|]. intros testCases.
    apply keeps_bind; [apply executeTests_keeps_runs|]. intros [success payload].
    apply keeps_ret.
Qed.

(** X19: [deploy] talks to helm and the file system only: it lists no pod
    and runs no command in a pod. *)
Theorem deploy_makes_no_cluster_call helmChartPath nodeCount valuesFile (w : Counters) :
  let w' := snd (deploy (E := scenario_env s) cfg helmChartPath nodeCount valuesFile w) in
  n_list w' = n_list w /\ n_exec w' = n_exec w.
Proof.
  cbv zeta.
  assert (Hloop : forall f, (forall w0 d, (f (time_sleep (Env := scenario_env s) d w0) = f w0)) ->
                            (forall c w0, f (snd (subprocess_run (Env := scenario_env s) c w0))
                                          = f w0) ->
                            keeps f (deploy (E := scenario_env s) cfg helmChartPath
                                            nodeCount valuesFile)).
  { intros f Hsleep Hrun. unfold deploy. apply keeps_bind; [apply keeps_read|].
    intros chartExists. destruct (negb chartExists); [apply keeps_ret|].
    apply keeps_bind; [apply keeps_read|]. intros valuesExists.
    generalize (Py.range 1 (MAX_RETRIES cfg + 1)). intros attempts.
    match goal with |- keeps f (deploy_loop cfg ?c attempts) => generalize c end.
    intros command.
    induction attempts as [|attempt rest IH]; cbn [deploy_loop]; [apply keeps_ret|].
    apply keeps_bind.
    - unfold _runCommand. apply keeps_bind.
      + intros w0. unfold call. specialize (Hrun command w0).
        destruct (subprocess_run command w0). exact Hrun.
      + intros [rc out err| |msg]; apply keeps_ret.
    - intros [[rc out] err]. destruct (rc =? 0); [apply keeps_ret|].
      apply keeps_bind; [|intros _; exact IH].
      destruct (attempt <? MAX_RETRIES cfg);
        [apply keeps_sleep; intros; apply Hsleep|apply keeps_ret]. }
  split; apply Hloop; intros; reflexivity.
Qed.

End Frames.

(** *** Runs of the further properties on concrete clusters *)

Lemma no_retry_delay_nonneg : 0 <= RETRY_DELAY no_retry_config.
Proof. discriminate. Qed.


Lemma deploy_exhausts_retries_on_failing_helm :
  deploy (E := scenario_env helm_down) default_config "./helm/insider-testops" 2 None
         start_world
  = (Val false, world 20 0 0 3 2).
Proof.
  exact (deploy_exhausts_retries helm_down default_config "./helm/insider-testops" 2 None
           start_world default_delay_nonneg eq_refl (fun _ _ => eq_refl)).
Defined.

Lemma handleErrors_accepts_zero :
  handleErrors (E := scenario_env no_workers) default_config "count" (ret (VInt 0))
               start_world
  = (Val (true, VInt 0), start_world).
Proof.
  apply (handleErrors_accepts_other_values (E := scenario_env no_workers) default_config
           default_delay_nonneg "count" (ret (VInt 0)) start_world start_world (VInt 0)).
  - discriminate.
  - reflexivity.
  - split; [discriminate|]. intros first rest H. discriminate H.
Defined.

Lemma no_attempt_with_zero_retries :
  handleErrors (E := scenario_env three_workers) no_retry_config "deploy"
               (ret (VBool true)) start_world
  = (Val (false, VNone), start_world)
  /\ passTestCases (E := scenario_env three_workers) no_retry_config start_world
     = (Val [], start_world)
  /\ deploy (E := scenario_env three_workers) no_retry_config "./helm/insider-testops" 1
            None start_world
     = (Val false, start_world).
Proof.
  apply (no_attempt_below_one_retry (E := scenario_env three_workers) no_retry_config).
  reflexivity.
Defined.


Lemma executeTests_raises_with_zero_retries :
  executeTests (E := scenario_env three_workers) no_retry_config "tests/" None start_world
  = (Exc "UnboundLocalError: stdout", world 0 3 2 0 0).
Proof.
  apply (executeTests_raises_without_attempt (E := scenario_env three_workers)
           no_retry_config "tests/" None start_world (world 0 1 0 0 0) (world 0 3 2 0 0)
           "test-case-controller-0" (chrome_node_dns "1")).
  - reflexivity.
  - reflexivity.
  - reflexivity.
  - vm_compute. reflexivity.
  - reflexivity.
Defined.

Lemma executeTests_failure_payload_of_failed_tests :
  exists w0 w1 returnCode stderr,
    _execInPod (E := scenario_env (exit_one_with "1 failed, 2 passed")) default_config
               "test-case-controller-0" (test_command "tests/" None) None
               (Some (remote_env "0")) w0
    = (Val (returnCode, "1 failed, 2 passed", stderr), w1)
    /\ returnCode <> 0.
Proof.
  destruct (executeTests_failure_payload
              (E := scenario_env (exit_one_with "1 failed, 2 passed")) default_config
              default_delay_nonneg "test-case-controller-0" (test_command "tests/" None)
              (remote_env "0") [1; 2; 3] None (world 0 3 1 0 0) (world 20 3 4 0 2)
              "1 failed, 2 passed")
    as [w0 [w1 [rc [out [err [Hexec [Hrc [_ Hpayload]]]]]]]].
  - discriminate.
  - vm_compute. reflexivity.
  - exists w0, w1, rc, err. split; [|exact Hrc].
    assert (Hout : out = "1 failed, 2 passed").
    { revert Hexec. unfold _execInPod. munfold. cbn.
      intros H. inversion H. reflexivity. }
    subst out. exact Hexec.
Defined.

Lemma passTestCases_returns_identifiers_on_three_workers :
  Py.contains "::" "tests/test_insider.py::TestInsider::test_jobs" = true
  /\ Py.startswith "=" "tests/test_insider.py::TestInsider::test_jobs" = false
  /\ Py.startswith "-" "tests/test_insider.py::TestInsider::test_jobs" = false
  /\ Py.startswith " " "tests/test_insider.py::TestInsider::test_jobs" = false.
Proof.
  destruct (passTestCases_returns_identifiers (E := scenario_env three_workers)
              default_config default_delay_nonneg start_world (world 0 1 1 0 0)
              ["tests/test_insider.py::TestInsider::test_home";
               "tests/test_insider.py::TestInsider::test_jobs"])
    as [Hids _]; [vm_compute; reflexivity|].
  apply Hids. right. left. reflexivity.
Defined.

Lemma checkReadiness_edges_zero_threshold :
  checkReadiness (E := scenario_env no_workers) default_config 1 "app=chrome-node" 0
                 start_world
  = (Val true, world 0 1 0 0 0).
Proof.
  destruct (checkReadiness_edges (E := scenario_env no_workers) default_config
              default_interval_nonneg "app=chrome-node" 0 0 start_world) as [_ Htrue].
  apply Htrue; [reflexivity|discriminate|reflexivity].
Defined.

Lemma checkReadiness_needs_enough_pods_without_workers :
  checkReadiness (E := scenario_env no_workers) default_config 100 "app=chrome-node" 1
                 start_world
  <> (Val true, world 300 60 0 0 60).
Proof.
  apply (checkReadiness_needs_enough_pods (E := scenario_env no_workers) default_config
           default_interval_nonneg).
  intros w0. reflexivity.
Defined.

Lemma checkReadiness_ends_with_interrupt :
  checkReadiness (E := scenario_env interrupted_listing) default_config 100
                 "app=chrome-node" 3 start_world
  = (Interrupted, world 5 2 0 0 1).
Proof.
  destruct (checkReadiness_ends_with_listing_fault (E := scenario_env interrupted_listing)
              default_config default_interval_nonneg "app=chrome-node" 3 1 100 start_world)
    as [r [Hrun [Hraised _]]].
  - lia.
  - intros k Hk. assert (k = 0%nat) by lia. subst k. repeat split.
  - reflexivity.
  - reflexivity.
  - unfold raised_by_listing in Hraised. cbn in Hraised. subst r. exact Hrun.
Defined.

Lemma select_loop_skips_pending_pod :
  select_loop (E := scenario_env three_workers) default_config "test-case-controller-0"
              [pending_pod "chrome-node-2"] start_world
  = (Val None, start_world).
Proof.
  apply (select_loop_skips_unready (E := scenario_env three_workers) default_config).
  intros pod [<-|[]]. reflexivity.
Defined.

Lemma status_capacity_of_two_nodes :
  exists st,
    status_of_body (status_body true [[true]; [false; false]]) = Some st
    /\ maxSessions st = 2 /\ sessions st = 1
    /\ Json.truthy (available st) = true.
Proof.
  eexists. split; [reflexivity|].
  destruct (status_capacity_is_last_node
              (status_body true [[true]; [false; false]]) _
              [JObj [("slots", JArr [slot_json true])]]
              (JObj [("slots", JArr [slot_json false; slot_json false])])
              eq_refl eq_refl) as [Hmax [Hsess Hav]].
  split; [exact Hmax|]. split; [exact Hsess|]. rewrite Hav. reflexivity.
Defined.

Lemma getChromeNodeDns_injective_on_equal_names :
  "chrome-node-0" = "chrome-node-0".
Proof.
  apply (getChromeNodeDns_injective default_config). reflexivity.
Defined.

Lemma main_exits_with_130_on_interrupt :
  main (E := scenario_env interrupted_listing) default_config None default_kubeconfig_only
       not_in_cluster parse_known 100 ["--status"] start_world
  = (Val 130, world 0 2 0 0 0)
  /\ main (E := scenario_env interrupted_listing) default_config None
          default_kubeconfig_only not_in_cluster parse_known 100 ["--node-count"; "two"]
          start_world
     = (Val 2, start_world).
Proof.
  split.
  - destruct (main_exit_status (E := scenario_env interrupted_listing) default_config None
                default_kubeconfig_only not_in_cluster parse_known 100 ["--status"]
                start_world) as [_ [Hparsed _]].
    destruct (Hparsed status_args eq_refl) as [Hinterrupted _].
    apply Hinterrupted. reflexivity.
  - destruct (main_exit_status (E := scenario_env interrupted_listing) default_config None
                default_kubeconfig_only not_in_cluster parse_known 100
                ["--node-count"; "two"] start_world) as [Hparser _].
    apply Hparser. reflexivity.
Defined.

Lemma main_runs_status_before_deploy :
  main (E := scenario_env three_workers) default_config None default_kubeconfig_only
       not_in_cluster parse_known 100 ["--status"; "--deploy"] start_world
  = (Val 0, world 0 2 0 0 0).
Proof.
  destruct (main_runs_one_step (E := scenario_env three_workers) default_config None
              default_kubeconfig_only not_in_cluster parse_known 100
              ["--status"; "--deploy"] status_and_deploy_args
              start_world start_world eq_refl eq_refl) as [Hstatus _].
  eapply Hstatus; reflexivity.
Defined.

Lemma run_without_deploy_starts_no_helm_on_three_workers :
  n_run (snd (run (E := scenario_env three_workers) default_config 100
                  (Some "./helm/insider-testops") (Some 1) true None start_world))
  = 0%nat.
Proof.
  apply (run_without_deploy_starts_no_helm three_workers default_config 100
           (Some "./helm/insider-testops") (Some 1) true None start_world).
  left. reflexivity.
Defined.
